(** * tex2utf: records, joins, brackets, the scope stack and the parser

    A shallow embedding of the [refactor] package of tex2utf
    (records.py, join.py, brackets.py, output.py, stack.py, math_ops.py,
    commands.py, parser.py) and the properties of its layout engine.

    Python values are modelled as follows.
    - [str] is a list of Unicode code points ([pystr]); [len], slicing,
      [ljust], [split], [join], [strip] follow the Python semantics.
    - [int] is [Z]; a repeat count or a [range] bound that is negative
      gives the empty string or the empty range ([Z.to_nat]).
    - a record string ["h,l,b,sp,content"] is the Rocq record [record]
      with its four integer fields and its content; [encode] gives the
      string back where the program looks at it.
    - an exception is the [Raise] outcome of the monad [M]. *)

From Stdlib Require Import ZArith Lia Ascii String Decimal DecimalString DecimalZ DecimalPos.
From stdpp Require Import base list gmap.

Local Open Scope Z_scope.

(** ** Python strings and lists *)

Abbreviation char := N (only parsing).
Abbreviation pystr := (list N) (only parsing).

Definition py (s : string) : pystr :=
  (fun a => N_of_ascii a) <$> list_ascii_of_string s.

Definition SP : char := 32%N.
Definition NL : char := 10%N.
Definition COMMA : char := 44%N.
Definition BACKSLASH : char := 92%N.

(** Glyphs outside ASCII used by the layout engine. *)
Definition DASH : char := 9472%N.          (* U+2500 ─ *)
Definition LANGLE : char := 10216%N.       (* U+27E8 ⟨ *)
Definition RANGLE : char := 10217%N.       (* U+27E9 ⟩ *)
Definition BIGSOL : char := 10744%N.       (* U+29F8 ⧸ *)
Definition BIGREVSOL : char := 10745%N.    (* U+29F9 ⧹ *)
Definition VBAR : char := 9474%N.          (* U+2502 │ *)

Definition len {A} (l : list A) : Z := Z.of_nat (length l).

(** [c * n] for a one-character string [c]. *)
Definition rep (c : char) (n : Z) : pystr := replicate (Z.to_nat n) c.
Definition spaces (n : Z) : pystr := rep SP n.

(** [s.ljust(w)] *)
Definition ljust (w : Z) (s : pystr) : pystr := s ++ spaces (w - len s).

(** The start position of a slice bound [k] in a sequence of length [n]. *)
Definition clamp (n k : Z) : nat :=
  Z.to_nat (if k <? 0 then Z.max 0 (n + k) else Z.min k n).

(** [l[:k]] and [l[k:]] *)
Definition slice_to {A} (k : Z) (l : list A) : list A := take (clamp (len l) k) l.
Definition slice_from {A} (k : Z) (l : list A) : list A := drop (clamp (len l) k) l.

(** [s.split(c)] for a one-character separator. *)
Fixpoint split_on (c : char) (s : pystr) : list pystr :=
  match s with
  | [] => [[]]
  | x :: r =>
      if N.eqb x c then [] :: split_on c r
      else match split_on c r with
           | l :: ls => (x :: l) :: ls
           | [] => [[x]]
           end
  end.

(** [c.join(ls)] for a one-character separator. *)
Fixpoint join_with (c : char) (ls : list pystr) : pystr :=
  match ls with
  | [] => []
  | [l] => l
  | l :: r => l ++ c :: join_with c r
  end.

(** [s.count(c)] *)
Definition count_char (c : char) (s : pystr) : Z :=
  len (filter (fun x => x = c) s).

(** [c in s] for a one-character [c]. *)
Definition has_char (c : char) (s : pystr) : bool := bool_decide (c ∈ s).

(** [str.isspace] on one code point, which is also what [\s] matches. *)
Definition is_space (c : char) : bool :=
  ((9 <=? c) && (c <=? 13) || (28 <=? c) && (c <=? 32) || (c =? 133)
   || (c =? 160) || (c =? 5760) || (8192 <=? c) && (c <=? 8202)
   || (c =? 8232) || (c =? 8233) || (c =? 8239) || (c =? 8287)
   || (c =? 12288))%N.

Fixpoint lstrip (s : pystr) : pystr :=
  match s with
  | x :: r => if is_space x then lstrip r else s
  | [] => []
  end.

Definition rstrip (s : pystr) : pystr := reverse (lstrip (reverse s)).
Definition strip (s : pystr) : pystr := lstrip (rstrip s).

Fixpoint startswith (p s : pystr) : bool :=
  match p, s with
  | [], _ => true
  | a :: p', b :: s' => N.eqb a b && startswith p' s'
  | _ :: _, [] => false
  end.

Definition endswith (p s : pystr) : bool := startswith (reverse p) (reverse s).

(** [p in s] for strings: [p] occurs as a substring of [s]. *)
Fixpoint substr_in (p s : pystr) : bool :=
  startswith p s || match s with [] => false | _ :: r => substr_in p r end.

(** ** Outcomes *)

Inductive exn := IndexError | ValueError | ReError | NameError.

Inductive M (A : Type) : Type :=
| Ok (a : A)
| Raise (e : exn)
| Unmodelled       (* the run reached code outside of this embedding *)
| OutOfFuel.
Arguments Ok {A} a.
Arguments Raise {A} e.
Arguments Unmodelled {A}.
Arguments OutOfFuel {A}.

#[global] Instance M_ret : MRet M := fun A a => Ok a.
#[global] Instance M_bind : MBind M := fun A B k m =>
  match m with
  | Ok a => k a
  | Raise e => Raise e
  | Unmodelled => Unmodelled
  | OutOfFuel => OutOfFuel
  end.

(** [l[i]]: a negative index counts from the end, an index out of range
    raises [IndexError]. *)
Definition py_pos {A} (l : list A) (i : Z) : option nat :=
  if i <? 0 then (if 0 <=? len l + i then Some (Z.to_nat (len l + i)) else None)
  else if i <? len l then Some (Z.to_nat i) else None.

Definition py_get {A} (l : list A) (i : Z) : M A :=
  match py_pos l i with
  | Some n => match l !! n with Some x => Ok x | None => Raise IndexError end
  | None => Raise IndexError
  end.

(** [l[i] = x] *)
Definition py_set {A} (l : list A) (i : Z) (x : A) : M (list A) :=
  match py_pos l i with
  | Some n => Ok (<[n := x]> l)
  | None => Raise IndexError
  end.

(** [l.pop()] *)
Definition py_pop {A} (l : list A) : M (list A) :=
  match l with
  | [] => Raise IndexError
  | _ => Ok (take (length l - 1)%nat l)
  end.

(** [range(n)] and [range(a, b)] *)
Definition range (n : Z) : list Z := Z.of_nat <$> seq 0 (Z.to_nat n).
Definition range2 (a b : Z) : list Z := (fun i => a + Z.of_nat i) <$> seq 0 (Z.to_nat (b - a)).

(** ** Records (records.py) *)

Record record := mkrec {
  rh : Z;       (* height: number of lines, 0 or 1 for single-line text *)
  rl : Z;       (* length: width in characters *)
  rb : Z;       (* baseline *)
  rsp : Z;      (* count of expandable spaces *)
  rs : pystr    (* content, lines separated by a newline *)
}.

Definition empty : record := mkrec 0 0 0 0 [].

Definition string2record (s : pystr) (no_expand : bool) : record :=
  if no_expand then mkrec 1 (len s) 0 0 s
  else mkrec 0 (len s) 0 (count_char SP s) s.

(** [re.match(r"^\d+,(\d+)", rec)]: a field with a minus sign does not match. *)
Definition get_length (rec : record) : Z :=
  if (0 <=? rh rec) && (0 <=? rl rec) then rl rec else 0.

Definition get_height (rec : record) : Z :=
  let h := if 0 <=? rh rec then rh rec else 0 in
  if 0 <? h then h else 1.

Definition setbaseline (rec : record) (new_b : Z) : record :=
  if (0 <=? rh rec) && (0 <=? rl rec) && (0 <=? rb rec)
  then mkrec (rh rec) (rl rec) new_b (rsp rec) (rs rec)
  else rec.

Definition record_forcelength (rec : record) (new_len : Z) : record :=
  if (0 <=? rh rec) && (0 <=? rl rec)
  then mkrec (rh rec) new_len (rb rec) (rsp rec) (rs rec)
  else rec.

Definition is_empty_str (s : pystr) : bool := match s with [] => true | _ => false end.

(** [while len(lines) < h: lines.append("")] *)
Definition pad_lines (h : Z) (lines : list pystr) : list pystr :=
  lines ++ replicate (Z.to_nat (h - len lines)) [].

Definition cut (length : Z) (rec : record) : record * record :=
  let h := rh rec in
  let l := rl rec in
  let b := rb rec in
  let s := rs rec in
  let l2 := l - length in
  if l2 <? 0 then (rec, empty)
  else if negb (h =? 0) then
    let lines :=
      pad_lines h (if is_empty_str s then replicate (Z.to_nat h) [] else split_on NL s) in
    let st1 := join_with NL (slice_to length <$> lines) in
    let st2 := join_with NL (slice_from length <$> lines) in
    (mkrec h length b 0 st1, mkrec h l2 b 0 st2)
  else
    (mkrec h length b 0 (slice_to length s), mkrec h l2 b 0 (slice_from length s)).

Definition vStack (rec1 rec2 : record) : record :=
  let h1 := if rh rec1 =? 0 then 1 else rh rec1 in
  let h2 := if rh rec2 =? 0 then 1 else rh rec2 in
  let h := h1 + h2 in
  let l := Z.max (rl rec1) (rl rec2) in
  let b := h1 - 1 in
  let lines1 := pad_lines h1 (if is_empty_str (rs rec1) then [[]] else split_on NL (rs rec1)) in
  let lines2 := pad_lines h2 (if is_empty_str (rs rec2) then [[]] else split_on NL (rs rec2)) in
  mkrec h l b 0 (join_with NL (lines1 ++ lines2)).

Definition center (length : Z) (rec : record) : record :=
  let h1 := if rh rec =? 0 then 1 else rh rec in
  let left := length - rl rec in
  if left <=? 0 then rec
  else
    let left_pad := left / 2 in
    let lines := pad_lines h1 (if is_empty_str (rs rec) then [[]] else split_on NL (rs rec)) in
    mkrec h1 length (rb rec) 0
      (join_with NL ((fun line => ljust length (spaces left_pad ++ line)) <$> lines)).

Definition vputs (s : pystr) (baseline : Z) : record :=
  let h := len s in
  if h =? 0 then empty
  else mkrec h 1 baseline 0 (join_with NL ((fun c => [c]) <$> s)).

(** ** Angle brackets (brackets.py) *)

(** The body of the loop over [row] in [regenerate_angle_bracket]. *)
Definition angle_line (bracket_type : pystr) (width b row : Z) : pystr :=
  let dist_from_baseline := Z.abs (row - b) in
  if bool_decide (bracket_type = py "<") then
    let col := dist_from_baseline in
    let char := if row <? b then BIGSOL else if row =? b then LANGLE else BIGREVSOL in
    spaces col ++ [char]
  else
    let col := width - 1 - dist_from_baseline in
    let char := if row <? b then BIGREVSOL else if row =? b then RANGLE else BIGSOL in
    spaces col ++ [char].

(** [max(len(line) for line in lines) if lines else 1] *)
Definition max_len_or_1 (lines : list pystr) : Z :=
  match lines with
  | [] => 1
  | x :: r => foldl Z.max (len x) (len <$> r)
  end.

Definition regenerate_angle_bracket (bracket_type : pystr) (h b : Z) : list pystr * Z :=
  let max_dist := Z.max b (h - b - 1) in
  let width := max_dist + 1 in
  let result_lines := angle_line bracket_type width b <$> range h in
  let max_w := max_len_or_1 result_lines in
  (ljust max_w <$> result_lines, max_w).

(** ** Horizontal join (join.py) *)

(** The lines of one operand with its length, height and baseline, as
    [join_records] carries them in [lines1, l1, h1, b1]. *)
Abbreviation operand := (list pystr * Z * Z * Z)%type (only parsing).

(** [is_left_angle] and [is_right_angle]. *)
Definition is_left_angle (content : pystr) (h1 : Z) : bool :=
  has_char LANGLE content
  && (has_char BIGSOL content || has_char BIGREVSOL content || (h1 <=? 2)).

Definition is_right_angle (content : pystr) (h1 : Z) : bool :=
  has_char RANGLE content
  && (has_char BIGSOL content || has_char BIGREVSOL content || (h1 <=? 2)).

(** Does the block "Check if lines is an angle bracket that needs
    extending" rewrite this operand when the joined height is [h]? *)
Definition regenerated (h : Z) (op : operand) : bool :=
  let '(lines1, l1, h1, b1) := op in
  (h1 <? h) && (l1 <=? 6)
  && (is_left_angle (join_with NL lines1) h1 || is_right_angle (join_with NL lines1) h1).

Definition extend_angle (h b : Z) (op : operand) : M operand :=
  let '(lines1, l1, h1, b1) := op in
  if regenerated h op then
    let content := join_with NL lines1 in
    let bracket_type := if is_left_angle content h1 then py "<" else py ">" in
    let original_l1 := l1 in
    baseline_line ← (if b1 <? len lines1 then py_get lines1 b1 else Ok []);
    let leading_spaces := len baseline_line - len (lstrip baseline_line) in
    let '(new_lines, new_w) := regenerate_angle_bracket bracket_type h b in
    let new_lines :=
      if (new_w <? original_l1) && (0 <? leading_spaces)
      then (fun line => spaces (original_l1 - new_w) ++ line) <$> new_lines
      else new_lines in
    let new_w := if new_w <? original_l1 then original_l1 else new_w in
    Ok (ljust new_w <$> new_lines, new_w, h, b)
  else Ok op.

(** "Ensure baseline row of lines2 has content". *)
Definition fill_baseline (b2 l2 : Z) (lines2 : list pystr) : M (list pystr) :=
  if b2 <? len lines2 then
    x ← py_get lines2 b2;
    if len x =? 0 then py_set lines2 b2 (spaces l2) else Ok lines2
  else Ok lines2.

(** "Place lines1 content". *)
Definition place_left (h b b1 l1 h1 : Z) (lines1 result : list pystr) : list pystr :=
  foldl (fun result i =>
           let idx := b - b1 + i in
           if (0 <=? idx) && (idx <? h)
           then <[Z.to_nat idx := ljust l1 (lines1 !!! Z.to_nat i)]> result
           else result)
        result (range h1).

(** "Pad any missing rows on left side". *)
Definition pad_left (l1 : Z) (result : list pystr) : list pystr :=
  (fun r => if len r <? l1 then ljust l1 r else r) <$> result.

(** "Append lines2 content". *)
Definition place_right (h b b2 l1 h2 : Z) (lines2 result : list pystr) : list pystr :=
  foldl (fun result i =>
           let idx := b - b2 + i in
           if (0 <=? idx) && (idx <? h)
           then <[Z.to_nat idx :=
                   ljust l1 (slice_to l1 (result !!! Z.to_nat idx)) ++ lines2 !!! Z.to_nat i]> result
           else result)
        result (range h2).

Definition lines_of (h : Z) (s : pystr) : list pystr :=
  pad_lines h (if is_empty_str s then [] else split_on NL s).

Definition join_records (rec1 rec2 : record) : M record :=
  let h1 := if rh rec1 =? 0 then 1 else rh rec1 in
  let h2 := if rh rec2 =? 0 then 1 else rh rec2 in
  let b1 := rb rec1 in
  let b2 := rb rec2 in
  let b := Z.max b1 b2 in
  let below1 := h1 - b1 - 1 in
  let below2 := h2 - b2 - 1 in
  let h := b + Z.max below1 below2 + 1 in
  let lines1 := lines_of h1 (rs rec1) in
  let lines2 := lines_of h2 (rs rec2) in
  '(lines1, l1, h1, b1) ← extend_angle h b (lines1, rl rec1, h1, b1);
  '(lines2, l2, h2, b2) ← extend_angle h b (lines2, rl rec2, h2, b2);
  let l := l1 + l2 in
  lines2 ← fill_baseline b2 l2 lines2;
  let result := replicate (Z.to_nat h) [] in
  let result := place_left h b b1 l1 h1 lines1 result in
  let result := pad_left l1 result in
  let result := place_right h b b2 l1 h2 lines2 result in
  Ok (mkrec h l b (rsp rec1 + rsp rec2) (join_with NL result)).

(** ** Tall delimiters (brackets.py) *)

Definition rep_str (s : pystr) (n : Z) : pystr := concat (replicate (Z.to_nat n) s).

Definition makecompound (ascent descent : Z)
    (base exp_one exp_real top bottom middle : pystr) : pystr :=
  if (1 <=? ascent) && (0 <? descent) && bool_decide (exp_real = middle)
  then top ++ rep_str exp_real (ascent + descent - 2) ++ bottom
  else if descent <=? 0 then rep_str exp_one (ascent - 1) ++ base
  else if ascent <=? 1 then base ++ rep_str exp_one descent
  else
    let above := if 2 <=? ascent then top ++ rep_str exp_real (ascent - 2) else top in
    let below := if 1 <? descent then rep_str exp_real (descent - 1) ++ bottom else bottom in
    above ++ middle ++ below.

(** The six pieces [base, exp_one, exp_real, top, bottom, middle]. *)
Abbreviation pieces := (pystr * pystr * pystr * pystr * pystr * pystr)%type (only parsing).

Definition U (n : N) : pystr := [n].

Definition delimiter_pieces (s : pystr) (h left_sp : Z) : option pieces :=
  if bool_decide (s = py "(") then
    Some (py "(", py " ", U 9474, U 9581, U 9584, U 9474)
  else if bool_decide (s = py ")") then
    Some (py ")", py " ", U 9474, U 9582, U 9583, U 9474)
  else if bool_decide (s = py "{") then
    Some (py "{", py " ", U 9474, U 9581, U 9584, U 9569)
  else if bool_decide (s = py "}") then
    Some (py "}", py " ", U 9474, U 9582, U 9583, U 9566)
  else if bool_decide (s = py "|") || bool_decide (s = py "||") then
    if 3 <=? h then
      if left_sp =? 0
      then Some (py "|", py " ", U 9474, U 9581, U 9584, U 9474)
      else Some (py "|", py " ", U 9474, U 9582, U 9583, U 9474)
    else Some (py "|", py "|", py "|", py "|", py "|", py "|")
  else if bool_decide (s = py "[") then
    Some (py "[", py " ", U 9474, U 9484, U 9492, U 9474)
  else if bool_decide (s = py "]") then
    Some (py "]", py " ", U 9474, U 9488, U 9496, U 9474)
  else None.

(** [if left_sp: rec = join_records(string2record(" " * left_sp), rec)]
    followed by the same for [right_sp]. *)
Definition add_spacing (left_sp right_sp : Z) (rec : record) : M record :=
  rec ← (if negb (left_sp =? 0)
         then join_records (string2record (spaces left_sp) false) rec else Ok rec);
  if negb (right_sp =? 0)
  then join_records rec (string2record (spaces right_sp) false) else Ok rec.

Definition makehigh_inplace (out : list record) (idx h b left_sp right_sp : Z)
    : M (list record) :=
  r ← py_get out idx;
  let s := rs r in
  if bool_decide (s = py ".") then
    py_set out idx (mkrec (rh r) (rl r) (rb r) (rsp r) (py " "))
  else
    let h := if 0 <? h then h else 1 in
    let d := h - b - 1 in
    if (h <? 2) || ((h =? 2) && substr_in s (py "()<>")) then Ok out
    else
      match delimiter_pieces s h left_sp with
      | Some (base, exp_one, exp_real, top, bottom, middle) =>
          let compound := makecompound (b + 1) d base exp_one exp_real top bottom middle in
          let rec := vputs compound b in
          rec ← (if len s =? 2 then join_records rec rec else Ok rec);
          rec ← add_spacing left_sp right_sp rec;
          py_set out idx rec
      | None =>
          if bool_decide (s = py "<") || bool_decide (s = py ">") then
            if h =? 2 then Ok out
            else
              (* the loop of regenerate_angle_bracket, written out again in
                 the source with [s] for [bracket_type] *)
              let '(result_lines, max_w) := regenerate_angle_bracket s h b in
              let rec := mkrec h max_w b 0 (join_with NL result_lines) in
              rec ← add_spacing left_sp right_sp rec;
              py_set out idx rec
          else Ok out
      end.

(** ** Configuration (config.py) and interpreter state (state.py) *)

Record Config := mkConfig {
  linelength : Z;
  maxdef : Z;
  opt_by_par : bool;
  opt_TeX : bool;
  opt_ragged : bool;
  opt_noindent : bool
}.

Definition default_config : Config := mkConfig 150 400 false true false false.

(** An entry of [state.wait]: a closing token or a number of chunks. *)
Inductive waitv := WS (s : pystr) | WI (n : Z).

#[global] Instance waitv_eq_dec : EqDecision waitv.
Proof. solve_decision. Defined.

(** The module globals of state.py; [stdout] collects the arguments of
    the calls to [print], in order. *)
Record State := mkState {
  level : list Z;
  chunks : list Z;
  tokenByToken : list Z;
  out : list record;
  wait : list waitv;
  action : list pystr;
  curlength : Z;
  secondtime : Z;
  argStack : list pystr;
  par : pystr;
  type_table : gmap pystr pystr;
  contents : gmap pystr pystr;
  args : gmap pystr Z;
  defs : gmap pystr pystr;
  environment : gmap pystr pystr;
  environment_none : gset pystr;
  stdout : list pystr
}.

Definition set_level (v : list Z) (st : State) : State :=
  mkState v (chunks st) (tokenByToken st) (out st) (wait st) (action st) (curlength st) (secondtime st) (argStack st) (par st) (type_table st) (contents st) (args st) (defs st) (environment st) (environment_none st) (stdout st).
Definition set_chunks (v : list Z) (st : State) : State :=
  mkState (level st) v (tokenByToken st) (out st) (wait st) (action st) (curlength st) (secondtime st) (argStack st) (par st) (type_table st) (contents st) (args st) (defs st) (environment st) (environment_none st) (stdout st).
Definition set_tokenByToken (v : list Z) (st : State) : State :=
  mkState (level st) (chunks st) v (out st) (wait st) (action st) (curlength st) (secondtime st) (argStack st) (par st) (type_table st) (contents st) (args st) (defs st) (environment st) (environment_none st) (stdout st).
Definition set_out (v : list record) (st : State) : State :=
  mkState (level st) (chunks st) (tokenByToken st) v (wait st) (action st) (curlength st) (secondtime st) (argStack st) (par st) (type_table st) (contents st) (args st) (defs st) (environment st) (environment_none st) (stdout st).
Definition set_wait (v : list waitv) (st : State) : State :=
  mkState (level st) (chunks st) (tokenByToken st) (out st) v (action st) (curlength st) (secondtime st) (argStack st) (par st) (type_table st) (contents st) (args st) (defs st) (environment st) (environment_none st) (stdout st).
Definition set_action (v : list pystr) (st : State) : State :=
  mkState (level st) (chunks st) (tokenByToken st) (out st) (wait st) v (curlength st) (secondtime st) (argStack st) (par st) (type_table st) (contents st) (args st) (defs st) (environment st) (environment_none st) (stdout st).
Definition set_curlength (v : Z) (st : State) : State :=
  mkState (level st) (chunks st) (tokenByToken st) (out st) (wait st) (action st) v (secondtime st) (argStack st) (par st) (type_table st) (contents st) (args st) (defs st) (environment st) (environment_none st) (stdout st).
Definition set_secondtime (v : Z) (st : State) : State :=
  mkState (level st) (chunks st) (tokenByToken st) (out st) (wait st) (action st) (curlength st) v (argStack st) (par st) (type_table st) (contents st) (args st) (defs st) (environment st) (environment_none st) (stdout st).
Definition set_argStack (v : list pystr) (st : State) : State :=
  mkState (level st) (chunks st) (tokenByToken st) (out st) (wait st) (action st) (curlength st) (secondtime st) v (par st) (type_table st) (contents st) (args st) (defs st) (environment st) (environment_none st) (stdout st).
Definition set_par (v : pystr) (st : State) : State :=
  mkState (level st) (chunks st) (tokenByToken st) (out st) (wait st) (action st) (curlength st) (secondtime st) (argStack st) v (type_table st) (contents st) (args st) (defs st) (environment st) (environment_none st) (stdout st).
Definition set_type_table (v : gmap pystr pystr) (st : State) : State :=
  mkState (level st) (chunks st) (tokenByToken st) (out st) (wait st) (action st) (curlength st) (secondtime st) (argStack st) (par st) v (contents st) (args st) (defs st) (environment st) (environment_none st) (stdout st).
Definition set_contents (v : gmap pystr pystr) (st : State) : State :=
  mkState (level st) (chunks st) (tokenByToken st) (out st) (wait st) (action st) (curlength st) (secondtime st) (argStack st) (par st) (type_table st) v (args st) (defs st) (environment st) (environment_none st) (stdout st).
Definition set_args (v : gmap pystr Z) (st : State) : State :=
  mkState (level st) (chunks st) (tokenByToken st) (out st) (wait st) (action st) (curlength st) (secondtime st) (argStack st) (par st) (type_table st) (contents st) v (defs st) (environment st) (environment_none st) (stdout st).
Definition set_defs (v : gmap pystr pystr) (st : State) : State :=
  mkState (level st) (chunks st) (tokenByToken st) (out st) (wait st) (action st) (curlength st) (secondtime st) (argStack st) (par st) (type_table st) (contents st) (args st) v (environment st) (environment_none st) (stdout st).
Definition set_environment (v : gmap pystr pystr) (st : State) : State :=
  mkState (level st) (chunks st) (tokenByToken st) (out st) (wait st) (action st) (curlength st) (secondtime st) (argStack st) (par st) (type_table st) (contents st) (args st) (defs st) v (environment_none st) (stdout st).
Definition set_environment_none (v : gset pystr) (st : State) : State :=
  mkState (level st) (chunks st) (tokenByToken st) (out st) (wait st) (action st) (curlength st) (secondtime st) (argStack st) (par st) (type_table st) (contents st) (args st) (defs st) (environment st) v (stdout st).
Definition set_stdout (v : list pystr) (st : State) : State :=
  mkState (level st) (chunks st) (tokenByToken st) (out st) (wait st) (action st) (curlength st) (secondtime st) (argStack st) (par st) (type_table st) (contents st) (args st) (defs st) (environment st) (environment_none st) v.

Definition initial_state (tt co : gmap pystr pystr) (ar : gmap pystr Z)
    (de en : gmap pystr pystr) (none : gset pystr) : State :=
  mkState [0] [0] [0] [] [WS []] [[]] 0 0 [] [] tt co ar de en none [].

(** ** Output (output.py) *)

Definition leading (line : pystr) : Z := len line - len (lstrip line).

Definition printrecord (rec : record) (st : State) : State :=
  let lines := split_on NL (rs rec) in
  let lines := rstrip <$> filter (fun line => rstrip line ≠ []) lines in
  match lines with
  | [] => st
  | x :: r =>
      let min_indent := foldl Z.min (leading x) (leading <$> r) in
      let lines :=
        if 0 <? min_indent
        then (fun line => if min_indent <=? len line
                          then slice_from min_indent line else line) <$> lines
        else lines in
      set_stdout (stdout st ++ [join_with NL lines]) st
  end.

(** The closure returned by [exp_sp_maker fr re_val]: its two counters
    [c1], [c2] start at 0 and are threaded through the calls. *)
Definition exp_sp (fr re_val : Z) (c : Z * Z) : pystr * (Z * Z) :=
  let c1 := fst c + 1 in
  let c2 := if re_val <? c1 then 0 else snd c in
  (spaces (c2 + fr + 1), (c1, c2)).

Definition exp_sp_maker : Z * Z := (0, 0).

(** [re.sub(r" ", expander, s)] *)
Definition sub_spaces (fr re_val : Z) (s : pystr) (c : Z * Z) : pystr * (Z * Z) :=
  foldl (fun acc x =>
           if N.eqb x SP
           then let '(r, c') := exp_sp fr re_val (snd acc) in (fst acc ++ r, c')
           else (fst acc ++ [x], snd acc))
        ([], c) s.

(** "Count expandable spaces" *)
Definition count_expandable (recs : list record) : Z :=
  foldl (fun exp r => if rh r =? 0 then exp + count_char SP (rs r) else exp) 0 recs.

(** "Distribute extra space among spaces" *)
Definition expand_records (fr re_val : Z) (recs : list record) : list record :=
  fst (foldl (fun acc r =>
                if rh r =? 0
                then let '(s, c') := sub_spaces fr re_val (rs r) (snd acc) in
                     (fst acc ++ [string2record s false], c')
                else (fst acc ++ [r], snd acc))
             ([], exp_sp_maker) recs).

Definition total_length (recs : list record) : Z :=
  foldl (fun l r => l + get_length r) 0 recs.

Section Output.
Variable cfg : Config.

(** "Justify text if needed": the records [out[0..last]] of total
    length [l]. *)
Definition justify (force : bool) (l : Z) (recs : list record) : list record :=
  if negb force && (l <=? linelength cfg) then
    let extra := linelength cfg - l in
    if (0 <? extra) && negb (opt_ragged cfg) then
      let exp := count_expandable recs in
      if negb (exp =? 0) then
        let re_val := extra mod exp in
        let fr := (extra - re_val) / exp in
        expand_records fr re_val recs
      else recs
    else recs
  else recs.

(** [result = out[0]; for i in range(1, last + 1): result = join_records(result, out[i])] *)
Definition join_all (recs : list record) : M record :=
  match recs with
  | [] => Raise IndexError
  | r :: rest => foldl (fun acc x => a ← acc; join_records a x) (Ok r) rest
  end.

Definition do_print (force : bool) (st : State) : M State :=
  last ← (if 1 <? len (level st)
          then i ← py_get (level st) 1; c ← py_get (chunks st) i; Ok (c - 1)
          else Ok (len (out st) - 1));
  if last <? 0 then Ok st
  else if len (out st) <? last + 1 then Raise IndexError
  else
    let printed := take (Z.to_nat (last + 1)) (out st) in
    let l := total_length printed in
    let printed := justify force l printed in
    result ← join_all printed;
    let st := printrecord result st in
    let st := set_curlength 0 st in
    let st :=
      if last + 1 <? len (out st)
      then set_chunks ((fun c => c - (last + 1)) <$> chunks st)
             (set_out (drop (Z.to_nat (last + 1)) (out st)) st)
      else set_out [] st in
    if 1 <? len (level st)
    then i ← py_get (level st) 1;
         Ok (set_chunks (slice_to 1 (chunks st) ++ slice_from i (chunks st)) st)
    else Ok (set_chunks [0] st).

(** [s.rfind(" ", 0, lenrem)] *)
Definition rfind_space (s : pystr) (lenrem : Z) : Z :=
  foldl (fun found ix => if N.eqb (snd ix) SP then fst ix else found) (-1)
        (zip (range (len s)) (slice_to lenrem s)).

(** The loop "Only break single-line records at spaces". *)
Fixpoint break_at_spaces (fuel : nat) (rec : record) (lenadd lenrem : Z) (st : State)
    : M (record * Z * Z * State) :=
  match fuel with
  | O => OutOfFuel
  | S fuel =>
      if lenrem <? lenadd then
        let idx := rfind_space (rs rec) lenrem in
        if -1 <? idx then
          let p := cut (idx + 1) rec in
          let st := set_out (out st ++ [fst p]) st in
          let st := set_curlength (curlength st + (idx + 1)) st in
          st ← do_print false st;
          break_at_spaces fuel (snd p) (rl (snd p)) (linelength cfg) st
        else Ok (rec, lenadd, lenrem, st)
      else Ok (rec, lenadd, lenrem, st)
  end.

(** The loop "Break remaining content if still too long". *)
Fixpoint break_remaining (fuel : nat) (rec : record) (st : State) : M (record * State) :=
  match fuel with
  | O => OutOfFuel
  | S fuel =>
      if linelength cfg <? get_length rec then
        let p := cut (linelength cfg) rec in
        st ← do_print false (set_out [fst p] st);
        break_remaining fuel (snd p) st
      else Ok (rec, st)
  end.

Definition prepare_cut (fuel : nat) (rec : record) (st : State) : M (record * State) :=
  if negb (len (level st) =? 1) then Ok (rec, st)
  else
    let lenadd := get_length rec in
    let lenrem := linelength cfg - curlength st in
    if lenadd + curlength st <=? linelength cfg then Ok (rec, st)
    else
      '(rec, lenadd, lenrem, st) ←
        (if rh rec <? 2 then break_at_spaces fuel rec lenadd lenrem st
         else Ok (rec, lenadd, lenrem, st));
      '(rec, st) ←
        (if (linelength cfg <? lenadd) && negb (lenrem =? 0) then
           let p := cut lenrem rec in
           let st := set_out (out st ++ [fst p]) st in
           let st := set_curlength (curlength st + lenrem) st in
           st ← do_print false st;
           Ok (snd p, st)
         else Ok (rec, st));
      st ← do_print false st;
      '(rec, st) ← break_remaining fuel rec st;
      Ok (rec, set_curlength 0 st).
End Output.

(** ** The record string

    [str_int n] is [str(n)]; [encode] is the f-string
    ["{h},{l},{b},{sp},{content}"] every record of the program is built
    with, [decode] reads such a string back ([split(",", 4)] and [int]). *)

Definition str_int (n : Z) : pystr := py (NilZero.string_of_int (Z.to_int n)).

Definition encode (r : record) : pystr :=
  str_int (rh r) ++ COMMA :: str_int (rl r) ++ COMMA :: str_int (rb r)
    ++ COMMA :: str_int (rsp r) ++ COMMA :: rs r.

Fixpoint to_string (s : pystr) : option string :=
  match s with
  | [] => Some EmptyString
  | c :: r =>
      if (c <? 256)%N
      then match to_string r with
           | Some t => Some (String (ascii_of_N c) t)
           | None => None
           end
      else None
  end.

(** [int(s)] on the decimal numerals that [str] produces. *)
Definition parse_int (s : pystr) : option Z :=
  match to_string s with
  | Some t =>
      match NilZero.int_of_string t with
      | Some d => if Decimal.int_beq (Z.to_int (Z.of_int d)) d then Some (Z.of_int d) else None
      | None => None
      end
  | None => None
  end.

(** [s.split(",", 1)]: the text before the first comma and the text after it. *)
Fixpoint split_comma (s : pystr) : option (pystr * pystr) :=
  match s with
  | [] => None
  | c :: r =>
      if N.eqb c COMMA then Some ([], r)
      else match split_comma r with
           | Some (a, b) => Some (c :: a, b)
           | None => None
           end
  end.

Definition decode (s : pystr) : option record :=
  match split_comma s with
  | Some (f0, s) =>
    match split_comma s with
    | Some (f1, s) =>
      match split_comma s with
      | Some (f2, s) =>
        match split_comma s with
        | Some (f3, s) =>
            match parse_int f0, parse_int f1, parse_int f2, parse_int f3 with
            | Some h, Some l, Some b, Some sp => Some (mkrec h l b sp s)
            | _, _, _, _ => None
            end
        | None => None
        end
      | None => None
      end
    | None => None
    end
  | None => None
  end.

(** ** The scope stack (stack.py) *)

Definition start (event : waitv) (act : pystr) (st : State) : M State :=
  lv ← py_get (level st) (-1);
  c ← py_get (chunks st) lv;
  cl ← py_get (chunks st) (-1);
  let st :=
    if (c <=? len (out st) - 1) && (cl <=? len (out st) - 1)
    then set_chunks (chunks st ++ [len (out st)]) st
    else st in
  Ok (set_action (action st ++ [act])
        (set_wait (wait st ++ [event])
           (set_tokenByToken (tokenByToken st ++ [0])
              (set_level (level st ++ [len (chunks st) - 1]) st)))).

Definition assertHave (n : Z) (st : State) : M bool :=
  lv ← py_get (level st) (-1);
  let have := len (chunks st) - lv in
  Ok (n <=? have).

(** [out[a:b] = [x]] *)
Definition assign_slice {A} (a b : Z) (x : A) (l : list A) : list A :=
  let i := clamp (len l) a in
  let j := clamp (len l) b in
  take i l ++ x :: drop (max i j) l.

Definition collapseOne (n : Z) (st : State) : M State :=
  if len (chunks st) <=? n then Ok st
  else
    last ← (if n =? len (chunks st) - 1 then Ok (len (out st) - 1)
            else c ← py_get (chunks st) (n + 1); Ok (c - 1));
    start_idx ← py_get (chunks st) n;
    if last <=? start_idx then Ok st
    else
      first ← py_get (out st) start_idx;
      result ← foldl (fun acc i => a ← acc; x ← py_get (out st) i; join_records a x)
                     (Ok first) (range2 (start_idx + 1) (last + 1));
      Ok (set_out (assign_slice start_idx (last + 1) result (out st)) st).

Definition collapse (n : Z) (st : State) : M State :=
  lv ← py_get (level st) (-1);
  let have := len (chunks st) - lv in
  let n := if have <? n then have else n in
  if 0 <? n then
    st ← foldl (fun acc i => st ← acc; collapseOne (len (chunks st) - 1 - i) st)
               (Ok st) (range n);
    foldl (fun acc i =>
             st ← acc;
             c ← py_get (chunks st) (len (chunks st) - n);
             cs ← py_set (chunks st) (len (chunks st) - i) (c + n - i);
             Ok (set_chunks cs st))
          (Ok st) (range2 1 n)
  else Ok st.

Definition collapseAll (st : State) : M State :=
  lv ← py_get (level st) (-1);
  collapse (len (chunks st) - lv) st.

Definition trim_end (idx : Z) (st : State) : M State :=
  if (len (out st) =? 0) || (idx <? 0) || (len (out st) <=? idx) then Ok st
  else
    r ← py_get (out st) idx;
    if rh r =? 0 then
      o ← py_set (out st) idx (string2record (rstrip (rs r)) false);
      Ok (set_out o st)
    else Ok st.

Definition trim_beg (idx : Z) (st : State) : M State :=
  if (len (out st) =? 0) || (idx <? 0) || (len (out st) <=? idx) then Ok st
  else
    r ← py_get (out st) idx;
    if rh r =? 0 then
      o ← py_set (out st) idx (string2record (lstrip (rs r)) false);
      Ok (set_out o st)
    else Ok st.

Definition trim_one (n : Z) (st : State) : M State :=
  c ← py_get (chunks st) n;
  st ← trim_beg c st;
  if n =? len (chunks st) - 1 then trim_end (len (out st) - 1) st
  else c ← py_get (chunks st) (n + 1); trim_end (c - 1) st.

Definition trim (n : Z) (st : State) : M State :=
  foldl (fun acc i => st ← acc; trim_one i st) (Ok st)
        (range2 (len (chunks st) - n) (len (chunks st))).

Definition pop_frame (st : State) : M State :=
  lv ← py_pop (level st);
  ac ← py_pop (action st);
  tb ← py_pop (tokenByToken st);
  wt ← py_pop (wait st);
  Ok (set_wait wt (set_tokenByToken tb (set_action ac (set_level lv st)))).

Definition finish_ignore (event : waitv) (st : State) : M State :=
  if len (level st) <=? 1 then Ok st
  else
    lv ← py_get (level st) (-1);
    c ← py_get (chunks st) lv;
    pop_frame (set_out (slice_to c (out st)) st).

Definition uncommit (st : State) : M (record * State) :=
  match out st with
  | [] => Ok (empty, st)
  | _ =>
      rec ← py_get (out st) (-1);
      let st := if len (level st) =? 1
                then set_curlength (curlength st - get_length rec) st else st in
      o ← py_set (out st) (-1) empty;
      Ok (rec, set_out o st)
  end.

(** [state.tokenByToken[-1] = 1] *)
Definition set_tokenByToken_last (v : Z) (st : State) : M State :=
  tb ← py_set (tokenByToken st) (-1) v;
  Ok (set_tokenByToken tb st).

(** [state.wait[-1] = w] and [state.action[-1] = a] *)
Definition set_wait_last (w : waitv) (st : State) : M State :=
  wt ← py_set (wait st) (-1) w;
  Ok (set_wait wt st).

Definition set_action_last (a : pystr) (st : State) : M State :=
  ac ← py_set (action st) (-1) a;
  Ok (set_action ac st).

(** [state.out[i] = rec] *)
Definition set_out_at (i : Z) (rec : record) (st : State) : M State :=
  o ← py_set (out st) i rec;
  Ok (set_out o st).

(** [state.chunks.pop(); state.out.pop()] *)
Definition pop_chunk_and_out (st : State) : M State :=
  cs ← py_pop (chunks st);
  o ← py_pop (out st);
  Ok (set_out o (set_chunks cs st)).

(** ** Small matchers for the regular expressions of the handlers *)

Definition is_letter (c : char) : bool :=
  ((65 <=? c) && (c <=? 90) || (97 <=? c) && (c <=? 122))%N.

Definition is_digit (c : char) : bool := ((48 <=? c) && (c <=? 57))%N.

Fixpoint strip_prefix (p s : pystr) : option pystr :=
  match p, s with
  | [], _ => Some s
  | a :: p', b :: s' => if N.eqb a b then strip_prefix p' s' else None
  | _ :: _, [] => None
  end.

(** The longest prefix of characters satisfying [f], and the rest. *)
Fixpoint span_while (f : char -> bool) (s : pystr) : pystr * pystr :=
  match s with
  | x :: r => if f x then let '(a, b) := span_while f r in (x :: a, b) else ([], s)
  | [] => ([], [])
  end.

(** [re.match(r"\s*" + c, s)] for a literal [c]: the text after the match. *)
Definition after_ws_lit (lit s : pystr) : option pystr := strip_prefix lit (lstrip s).

(** [re.match(r"\s*\\begin\s*\{name\}", s)]: the text after the match. *)
Definition after_begin_env (name s : pystr) : option pystr :=
  match strip_prefix (py "\begin") (lstrip s) with
  | Some r => strip_prefix (py "{" ++ name ++ py "}") (lstrip r)
  | None => None
  end.

(** [re.match(r"^\\([a-zA-Z]+)", s)]: the letters of the command name. *)
Definition command_name (s : pystr) : option pystr :=
  match s with
  | c :: r =>
      if N.eqb c BACKSLASH then
        match fst (span_while is_letter r) with
        | [] => None
        | name => Some name
        end
      else None
  | [] => None
  end.

(** Commands after which [f_fraction] adds no space. *)
Definition no_space_cmds : list pystr :=
  py <$> ["right"; "end"; "bigr"; "Bigr"; "biggr"; "Biggr";
          "cdot"; "cdots"; "times"; "div"; "pm"; "mp";
          "cap"; "cup"; "wedge"; "vee"; "oplus"; "otimes"; "ominus"]%string.

(** [s[-1:]] *)
Definition last_char (s : pystr) : pystr := slice_from (-1) s.

(** ** Builders and commands (math_ops.py, commands.py)

    [commit], [finish] and [callsub] call one another and the builders;
    the builders are written over the three of them, and the recursion
    is closed below with a bound on the depth of calls. *)

Section Handlers.
Variable cfg : Config.
Variable fuel : nat.
Variable commit : record -> State -> M State.
Variable finish : waitv -> bool -> State -> M State.
Variable callsub : pystr -> State -> M State.

Definition puts (s : pystr) (no_expand : bool) (st : State) : M State :=
  commit (string2record s no_expand) st.

(** [if not stack.assertHave(n): stack.finish("", True); return] *)
Definition require (n : Z) (st : State) (k : State -> M State) : M State :=
  assertHave n st ≫= λ ok : bool,
  if ok then k st else finish (WS []) true st.

(** *** math_ops.py *)

Definition f_subscript (st : State) : M State :=
  st ← set_wait_last (WI 2) st;
  st ← set_action_last (py "f_subSuper") st;
  match after_ws_lit (py "^") (par st), after_begin_env (py "Sp") (par st) with
  | None, None => commit empty st
  | _, _ =>
      let p := match after_ws_lit (py "^") (par st) with Some r => r | None => par st end in
      let p := match after_begin_env (py "Sp") p with
               | Some r => py "\begin{matrix}" ++ r
               | None => p
               end in
      Ok (set_par p st)
  end.

Definition f_superscript (st : State) : M State :=
  st ← set_wait_last (WI 2) st;
  st ← set_action_last (py "f_superSub") st;
  match after_ws_lit (py "_") (par st), after_begin_env (py "Sb") (par st) with
  | None, None => commit empty st
  | _, _ =>
      let p := match after_ws_lit (py "_") (par st) with Some r => r | None => par st end in
      let p := match after_begin_env (py "Sb") p with
               | Some r => py "\begin{matrix}" ++ r
               | None => p
               end in
      Ok (set_par p st)
  end.

Definition sup_sub (p1_off p2_off : Z) (st : State) : M State :=
  let p1 := len (out st) - 1 - p1_off in
  let p2 := len (out st) - 1 - p2_off in
  r1 ← py_get (out st) p1;
  r2 ← py_get (out st) p2;
  let h1 := if rh r1 =? 0 then 1 else rh r1 in
  let h2 := if rh r2 =? 0 then 1 else rh r2 in
  let l1 := rl r1 in
  let l2 := rl r2 in
  let str1 := rs r1 in
  let str2 := rs r2 in
  if (l1 =? 0) && (l2 =? 0) then finish (WI 2) true st
  else
    let l := Z.max l1 l2 in
    st ← pop_chunk_and_out st;
    let res :=
      if l1 =? 0 then mkrec (h2 + 1) l 0 0 (NL :: str2)
      else if l2 =? 0 then mkrec (h1 + 1) l h1 0 (str1 ++ [NL])
      else mkrec (h1 + h2 + 1) l h1 0 (str1 ++ NL :: NL :: str2) in
    st ← set_out_at (-1) res st;
    let result_h := if rh res =? 0 then 1 else rh res in
    st ← (if (1 <? result_h) && negb (l2 =? 0) && (len (level st) <=? 3) then
            let result_l := rl res in
            let lines :=
              pad_lines result_h
                (if is_empty_str (rs res) then replicate (Z.to_nat result_h) []
                 else split_on NL (rs res)) in
            let lines := (fun line => ljust result_l line ++ [SP]) <$> lines in
            set_out_at (-1) (mkrec result_h (result_l + 1) (rb res) 0 (join_with NL lines)) st
          else Ok st);
    finish (WI 2) true st.

Definition f_subSuper (st : State) : M State :=
  st ← trim 2 st;
  st ← collapse 2 st;
  require 2 st (sup_sub 0 1).

Definition f_superSub (st : State) : M State :=
  st ← trim 2 st;
  st ← collapse 2 st;
  require 2 st (sup_sub 1 0).

(** "Add leading space if preceded by content" *)
Definition fraction_leading_space (result : record) (st : State) : M record :=
  frac_group_start ←
    (match level st with
     | [] => Ok 0%Z
     | _ => lv ← py_get (level st) (-1); py_get (chunks st) lv
     end);
  let check_idx := frac_group_start - 1 in
  if (0 <=? check_idx) && (check_idx <? len (out st)) then
    prev ← py_get (out st) check_idx;
    let prev_s := rs prev in
    let prev_l := rl prev in
    if (0 <? prev_l) && negb (is_empty_str prev_s) && negb (endswith (py " ") prev_s) then
      match last_char (rstrip prev_s) with
      | [c] => if has_char c (py "+-=(<[{") then Ok result
               else join_records (string2record (py " ") false) result
      | _ => Ok result
      end
    else Ok result
  else Ok result.

(** "Add trailing space if followed by certain content"; the Unicode
    letter test is modelled on ASCII only. *)
Definition fraction_trailing_space (result : record) (st : State) : M record :=
  match lstrip (par st) with
  | [] => Ok result
  | c :: _ as next_content =>
      (if N.eqb c BACKSLASH then
           match command_name next_content with
           | Some cmd_name => Ok (negb (bool_decide (cmd_name ∈ no_space_cmds)))
           | None => Ok false
           end
         else if has_char c (py "+-=)>]}^_,;:\ ") then Ok false
         else if (c <? 128)%N then Ok (is_letter c || has_char c (py "([<"))
         else Unmodelled) ≫= λ add_trailing_space : bool,
      if add_trailing_space
      then join_records result (string2record (py " ") false)
      else Ok result
  end.

Definition f_fraction (st : State) : M State :=
  st ← trim 2 st;
  st ← collapse 2 st;
  require 2 st (fun st =>
    numer ← py_get (out st) (-2);
    denom ← py_get (out st) (-1);
    let l1 := get_length numer in
    let l2 := get_length denom in
    let length := Z.max l1 l2 in
    let numer_centered := center length numer in
    let denom_centered := center length denom in
    let line_rec := string2record (rep DASH length) false in
    let result := vStack (vStack numer_centered line_rec) denom_centered in
    let numer_h := get_height numer_centered in
    let result := setbaseline result numer_h in
    result ← fraction_leading_space result st;
    result ← fraction_trailing_space result st;
    st ← set_out_at (-2) result st;
    st ← pop_chunk_and_out st;
    finish (WI 2) true st).

Definition f_radical (st : State) : M State :=
  st ← trim 1 st;
  st ← collapse 1 st;
  require 1 st (fun st =>
    r ← py_get (out st) (-1);
    let h := if rh r =? 0 then 1 else rh r in
    let l := rl r in
    let b := rb r in
    let lines := pad_lines h (if is_empty_str (rs r) then [[]] else split_on NL (rs r)) in
    top ← Ok (py " " ++ U 9484 ++ rep DASH l ++ U 9488);
    rows ← foldl (fun acc i =>
                    rows ← acc;
                    line ← py_get lines i;
                    let line_padded := ljust l line in
                    if i =? h - 1
                    then Ok (rows ++ [U 10189 ++ U 9474 ++ line_padded ++ py " "])
                    else Ok (rows ++ [py " " ++ U 9474 ++ line_padded ++ py " "]))
                 (Ok [top]) (range h);
    st ← set_out_at (-1) (mkrec (h + 1) (l + 3) (b + 1) 0 (join_with NL rows)) st;
    finish (WI 1) true st).

Definition f_overline (st : State) : M State :=
  st ← trim 1 st;
  st ← collapse 1 st;
  require 1 st (fun st =>
    r ← py_get (out st) (-1);
    let l := rl r in
    let b := rb r in
    st ← set_out_at (-1) (vStack (string2record (rep 95%N l) false) r) st;
    r ← py_get (out st) (-1);
    st ← set_out_at (-1) (setbaseline r (b + 1)) st;
    finish (WI 1) true st).

Definition f_underline (st : State) : M State :=
  st ← trim 1 st;
  st ← collapse 1 st;
  require 1 st (fun st =>
    r ← py_get (out st) (-1);
    let l := rl r in
    let b := rb r in
    st ← set_out_at (-1) (vStack r (string2record (rep 8254%N l) false)) st;
    r ← py_get (out st) (-1);
    st ← set_out_at (-1) (setbaseline r b) st;
    finish (WI 1) true st).

(** [rec_or_str.startswith(("0,", "1,", ..., "9,"))] *)
Definition looks_like_record (s : pystr) : bool :=
  match s with
  | d :: c :: _ => is_digit d && N.eqb c COMMA
  | _ => false
  end.

Definition f_putover (rec_or_str : record) (no_finish : bool) (st : State) : M State :=
  let rec := if negb (looks_like_record (encode rec_or_str))
             then string2record (encode rec_or_str) false
             else rec_or_str in
  st ← trim 1 st;
  st ← collapse 1 st;
  require 1 st (fun st =>
    r ← py_get (out st) (-1);
    let l1 := rl r in
    let b := rb r in
    let l2 := get_length rec in
    let length := Z.max l1 l2 in
    let b1 := if rh rec =? 0 then 1 else rh rec in
    let b := b + (b1 + 1) in
    st ← set_out_at (-1) (vStack (center length rec) (center length r)) st;
    r ← py_get (out st) (-1);
    st ← set_out_at (-1) (setbaseline r b) st;
    if no_finish then Ok st else finish (WI 1) true st).

Definition f_putunder (rec : record) (st : State) : M State :=
  st ← trim 1 st;
  st ← collapse 1 st;
  require 1 st (fun st =>
    r ← py_get (out st) (-1);
    let l1 := rl r in
    let b := rb r in
    let l2 := get_length rec in
    let length := Z.max l1 l2 in
    st ← set_out_at (-1) (vStack (center length r) (center length rec)) st;
    r ← py_get (out st) (-1);
    st ← set_out_at (-1) (setbaseline r b) st;
    finish (WI 1) true st).

Definition f_putover_string (s : pystr) (st : State) : M State :=
  f_putover (string2record s false) false st.

Definition f_widehat (st : State) : M State :=
  st ← trim 1 st;
  st ← collapse 1 st;
  r ← py_get (out st) (-1);
  let l := get_length r in
  if l <=? 1 then f_putover (string2record (py "^") false) false st
  else f_putover (string2record (py "/" ++ rep 126%N (l - 2) ++ py "\") false) false st.

Definition f_widetilde (st : State) : M State :=
  st ← trim 1 st;
  st ← collapse 1 st;
  r ← py_get (out st) (-1);
  let l := get_length r in
  if l <=? 1 then f_putover (string2record (py "~") false) false st
  else if l <=? 3 then f_putover (string2record (py "/\/") false) false st
  else
    let l1 := l / 2 - 1 in
    f_putover (string2record (py "/" ++ rep 126%N l1 ++ py "\" ++ rep 95%N (l - 3 - l1)
                                ++ py "/") false) false st.

(** [delims.split(";")] must give exactly two parts. *)
Definition split_pair (s : pystr) : M (pystr * pystr) :=
  match split_on 59%N s with
  | [l; r] => Ok (l, r)
  | _ => Raise ValueError
  end.

Definition f_putpar (delims : pystr) (st : State) : M State :=
  st ← trim 1 st;
  '(l, r) ← split_pair delims;
  st ← collapse 1 st;
  require 1 st (fun st =>
    x ← py_get (out st) (-1);
    inner ← join_records x (string2record r false);
    res ← join_records (string2record l false) inner;
    st ← set_out_at (-1) res st;
    finish (WI 1) true st).

Definition f_buildrel (st : State) : M State :=
  st ← trim 3 st;
  st ← collapse 3 st;
  assertHave 3 st ≫= λ ok : bool,
  if ok then
    rec ← py_get (out st) (-3);
    x ← py_get (out st) (-1);
    st ← set_out_at (-3) x st;
    let st := set_chunks (slice_to (-2) (chunks st)) st in
    let st := set_out (slice_to (-2) (out st)) st in
    st ← f_putover rec true st;
    finish (WI 3) true st
  else finish (WS []) true st.

Definition f_literal_no_length (st : State) : M State :=
  st ← collapse 1 st;
  require 1 st (fun st =>
    r ← py_get (out st) (-1);
    st ← set_out_at (-1) (record_forcelength r 0) st;
    finish (WI 1) true st).

Definition f_arrow (tips : pystr) (st : State) : M State :=
  '(l, r) ← split_pair tips;
  st ← trim 2 st;
  st ← collapse 2 st;
  require 2 st (fun st =>
    a ← py_get (out st) (-2);
    b ← py_get (out st) (-1);
    let length := Z.max (get_length a) (get_length b) in
    let arrow := string2record (py " " ++ l ++ rep 45%N (length + 1) ++ r ++ py " ") false in
    st ← set_out_at (-2)
           (vStack (vStack (center (length + 4) a) arrow) (center (length + 4) b)) st;
    st ← pop_chunk_and_out st;
    finish (WI 2) true st).

Definition f_arrow_v (tips : pystr) (st : State) : M State :=
  '(l, r) ← split_pair tips;
  st ← trim 2 st;
  st ← collapse 2 st;
  require 2 st (fun st =>
    x ← py_get (out st) (-2);
    y ← py_get (out st) (-1);
    let b1 := rb x in
    let b2 := rb y in
    let b := Z.max b1 b2 in
    res ← join_records x y;
    let h := if rh res =? 0 then 1 else rh res in
    let bb := b + 1 in
    st ← set_out_at (-2) (setbaseline (vStack (vputs (spaces (b - b1 + 1)) 0) x) bb) st;
    st ← set_out_at (-1) (setbaseline (vStack (vputs (spaces (b - b2 + 1)) 0) y) bb) st;
    x ← py_get (out st) (-2);
    y ← py_get (out st) (-1);
    mid ← join_records x (vputs (l ++ rep 124%N (h + 1) ++ r) (b + 1));
    res ← join_records mid y;
    st ← set_out_at (-2) res st;
    st ← pop_chunk_and_out st;
    finish (WI 2) true st).

Definition f_choose (st : State) : M State :=
  st ← trim 2 st;
  st ← collapse 2 st;
  require 2 st (fun st =>
    a ← py_get (out st) (-2);
    b ← py_get (out st) (-1);
    let length := Z.max (get_length a) (get_length b) in
    st ← set_out_at (-1)
           (vStack (vStack (center length a) (string2record (spaces length) false))
                   (center length b)) st;
    let st := set_chunks (chunks st ++ [len (out st)]) st in
    let st := set_out (out st ++ [empty]) st in
    st ← set_out_at (-3) (string2record (py "(") false) st;
    st ← set_out_at (-1) (string2record (py ")") false) st;
    mid ← py_get (out st) (-2);
    let h := rh mid in
    let b := rb mid in
    o ← makehigh_inplace (out st) (-3) h b 0 1;
    o ← makehigh_inplace o (-1) h b 1 0;
    finish (WI 2) true (set_out o st)).

(** *** The tokenizer (config.py) *)

(** [usualtokenclass]: any character but [\ $ { } ^ _ ~ & @]. *)
Definition usual (c : char) : bool := negb (has_char c (py "\${}^_~&@")).

(** [re.match(tokenpattern, s)] when [single], and
    [re.match(multitokenpattern, s)] otherwise: the token and the rest. *)
Definition next_token (single : bool) (s : pystr) : option (pystr * pystr) :=
  match s with
  | [] => None
  | c :: r =>
      if usual c then
        if single then Some ([c], r) else Some (span_while usual s)
      else if N.eqb c BACKSLASH then
        match r with
        | d :: r' =>
            if is_letter d then
              let '(letters, r1) := span_while is_letter r in
              let '(ws, r2) := span_while is_space r1 in
              Some (c :: letters ++ ws, r2)
            else Some ([c; d], r')
        | [] => Some ([c], [])
        end
      else if N.eqb c 36%N then
        match r with
        | d :: r' => if N.eqb d 36%N then Some ([c; d], r') else Some ([c], r)
        | [] => Some ([c], [])
        end
      else Some ([c], r)
  end.

(** *** commands.py *)

(** The loop "Read until matching }" of [get_balanced]. *)
Fixpoint read_group (n : nat) (lev : Z) (result p : pystr) : M (pystr * pystr) :=
  match n with
  | O => OutOfFuel
  | S n =>
      if (lev =? 0) || is_empty_str p then Ok (result, p)
      else
        let m :=
          match p with
          | c :: r =>
              if N.eqb c BACKSLASH then
                match r with
                | d :: r' => if N.eqb d NL then None else Some ([c; d], r')
                | [] => None
                end
              else Some ([c], r)
          | [] => None
          end in
        match m with
        | None => Ok (result, p)
        | Some (ch, p) =>
            let lev := if bool_decide (ch = py "{") then lev + 1
                       else if bool_decide (ch = py "}") then lev - 1 else lev in
            read_group n lev (if lev =? 0 then result else result ++ ch) p
        end
  end.

Definition get_balanced (st : State) : M (option pystr * State) :=
  match next_token true (par st) with
  | None => Ok (None, st)
  | Some (tok, p) =>
      if negb (bool_decide (tok = py "{")) then Ok (Some tok, set_par p st)
      else
        '(result, p) ← read_group (S (length p)) 1 [] p;
        Ok (Some result, set_par p st)
  end.

Definition open_curly (st : State) : M State := start (WS (py "}")) [] st.

Definition close_curly (st : State) : M State := finish (WS (py "}")) false st.

(** [len(state.wait) > 1 and state.wait[-1] == w] *)
Definition waiting_for (w : pystr) (st : State) : bool :=
  (1 <? len (wait st)) && bool_decide (last (wait st) = Some (WS w)).

Definition dollar (st : State) : M State :=
  if waiting_for (py "$") st then
    st ← trim_end (len (out st) - 1) st;
    finish (WS (py "$")) false st
  else
    st ← start (WS (py "$")) [] st;
    Ok (set_par (lstrip (par st)) st).

(** [while len(state.level) > 1: finish("")] *)
Fixpoint close_all (n : nat) (st : State) : M State :=
  match n with
  | O => OutOfFuel
  | S n =>
      if 1 <? len (level st) then st ← finish (WS []) false st; close_all n st
      else Ok st
  end.

Definition finishBuffer (st : State) : M State :=
  st ← close_all fuel st;
  do_print cfg true st.

Definition ddollar (st : State) : M State :=
  st ← (if waiting_for (py "$$") st then
          st ← trim_end (len (out st) - 1) st;
          st ← finish (WS (py "$$")) false st;
          if 0 <? len (out st) then
            let st := set_chunks [0] st in
            st ← trim 1 st;
            st ← collapse 1 st;
            r ← py_get (out st) 0;
            let st := printrecord (center (linelength cfg) r) st in
            Ok (set_curlength 0
                  (set_out [] (set_tokenByToken [0] (set_chunks [0] (set_level [0] st)))))
          else Ok st
        else
          st ← finishBuffer st;
          start (WS (py "$$")) [] st);
  Ok (set_par (lstrip (par st)) st).

(** The paragraph indentation ["1,5,0,0,     "]. *)
Definition indent_record : record := mkrec 1 5 0 0 (py "     ").

#[local] Instance record_eq_dec : EqDecision record.
Proof. solve_decision. Defined.

(** After [^\s*\\noindent]: the run of white space that follows, and
    the text after it. *)
Definition after_noindent (s : pystr) : option (pystr * pystr) :=
  match strip_prefix (py "\noindent") (lstrip s) with
  | Some r => Some (span_while is_space r)
  | None => None
  end.

(** [re.sub(r"^\s*\\noindent\s*(\s+|([^a-zA-Z\s])|$)", r"\2", s)] when
    the pattern matches, which is also when
    [^\s*\\noindent(\s+|[^a-zA-Z\s]|$)] matches. *)
Definition drop_noindent (s : pystr) : option pystr :=
  match after_noindent s with
  | Some (ws, []) => Some []
  | Some (ws, c :: r) =>
      if negb (is_letter c) || negb (is_empty_str ws) then Some (c :: r) else None
  | None => None
  end.

(** [re.sub(r"^\s*\\noindent\s*([^a-zA-Z\s]|$)", r"\1", s)] when the
    pattern matches. *)
Definition drop_noindent_strict (s : pystr) : option pystr :=
  match after_noindent s with
  | Some (ws, []) => Some []
  | Some (ws, c :: r) => if negb (is_letter c) then Some (c :: r) else None
  | None => None
  end.

Definition do_par (st : State) : M State :=
  st ← finishBuffer st;
  match drop_noindent (par st) with
  | None => commit indent_record st
  | Some p => Ok (set_par p st)
  end.

Definition noindent (st : State) : M State :=
  if (len (out st) =? 1) && (len (chunks st) =? 1)
     && bool_decide (out st !! 0%nat = Some indent_record)
  then pop_chunk_and_out st
  else puts (py "\noindent") false st.

Definition item (st : State) : M State :=
  st ← finishBuffer st;
  commit (mkrec 1 11 0 0 (py "     (@)   ")) st.

Definition left (st : State) : M State :=
  st ← start (WI 3) (py "f_leftright") st;
  st ← set_tokenByToken_last 1 st;
  st ← start (WI 1) (py "f_left") st;
  set_tokenByToken_last 1 st.

Definition f_left (st : State) : M State :=
  st ← trim 1 st;
  st ← collapse 1 st;
  st ← finish (WI 1) false st;
  start (WS (py "LeftRight")) [] st.

Definition right (st : State) : M State :=
  st ← finish (WS (py "LeftRight")) true st;
  st ← trim 1 st;
  collapse 1 st.

Definition f_leftright (st : State) : M State :=
  st ← trim 1 st;
  st ← collapse 1 st;
  assertHave 3 st ≫= λ ok : bool,
  if negb ok then Ok st
  else
    mid ← py_get (out st) (-2);
    let h := if rh mid =? 0 then 1 else rh mid in
    let b := rb mid in
    lrec ← py_get (out st) (-3);
    rrec ← py_get (out st) (-1);
    '(st, h, b) ←
      (if bool_decide (rs lrec = py "[") && bool_decide (rs rrec = py "]") && (h <? 3) then
         let content_str := rs mid in
         let l := rl mid in
         let sp := rsp mid in
         let lines :=
           if h <=? 1 then
             [spaces l; (if is_empty_str content_str then spaces l else ljust l content_str);
              spaces l]
           else
             let old_lines :=
               pad_lines 2 (if is_empty_str content_str then [[]; []]
                            else split_on NL content_str) in
             [ljust l (old_lines !!! 0%nat); ljust l (old_lines !!! 1%nat); spaces l] in
         st ← set_out_at (-2) (mkrec 3 l 1 sp (join_with NL lines)) st;
         Ok (st, 3, 1)
       else Ok (st, h, b));
    o ← makehigh_inplace (out st) (-3) h b 0 1;
    o ← makehigh_inplace o (-1) h b 1 0;
    finish (WI 3) false (set_out o st).

Definition beg_lr (delims : pystr) (st : State) : M State :=
  st ← start (WI 1) (py "f_leftright_go;" ++ delims) st;
  set_tokenByToken_last 1 st.

Definition f_leftright_go (delims : pystr) (st : State) : M State :=
  st ← trim 1 st;
  st ← collapse 1 st;
  '(l, r) ← split_pair delims;
  assertHave 1 st ≫= λ ok : bool,
  if negb ok then Ok st
  else
    rec ← py_get (out st) (-1);
    o ← py_pop (out st);
    st ← set_wait_last (WS (py "junk")) (set_out o st);
    st ← start (WI 3) (py "f_leftright") st;
    st ← puts l false st;
    st ← commit rec st;
    st ← puts r false st;
    finish (WS (py "junk")) false st.

(** The common body of [over] and [choose]. *)
Definition over_like (name builder : pystr) (st : State) : M State :=
  if waiting_for (py "}") st then
    prevw ← py_get (wait st) (-2);
    wt ← py_set (wait st) (-2) (WS (py "junk"));
    st ← finish (WS (py "}")) true (set_wait wt st);
    st ← collapse 1 st;
    require 1 st (fun st =>
      rec ← py_get (out st) (-1);
      o ← py_pop (out st);
      cs ← py_pop (chunks st);
      st ← start (WI 2) builder (set_chunks cs (set_out o st));
      wt ← py_set (wait st) (-2) prevw;
      st ← start (WS (py "}")) [] (set_wait wt st);
      st ← commit rec st;
      st ← finish (WS (py "}")) true st;
      start (WS (py "}")) [] st)
  else puts name false st.

Definition over (st : State) : M State := over_like (py "\over") (py "f_fraction") st.
Definition choose (st : State) : M State := over_like (py "\choose") (py "f_choose") st.

Definition f_discard (st : State) : M State :=
  w ← py_get (wait st) (-1);
  finish_ignore w st.

Definition f_get1 (st : State) : M pystr :=
  c ← py_get (chunks st) (-1);
  if negb (len (out st) - 1 =? c) then Ok []
  else r ← py_get (out st) (-1); Ok (rs r).

(** The match of def_exp on [s]: a run of characters other than a
    backslash and an opening brace, or of a backslash and one character
    each, up to an opening brace; the run and the text from the brace on. *)
Fixpoint before_brace (n : nat) (s : pystr) : option (pystr * pystr) :=
  match n with
  | O => None
  | S n =>
      match s with
      | [] => None
      | c :: r =>
          if N.eqb c 123%N then Some ([], s)
          else if N.eqb c BACKSLASH then
            match r with
            | d :: r' =>
                if N.eqb d NL then None
                else match before_brace n r' with
                     | Some (a, b) => Some (c :: d :: a, b)
                     | None => None
                     end
            | [] => None
            end
          else match before_brace n r with
               | Some (a, b) => Some (c :: a, b)
               | None => None
               end
      end
  end.

(** [re.search(r"\\([egx]?def|fi)([^a-zA-Z]|$)", s)] *)
Definition ends_word (r : pystr) : bool :=
  match r with
  | [] => true
  | c :: r' => negb (is_letter c) || (N.eqb c NL && is_empty_str r')
  end.

Definition def_or_fi_here (s : pystr) : bool :=
  match strip_prefix [BACKSLASH] s with
  | Some r =>
      let after (w : string) (t : pystr) :=
        match strip_prefix (py w) t with Some u => ends_word u | None => false end in
      after "def"%string r || after "edef"%string r || after "gdef"%string r
      || after "xdef"%string r || after "fi"%string r
  | None => false
  end.

Fixpoint has_def_or_fi (s : pystr) : bool :=
  def_or_fi_here s || match s with [] => false | _ :: r => has_def_or_fi r end.

(** [re.search(f"({macro})$", s)] for a text without newline: the text
    ends with a backslash and one character that is no letter, or with
    a backslash, letters and white space. *)
Definition ends_with_macro (s : pystr) : bool :=
  match reverse s with
  | c :: b :: _ =>
      (N.eqb b BACKSLASH && negb (is_letter c))
      || match span_while is_letter (reverse (rstrip s)) with
         | (_ :: _, b' :: _) => N.eqb b' BACKSLASH
         | _ => false
         end
  | _ => false
  end.

(** The parameter specification of a definition: a sequence of a hash
    sign and one digit each (ASCII digits). *)
Fixpoint is_param_spec (s : pystr) : bool :=
  match s with
  | [] => true
  | h :: d :: r => N.eqb h 35%N && is_digit d && is_param_spec r
  | _ => false
  end.

Definition define (arg definition : pystr) (st : State) : M State :=
  match arg with
  | c :: _ =>
      if usual c then Ok st
      else
        match next_token true arg with
        | None => Ok st
        | Some (act, rest) =>
            if existsb (fun x => (127 <? x)%N || N.eqb x NL) rest then Unmodelled
            else if negb (is_param_spec rest) then Ok st
            else
              Ok (set_type_table (<[act := py "def"]> (type_table st))
                    (set_defs (<[act := definition]> (defs st))
                       (set_args (<[act := len rest / 2]> (args st)) st)))
        end
  | [] => Ok st
  end.

Definition def_exp (st : State) : M State :=
  match before_brace (S (length (par st))) (par st) with
  | None => Ok st
  | Some (arg, p) =>
      '(definition, st) ← get_balanced (set_par p st);
      match definition with
      | None => Ok st
      | Some definition =>
          if has_char NL definition then Unmodelled
          else if has_char 64%N (arg ++ definition) then Ok st
          else if has_def_or_fi definition then Ok st
          else
            let definition :=
              if ends_with_macro definition then definition ++ py " " else definition in
            define arg definition st
      end
  end.

Definition f_begin_end (is_end : bool) (st : State) : M State :=
  st ← collapse 1 st;
  assertHave 1 st ≫= λ ok : bool,
  if negb ok then finish (WS []) false st
  else
    rec ← f_get1 st;
    st ← finish_ignore (WI 1) st;
    let arg := strip rec in
    if bool_decide (arg ∈ environment_none st) then Ok st
    else
      match environment st !! arg with
      | Some env =>
          let handlers :=
            match split_comma env with
            | Some (b, e) => if is_end then e else b
            | None => if is_end then [] else env
            end in
          foldl (fun acc sub =>
                   st ← acc;
                   if is_empty_str sub then Ok st else callsub sub st)
                (Ok st) (split_on 58%N handlers)
      | None =>
          puts ((if is_end then py "\end{" else py "\begin{") ++ arg ++ py "}") false st
      end.

Definition f_begin (st : State) : M State := f_begin_end false st.
Definition f_end (st : State) : M State := f_begin_end true st.

Definition subscript (st : State) : M State :=
  st ← start (WI 1) (py "f_subscript") st;
  set_tokenByToken_last 1 st.

Definition superscript (st : State) : M State :=
  st ← start (WI 1) (py "f_superscript") st;
  set_tokenByToken_last 1 st.

(** *** stack.py: [callsub], [commit], [finish] *)

(** [sub.split(";", 1)] *)
Fixpoint split_semicolon (s : pystr) : option (pystr * pystr) :=
  match s with
  | [] => None
  | c :: r =>
      if N.eqb c 59%N then Some ([], r)
      else match split_semicolon r with
           | Some (a, b) => Some (c :: a, b)
           | None => None
           end
  end.

Definition is_name (s : pystr) (n : string) : bool := bool_decide (s = py n).

(** The handlers of commands.py and math_ops.py that this embedding
    covers, by name; a name outside of it ends the run as [Unmodelled]. *)
Definition callsub_body (sub : pystr) (st : State) : M State :=
  match split_semicolon sub with
  | Some (name, arg) =>
      if is_name name "f_putover_string" then f_putover_string arg st
      else if is_name name "f_putpar" then f_putpar arg st
      else if is_name name "f_arrow" then f_arrow arg st
      else if is_name name "f_arrow_v" then f_arrow_v arg st
      else if is_name name "f_leftright_go" then f_leftright_go arg st
      else if is_name name "beg_lr" then beg_lr arg st
      else Unmodelled
  | None =>
      if is_name sub "f_subscript" then f_subscript st
      else if is_name sub "f_superscript" then f_superscript st
      else if is_name sub "f_subSuper" then f_subSuper st
      else if is_name sub "f_superSub" then f_superSub st
      else if is_name sub "f_fraction" then f_fraction st
      else if is_name sub "f_choose" then f_choose st
      else if is_name sub "f_radical" then f_radical st
      else if is_name sub "f_overline" then f_overline st
      else if is_name sub "f_underline" then f_underline st
      else if is_name sub "f_widehat" then f_widehat st
      else if is_name sub "f_widetilde" then f_widetilde st
      else if is_name sub "f_buildrel" then f_buildrel st
      else if is_name sub "f_literal_no_length" then f_literal_no_length st
      else if is_name sub "f_left" then f_left st
      else if is_name sub "f_leftright" then f_leftright st
      else if is_name sub "f_begin" then f_begin st
      else if is_name sub "f_end" then f_end st
      else if is_name sub "f_discard" then f_discard st
      else if is_name sub "ddollar" then ddollar st
      else if is_name sub "subscript" then subscript st
      else if is_name sub "superscript" then superscript st
      else Unmodelled
  end.

(** "Check if current group is waiting for a specific number of items" *)
Definition trigger (st : State) : M State :=
  if 1 <? len (level st) then
    w ← py_get (wait st) (len (level st) - 1);
    lv ← py_get (level st) (len (level st) - 1);
    if bool_decide (w = WI (len (chunks st) - lv)) then
      sub ← py_get (action st) (len (level st) - 1);
      if is_empty_str sub then finish w false st else callsub sub st
    else Ok st
  else Ok st.

Definition commit_body (rec : record) (st : State) : M State :=
  '(rec, st) ←
    (if len (level st) =? 1 then
       let l := get_length rec in
       '(rec, st) ← (if linelength cfg <? curlength st + l
                     then prepare_cut cfg fuel rec st else Ok (rec, st));
       let l := get_length rec in
       Ok (rec, set_curlength (curlength st + l) st)
     else Ok (rec, st));
  let st := set_out (out st ++ [rec]) st in
  cl ← py_get (chunks st) (-1);
  let st := if negb (len (out st) - 1 =? cl)
            then set_chunks (chunks st ++ [len (out st) - 1]) st else st in
  trigger st.

Definition finish_body (event : waitv) (force_one_group : bool) (st : State) : M State :=
  if len (level st) <=? 1 then Ok st
  else
    lv ← py_get (level st) (-1);
    c ← py_get (chunks st) lv;
    let st := if len (out st) <? c then set_out (out st ++ [empty]) st else st in
    let st := set_chunks (slice_to (lv + 1) (chunks st)) st in
    '(t, st) ←
      (if (len (level st) =? 2) && negb force_one_group then
         cl ← py_get (chunks st) (-1);
         Ok (slice_from cl (out st), set_out (slice_to cl (out st)) st)
       else Ok ([], st));
    st ← pop_frame st;
    st ← (if (len (level st) =? 1) && negb force_one_group
          then foldl (fun acc rec => st ← acc; commit rec st) (Ok st) t
          else Ok st);
    if 1 <? len (level st) then
      w ← py_get (wait st) (-1);
      lv ← py_get (level st) (-1);
      if bool_decide (w = WI (len (chunks st) - lv)) then
        sub ← py_get (action st) (-1);
        if is_empty_str sub then finish w false st else callsub sub st
      else Ok st
    else Ok st.

End Handlers.

(** Closing the recursion: [fuel] bounds the depth of the calls among
    [commit], [finish] and [callsub]. *)
Fixpoint commit (cfg : Config) (fuel : nat) (rec : record) (st : State) : M State :=
  match fuel with
  | O => OutOfFuel
  | S n => commit_body cfg n (finish cfg n) (callsub cfg n) rec st
  end
with finish (cfg : Config) (fuel : nat) (event : waitv) (force_one_group : bool)
    (st : State) : M State :=
  match fuel with
  | O => OutOfFuel
  | S n => finish_body (commit cfg n) (finish cfg n) (callsub cfg n) event force_one_group st
  end
with callsub (cfg : Config) (fuel : nat) (sub : pystr) (st : State) : M State :=
  match fuel with
  | O => OutOfFuel
  | S n => callsub_body cfg n (commit cfg n) (finish cfg n) (callsub cfg n) sub st
  end.

(** ** The parser (parser.py) *)

Definition is_some {A} (o : option A) : bool :=
  match o with Some _ => true | None => false end.

(** [s[s.find(p):]] when [p] occurs in [s]. *)
Fixpoint from_first (p s : pystr) : option pystr :=
  if startswith p s then Some s
  else match s with
       | [] => None
       | _ :: r => from_first p r
       end.

(** The substitution of [\par ] for a newline, white space and a
    newline. *)
Fixpoint blank_lines_to_par (n : nat) (s : pystr) : pystr :=
  match n with
  | O => s
  | S n =>
      match s with
      | [] => []
      | c :: r =>
          if N.eqb c NL then
            let '(ws, rest) := span_while is_space r in
            match from_first [NL] (reverse ws) with
            | Some tail =>
                (* [tail] is the reversed white space up to its last newline *)
                py "\par " ++ drop (length tail) ws ++ blank_lines_to_par n rest
            | None => c :: blank_lines_to_par n r
            end
          else c :: blank_lines_to_par n r
      end
  end.

(** [re.sub(r"\s+", " ", s)] *)
Fixpoint squeeze_spaces (s : pystr) : pystr :=
  match s with
  | [] => []
  | c :: r =>
      if is_space c then
        match r with
        | d :: _ => if is_space d then squeeze_spaces r else SP :: squeeze_spaces r
        | [] => [SP]
        end
      else c :: squeeze_spaces r
  end.

(** The removal of the white space that follows a double dollar. *)
Fixpoint trim_after_ddollar (n : nat) (s : pystr) : pystr :=
  match n with
  | O => s
  | S n =>
      match s with
      | a :: b :: c :: r =>
          if N.eqb a 36%N && N.eqb b 36%N && is_space c
          then a :: b :: trim_after_ddollar n (lstrip r)
          else a :: trim_after_ddollar n (b :: c :: r)
      | _ => s
      end
  end.

(** The removal of a final [\par] and the white space after it. *)
Definition drop_final_par (s : pystr) : pystr :=
  if endswith (py "\par") (rstrip s)
  then take (length (rstrip s) - 4)%nat (rstrip s)
  else s.

(** "Preprocessing: Clean up the input"; the removal of comments is not
    modelled, a text with a percent sign is outside of the embedding. *)
Definition preprocess (p : pystr) : M pystr :=
  if has_char 37%N p then Unmodelled
  else
    let p := blank_lines_to_par (length p) p in
    let p := squeeze_spaces p in
    let p := rstrip p in
    let p := trim_after_ddollar (length p) p in
    Ok (drop_final_par p).

(** [any(w in ("$", "$$", "}", "LeftRight", "endCell") for w in state.wait)] *)
Definition math_wait (w : waitv) : bool :=
  match w with
  | WS s => bool_decide (s ∈ py <$> ["$"; "$$"; "}"; "LeftRight"; "endCell"]%string)
  | WI _ => false
  end.

Definition in_math (st : State) : bool :=
  (1 <? len (wait st)) && existsb math_wait (wait st).

(** The start of the match of the pattern for a differential, a [d]
    and one of [txyzrsuvw] with nothing but white space after it. *)
Definition diff_start (piece : pystr) : option Z :=
  match reverse (rstrip piece) with
  | v :: d :: _ =>
      if N.eqb d 100%N && has_char v (py "txyzrsuvw")
      then Some (len (rstrip piece) - 2) else None
  | _ => None
  end.

(** [int(s)] for a run of ASCII digits. *)
Definition digits_value (s : pystr) : option Z :=
  match s with
  | [] => None
  | _ =>
      if forallb is_digit s
      then Some (foldl (fun acc c => 10 * acc + (Z.of_N c - 48)) 0 s)
      else None
  end.

(** The substitution of [ti] for the parameter [i] in a macro body:
    [re.sub(f"([^\\\\#])#{i}", f"\\1{ti}", sub)]. *)
Fixpoint subst_inner (n : nat) (param ti sub : pystr) : pystr :=
  match n with
  | O => sub
  | S n =>
      match sub with
      | [] => []
      | c :: r =>
          if negb (N.eqb c BACKSLASH) && negb (N.eqb c 35%N) then
            match strip_prefix param r with
            | Some r' => c :: ti ++ subst_inner n param ti r'
            | None => c :: subst_inner n param ti r
            end
          else c :: subst_inner n param ti r
      end
  end.

(** [re.sub(f"^#{i}", ti, sub)] *)
Definition subst_head (param ti sub : pystr) : pystr :=
  match strip_prefix param sub with
  | Some r => ti ++ r
  | None => sub
  end.

Definition subst_param (i : Z) (ti sub : pystr) : M pystr :=
  if has_char BACKSLASH ti then Unmodelled
  else
    let param := 35%N :: str_int i in
    Ok (subst_head param ti (subst_inner (length sub) param ti sub)).

Section Parser.
Variable cfg : Config.
Variable fuel : nat.

Definition Puts (s : pystr) (no_expand : bool) (st : State) : M State :=
  puts (commit cfg fuel) s no_expand st.

Definition FinishBuffer (st : State) : M State :=
  finishBuffer cfg fuel (finish cfg fuel) st.

(** "Handle regular text (usual token class)" *)
Definition usual_token (piece : pystr) (st : State) : M State :=
  if in_math st then
    match piece with
    | c :: _ =>
        if has_char c (py "+-=") then Puts (SP :: piece) false st
        else
          match diff_start piece with
          | Some start =>
              if 0 <? start then
                let before := slice_to start piece in
                let diff := slice_from start piece in
                st ← Puts before false st;
                if negb (endswith (py "/") before) then Puts (SP :: diff) false st
                else Puts diff false st
              else Puts piece false st
          | None =>
              if startswith (py "(") piece && (0 <? len (out st)) then
                last_out ← py_get (out st) (-1);
                let first_line :=
                  match split_on NL (rstrip (encode last_out)) with
                  | x :: _ => x
                  | [] => []
                  end in
                match last_char first_line with
                | [c] => if has_char c (py "+-=*/(<[{") then Puts piece false st
                         else Puts (SP :: piece) false st
                | _ => Puts piece false st
                end
              else Puts piece false st
          end
    | [] => Puts piece false st
    end
  else Puts piece false st.

(** The handlers of commands.py that the type "sub" reaches by name. *)
Definition call_command (sub : pystr) (st : State) : M State :=
  let commit := commit cfg fuel in
  let finish := finish cfg fuel in
  if is_name sub "open_curly" then open_curly st
  else if is_name sub "close_curly" then close_curly finish st
  else if is_name sub "dollar" then dollar finish st
  else if is_name sub "ddollar" then ddollar cfg fuel finish st
  else if is_name sub "do_par" then do_par cfg fuel commit finish st
  else if is_name sub "noindent" then noindent commit st
  else if is_name sub "item" then item cfg fuel commit finish st
  else if is_name sub "left" then left st
  else if is_name sub "right" then right finish st
  else if is_name sub "over" then over commit finish st
  else if is_name sub "choose" then choose commit finish st
  else if is_name sub "def_exp" then def_exp st
  else Unmodelled.

(** The state of the loop of [paragraph]: the local [defcount], the
    interpreter state, and [expanded], which is no variable of the
    program: it counts the executions of [state.par = sub + state.par]. *)
Record Loop := mkLoop { defcount : Z; expanded : Z; lstate : State }.

Inductive step := Continue (l : Loop) | Break (l : Loop).

(** "User-defined macro expansion" *)
Definition expand_macro (pure : pystr) (l : Loop) : M step :=
  let st := lstate l in
  let defcount := defcount l + 1 in
  if maxdef cfg <? defcount then Ok (Break (mkLoop defcount (expanded l) st))
  else
    let nargs := default 0 (args st !! pure) in
    '(t, st) ← foldl (fun acc _ =>
                        '(t, st) ← acc;
                        '(a, st) ← get_balanced st;
                        Ok (t ++ [default [] a], st))
                     (Ok ([[]], st)) (range2 1 (nargs + 1));
    let sub := default [] (defs st !! pure) in
    sub ← (if negb (nargs =? 0) then
             foldl (fun acc k =>
                      sub ← acc;
                      let i := nargs - k in
                      ti ← py_get t i;
                      subst_param i ti sub)
                   (Ok sub) (range nargs)
           else Ok sub);
    Ok (Continue (mkLoop defcount (expanded l + 1) (set_par (sub ++ par st) st))).

(** "Handle active tokens (commands and special characters)", apart
    from the type "def". *)
Definition active_token (piece pure typ : pystr) (st : State) : M State :=
  let content := default [] (contents st !! pure) in
  if is_name typ "sub" then
    match split_semicolon content with
    | Some _ => Unmodelled
    | None => if is_empty_str content then Ok st else call_command content st
    end
  else if startswith (py "sub") typ && is_some (digits_value (drop 3 typ)) then
    let n := default 0 (digits_value (drop 3 typ)) in
    st ← start (WI n) (py "f_" ++ content) st;
    set_tokenByToken_last 1 st
  else if startswith (py "get") typ then
    match digits_value (drop 3 typ) with
    | Some n =>
        st ← start (WI (n + 1)) [] st;
        st ← Puts piece false st;
        set_tokenByToken_last 1 st
    | None => Raise ValueError
    end
  else if startswith (py "discard") typ then
    match digits_value (drop 7 typ) with
    | Some n =>
        st ← start (WI n) (py "f_discard") st;
        set_tokenByToken_last 1 st
    | None => Raise ValueError
    end
  else if is_name typ "record" then
    match contents st !! pure with
    | Some c => match decode c with
                | Some r => commit cfg fuel r st
                | None => Unmodelled
                end
    | None => commit cfg fuel empty st
    end
  else if is_name typ "self" then Puts (drop 1 pure) false st
  else if is_name typ "trig" || is_name typ "fancy" || is_name typ "bold"
          || is_name typ "italic" || is_name typ "double" then Unmodelled
  else if is_name typ "par_self" then
    st ← FinishBuffer st;
    st ← commit cfg fuel indent_record st;
    Puts (pure ++ (if is_some (command_name pure) then py " " else [])) false st
  else if is_name typ "self_par" then
    st ← Puts (pure ++ (if is_some (command_name pure) then py " " else [])) false st;
    st ← FinishBuffer st;
    match drop_noindent (par st) with
    | None => commit cfg fuel indent_record st
    | Some p => Ok (set_par p st)
    end
  else if is_name typ "string" then
    let content :=
      if startswith (py " ") content
      then match last (out st) with
           | Some r => if endswith (py " ") (rs r) then drop 1 content else content
           | None => content
           end
      else content in
    Puts content true st
  else if is_name typ "nothing" then Ok st
  else Puts piece false st.

(** One turn of the "Main Parsing Loop", entered with a text that is not
    empty. *)
Definition loop_body (l : Loop) : M step :=
  let st := lstate l in
  tbt ← py_get (tokenByToken st) (-1);
  let st := if tbt =? 0 then set_par (lstrip (par st)) st else st in
  match next_token (negb (tbt =? 0)) (par st) with
  | None => Ok (Break (mkLoop (defcount l) (expanded l) st))
  | Some (piece, rest) =>
      let st := set_par rest st in
      r ← (if match piece with c :: _ => usual c | [] => false end then
             st ← usual_token piece st;
             Ok (Continue (mkLoop (defcount l) (expanded l) st))
           else
             let pure := rstrip piece in
             match type_table st !! pure with
             | Some typ =>
                 if is_name typ "def"
                 then expand_macro pure (mkLoop (defcount l) (expanded l) st)
                 else st ← active_token piece pure typ st;
                      Ok (Continue (mkLoop (defcount l) (expanded l) st))
             | None =>
                 st ← Puts piece false st;
                 Ok (Continue (mkLoop (defcount l) (expanded l) st))
             end);
      match r with
      | Continue l' => _ ← py_get (tokenByToken (lstate l')) (-1); Ok r
      | Break _ => Ok r
      end
  end.

(** [while state.par: ...]; [n] bounds the number of turns. *)
Fixpoint parse_loop (n : nat) (l : Loop) : M Loop :=
  match n with
  | O => OutOfFuel
  | S n =>
      if is_empty_str (par (lstate l)) then Ok l
      else
        loop_body l ≫= λ r : step,
        match r with
        | Continue l' => parse_loop n l'
        | Break l' => Ok l'
        end
  end.

(** "Add paragraph indentation (5 spaces) unless suppressed" *)
Definition indent (st : State) : M State :=
  if negb (opt_noindent cfg) && negb (is_some (drop_noindent_strict (par st)))
  then commit cfg fuel indent_record st
  else Ok (set_par (default (par st) (drop_noindent_strict (par st))) st).

(** [paragraph(input_text)] up to the end of the loop: the two early
    returns, or the state of the loop when it ends. *)
Inductive parsed := NoInput (st : State) | BlankInput (st : State) | Parsed (l : Loop).

Definition parse (n : nat) (input_text : pystr) (st : State) : M parsed :=
  let st := set_par input_text st in
  if is_empty_str (par st) then Ok (NoInput st)
  else if forallb is_space (par st) then Ok (BlankInput st)
  else
    let st := match from_first (py "\begin{document}") (par st) with
              | Some p => set_par p st
              | None => st
              end in
    let st := if negb (secondtime st =? 0) && negb (opt_by_par cfg)
              then set_stdout (stdout st ++ [[]]) st else st in
    let st := set_secondtime (secondtime st + 1) st in
    p ← preprocess (par st);
    st ← indent (set_par p st);
    l ← parse_loop n (mkLoop 0 0 st);
    Ok (Parsed l).

(** "Flush any remaining output" *)
Definition flush (st : State) : M State :=
  if 0 <? len (out st) then FinishBuffer st else Ok st.

Definition paragraph (n : nat) (input_text : pystr) (st : State) : M (bool * State) :=
  parse n input_text st ≫= λ r : parsed,
  match r with
  | NoInput st => Ok (false, st)
  | BlankInput st => Ok (true, st)
  | Parsed l => st ← flush (lstate l); Ok (true, st)
  end.

End Parser.

(** ** The symbol tables (symbols.py)

    The registry is data; these are the entries of [init_symbols] that
    the runs below look up. *)

Definition table (l : list (string * string)) : gmap pystr pystr :=
  list_to_map ((fun kv => (py (fst kv), py (snd kv))) <$> l).

Definition symbols_type_table : gmap pystr pystr :=
  table [("\sum", "record"); ("\,", "string"); ("\cdot", "string");
         ("\par", "sub"); ("\def", "sub"); ("\item", "sub");
         ("{", "sub"); ("}", "sub"); ("$", "sub"); ("$$", "sub");
         ("\over", "sub"); ("\choose", "sub"); ("\noindent", "sub");
         ("\left", "sub"); ("\right", "sub");
         ("\sqrt", "sub1"); ("\underline", "sub1"); ("\overline", "sub1");
         ("\widetilde", "sub1"); ("\tilde", "sub1"); ("\widehat", "sub1");
         ("\hat", "sub1"); ("\label", "sub1"); ("\begin", "sub1"); ("\end", "sub1");
         ("\frac", "sub2"); ("^", "sub1"); ("_", "sub1"); ("\buildrel", "sub3");
         ("\lim", "self"); ("\relax", "nothing"); ("\hphantom", "discard1")]%string.

Definition symbols_contents : gmap pystr pystr :=
  <[py "\sum" := py "3,3,1,0,__ " ++ NL :: U 10095 ++ py "  " ++ NL :: U 8254 ++ U 8254 ++ py " "]>
  (<[py "\cdot" := py " " ++ U 183 ++ py " "]>
  (table [("\,", " "); ("\par", "do_par"); ("\def", "def_exp"); ("\item", "item");
          ("{", "open_curly"); ("}", "close_curly"); ("$", "dollar"); ("$$", "ddollar");
          ("\over", "over"); ("\choose", "choose"); ("\noindent", "noindent");
          ("\left", "left"); ("\right", "right");
          ("\sqrt", "radical"); ("\underline", "underline"); ("\overline", "overline");
          ("\widetilde", "widetilde"); ("\tilde", "putover_string;~");
          ("\widehat", "widehat"); ("\hat", "putover_string;^");
          ("\label", "putpar;(;)"); ("\begin", "begin"); ("\end", "end");
          ("\frac", "fraction"); ("^", "superscript"); ("_", "subscript");
          ("\buildrel", "buildrel")]%string)).

Definition symbols_environment : gmap pystr pystr :=
  table [("equation", "ddollar,ddollar")]%string.

Definition symbols_environment_none : gset pystr :=
  list_to_set (py <$> ["document"; "split"; "enumerate"]%string).

Definition init_state : State :=
  initial_state symbols_type_table symbols_contents ∅ ∅
    symbols_environment symbols_environment_none.

(** ** Views of a record used in the statements *)

(** The height a combinator works with: [if not h: h = 1]. *)
Definition eff_height (r : record) : Z := if rh r =? 0 then 1 else rh r.

(** The lines of a record as [cut] reads them. *)
Definition rec_lines (r : record) : list pystr :=
  if rh r =? 0 then [rs r]
  else pad_lines (rh r)
         (if is_empty_str (rs r) then replicate (Z.to_nat (rh r)) [] else split_on NL (rs r)).

(** The lines of an operand of [join_records], and the line on its
    baseline. *)
Definition operand_of (r : record) : operand :=
  (lines_of (eff_height r) (rs r), rl r, eff_height r, rb r).

Definition baseline_row (r : record) : pystr :=
  lines_of (eff_height r) (rs r) !!! Z.to_nat (rb r).

(** The height of [join_records a b]. *)
Definition joined_height (a b : record) : Z :=
  Z.max (rb a) (rb b)
  + Z.max (eff_height a - rb a - 1) (eff_height b - rb b - 1) + 1.

(** The invariant of the data model: the baseline is a row of the record
    and no line is longer than the width. *)
Definition well_formed (r : record) : Prop :=
  0 <= rb r < eff_height r /\ 0 <= rl r
  /\ Forall (fun line => len line <= rl r) (lines_of (eff_height r) (rs r)).

(** ** Sample records *)

(** A one-row left angle bracket, a text with an angle glyph, and a
    fraction three rows high. *)
Definition tip_record : record := mkrec 1 1 0 0 [LANGLE].
Definition bra_record : record := string2record (LANGLE :: py "x|") false.
Definition tall_record : record := mkrec 3 1 1 0 (py "a" ++ NL :: DASH :: NL :: py "b").

(** A line of ten columns with three expandable spaces, and a
    configuration with twelve columns and no paragraph indentation. *)
Definition short_line : record := string2record (py "aaa bb cc ") false.
Definition narrow_config : Config := mkConfig 12 400 false true false true.

(** A record of height 0 as [string2record] builds it: its width is the
    length of its text. *)
Definition plain_text (r : record) : Prop := rh r = 0 -> rl r = len (rs r).

(** The fraction of [a+b] over [c]. *)
Definition fraction_record : record :=
  mkrec 3 3 1 0 (py "a+b" ++ NL :: [DASH; DASH; DASH] ++ NL :: py " c ").

(** The default configuration without paragraph indentation. *)
Definition noindent_config : Config := mkConfig 150 400 false true false true.

(** ** States used in the statements *)



(** The state of the interpreter after the text [a ] of a paragraph. *)
Definition after_text : State :=
  set_curlength 7
    (set_chunks [0; 1]
       (set_out [indent_record; string2record (py "a ") false]
          (set_secondtime 1 init_state))).



(** The default configuration with the ceiling [m] on macro expansions. *)
Definition with_maxdef (m : Z) : Config := mkConfig 150 m false true false false.


(** [s.split(",", k)] *)
Fixpoint split_max (k : nat) (s : pystr) : list pystr :=
  match k with
  | O => [s]
  | S k => match split_comma s with
           | Some (a, b) => a :: split_max k b
           | None => [s]
           end
  end.

(** [int(s)]: a numeral as [str] writes it is read back and the empty
    string raises [ValueError]; the other texts that [int] accepts or
    rejects are outside of the embedding. *)
Definition py_int (s : pystr) : M Z :=
  match parse_int s with
  | Some z => Ok z
  | None => if is_empty_str s then Raise ValueError else Unmodelled
  end.

(** The head of [cut], [vStack] and [center]:
    [parts = rec.split(",", 4)], the four [int(parts[i])] and
    [parts[4] if len(parts) > 4 else ""]. *)
Definition read_record (rec : pystr) : M record :=
  let parts := split_max 4 rec in
  h ← (p ← py_get parts 0; py_int p);
  l ← (p ← py_get parts 1; py_int p);
  b ← (p ← py_get parts 2; py_int p);
  sp ← (p ← py_get parts 3; py_int p);
  let s := if 4 <? len parts then parts !!! 4%nat else [] in
  Ok (mkrec h l b sp s).

(** The row of [r] that lies on row [p] of a block in which the rows of
    [r] start at row [top]; the empty string where [r] has no row. *)
Definition row_at (r : record) (top p : Z) : pystr :=
  if (top <=? p) && (p <? top + eff_height r)
  then lines_of (eff_height r) (rs r) !!! Z.to_nat (p - top) else [].

(** A text whose white space is single blanks: every white-space
    character is a blank and is followed by a character that is no
    white space, or by nothing. *)
Fixpoint single_blanks (s : pystr) : bool :=
  match s with
  | [] => true
  | c :: r =>
      (negb (is_space c)
       || (N.eqb c SP && match r with d :: _ => negb (is_space d) | [] => true end))
      && single_blanks r
  end.

(** The glyph of the mirrored bracket. *)
Definition mirror_glyph (c : char) : char :=
  if N.eqb c LANGLE then RANGLE
  else if N.eqb c RANGLE then LANGLE
  else if N.eqb c BIGSOL then BIGREVSOL
  else if N.eqb c BIGREVSOL then BIGSOL
  else c.

(** The braces of [s] are balanced when read from depth [d]: no closing
    brace without an open one before it, and none left open at the end. *)
Fixpoint balanced_from (d : Z) (s : pystr) : bool :=
  match s with
  | [] => d =? 0
  | c :: r =>
      if N.eqb c 123%N then balanced_from (d + 1) r
      else if N.eqb c 125%N then (0 <? d) && balanced_from (d - 1) r
      else balanced_from d r
  end.

(** The chunk boundaries of the groups of records [groups] laid out one
    after the other from position [start] of the buffer. *)
Fixpoint group_starts (start : Z) (groups : list (list record)) : list Z :=
  match groups with
  | [] => []
  | g :: rest => start :: group_starts (start + len g) rest
  end.

(** A record of height 0 without its leading, or trailing, white space. *)
Definition trimmed_beg (r : record) : record :=
  if rh r =? 0 then string2record (lstrip (rs r)) false else r.

Definition trimmed_end (r : record) : record :=
  if rh r =? 0 then string2record (rstrip (rs r)) false else r.

(** The records of a chunk, the first one trimmed at its beginning and
    then the last one at its end. *)
Definition trim_group (g : list record) : list record :=
  let g' := alter trimmed_beg 0%nat g in
  alter trimmed_end (length g' - 1)%nat g'.

(** A character of plain text: a usual character that is no percent
    sign. *)
Definition plain_char (c : char) : bool := usual c && negb (N.eqb c 37%N).

(** The interpreter state before the first paragraph, whatever the
    symbol tables hold. *)
Definition fresh (st : State) : Prop :=
  level st = [0] /\ chunks st = [0] /\ tokenByToken st = [0] /\ out st = []
  /\ wait st = [WS []] /\ curlength st = 0 /\ secondtime st = 0 /\ stdout st = [].

(** * Properties *)

(** ** Lists and strings *)

Lemma len_nonneg {A} (l : list A) : 0 <= len l.
Proof. unfold len. lia. Qed.

Lemma len_app {A} (l k : list A) : len (l ++ k) = len l + len k.
Proof. unfold len. rewrite length_app. lia. Qed.

Lemma len_replicate {A} (n : nat) (x : A) : len (replicate n x) = Z.of_nat n.
Proof. unfold len. by rewrite length_replicate. Qed.

Lemma len_spaces (n : Z) : len (spaces n) = Z.max 0 n.
Proof. unfold spaces, rep. rewrite len_replicate. lia. Qed.

Lemma len_fmap {A B} (f : A -> B) (l : list A) : len (f <$> l) = len l.
Proof. unfold len. by rewrite length_fmap. Qed.

Lemma len_ljust (w : Z) (s : pystr) : len (ljust w s) = Z.max w (len s).
Proof. unfold ljust. rewrite len_app, len_spaces. lia. Qed.

Lemma ljust_id (w : Z) (s : pystr) : w <= len s -> ljust w s = s.
Proof.
  intros H. unfold ljust, spaces, rep.
  replace (Z.to_nat (w - len s)) with 0%nat by lia. apply app_nil_r.
Qed.

(** ** Centering (C8) *)

(** C8. Centering is idempotent: for a target width [w] that is at least
    the width of [r], centering twice is centering once; and a record at
    least as wide as [w] is returned unchanged, never truncated. *)
Theorem center_idempotent_never_truncates (w : Z) (r : record) :
  (rl r <= w -> center w (center w r) = center w r)
  /\ (w <= rl r -> center w r = r).
Proof.
  split.
  - intros _. unfold center at 2 3.
    destruct (w - rl r <=? 0) eqn:E; unfold center.
    + by rewrite E.
    + cbn [rl]. by replace (w - w <=? 0) with true by lia.
  - intros H. unfold center. by replace (w - rl r <=? 0) with true by lia.
Qed.

Lemma center_idempotent_never_truncates_witness :
  let r := string2record (py "c") false in
  (rl r <= 3 /\ center 3 (center 3 r) = center 3 r)
  /\ center 1 r = r
  /\ rs (center 3 r) = py " c ".
Proof.
  cbv zeta. split; [split|split].
  - vm_compute. discriminate.
  - apply (proj1 (center_idempotent_never_truncates 3 _)). vm_compute. discriminate.
  - apply (proj2 (center_idempotent_never_truncates 1 _)). vm_compute. discriminate.
  - reflexivity.
Defined.

(** ** Splitting and joining lines *)

Lemma split_on_cons_sep (c : char) (r : pystr) :
  split_on c (c :: r) = [] :: split_on c r.
Proof. cbn. by rewrite N.eqb_refl. Qed.

Lemma split_on_not_nil (c : char) (s : pystr) : split_on c s ≠ [].
Proof.
  induction s as [|x r IH]; cbn; [done|].
  destruct (N.eqb x c); [done|]. by destruct (split_on c r).
Qed.

Lemma split_on_cons_other (c x : char) (r : pystr) :
  x ≠ c ->
  split_on c (x :: r) =
    match split_on c r with l :: ls => (x :: l) :: ls | [] => [[x]] end.
Proof. intros H%N.eqb_neq. cbn. by rewrite H. Qed.

Lemma split_on_free (c : char) (s : pystr) : Forall (fun l => c ∉ l) (split_on c s).
Proof.
  induction s as [|x r IH].
  - cbn. repeat constructor. set_solver.
  - destruct (decide (x = c)) as [->|Hne].
    + rewrite split_on_cons_sep. constructor; [set_solver|done].
    + rewrite split_on_cons_other by done.
      destruct (split_on c r) as [|l ls].
      * repeat constructor. rewrite elem_of_cons, elem_of_nil. by intros [->|[]].
      * inversion IH as [|? ? Hl Hls]; subst. constructor; [|done].
        rewrite elem_of_cons. by intros [->|?].
Qed.

Lemma split_on_line (c : char) (l : pystr) : c ∉ l -> split_on c l = [l].
Proof.
  induction l as [|x r IH]; intros H; [done|].
  rewrite split_on_cons_other by set_solver.
  rewrite IH by set_solver. done.
Qed.

Lemma split_on_app_sep (c : char) (l r : pystr) :
  c ∉ l -> split_on c (l ++ c :: r) = l :: split_on c r.
Proof.
  induction l as [|x l IH]; intros H.
  - apply split_on_cons_sep.
  - rewrite <- app_comm_cons, split_on_cons_other by set_solver.
    rewrite IH by set_solver. done.
Qed.

Lemma split_join (c : char) (ls : list pystr) :
  ls ≠ [] -> Forall (fun l => c ∉ l) ls -> split_on c (join_with c ls) = ls.
Proof.
  induction ls as [|l ls IH]; [done|]. intros _ H.
  inversion H as [|? ? Hl Hls]; subst.
  destruct ls as [|l' ls].
  - cbn. by apply split_on_line.
  - change (join_with c (l :: l' :: ls)) with (l ++ c :: join_with c (l' :: ls)).
    rewrite split_on_app_sep by done. by rewrite IH.
Qed.

Lemma join_with_nil_inv (c : char) (ls : list pystr) :
  join_with c ls = [] -> ls = [] \/ ls = [[]].
Proof.
  destruct ls as [|l [|l' ls]]; cbn; intros H; auto.
  - subst. auto.
  - by destruct l.
Qed.

Lemma slice_to_free {A} (x : A) (k : Z) (l : list A) : x ∉ l -> x ∉ slice_to k l.
Proof. unfold slice_to. intros H Hin. apply H. by eapply subseteq_take. Qed.

Lemma slice_from_free {A} (x : A) (k : Z) (l : list A) : x ∉ l -> x ∉ slice_from k l.
Proof. unfold slice_from. intros H Hin. apply H. by eapply subseteq_drop. Qed.

Lemma slice_app {A} (k : Z) (l : list A) : slice_to k l ++ slice_from k l = l.
Proof. apply take_drop. Qed.

Lemma len_pad_lines (h : Z) (lines : list pystr) :
  len (pad_lines h lines) = Z.max h (len lines).
Proof. unfold pad_lines. rewrite len_app, len_replicate. lia. Qed.

Lemma pad_lines_id (h : Z) (lines : list pystr) : h <= len lines -> pad_lines h lines = lines.
Proof.
  intros H. unfold pad_lines.
  replace (Z.to_nat (h - len lines)) with 0%nat by lia. apply app_nil_r.
Qed.

Lemma pad_lines_free (c : char) (h : Z) (lines : list pystr) :
  Forall (fun l => c ∉ l) lines -> Forall (fun l => c ∉ l) (pad_lines h lines).
Proof.
  intros H. unfold pad_lines. apply Forall_app. split; [done|].
  apply Forall_replicate. set_solver.
Qed.

(** Reading back the lines that were joined into a content of height [h]. *)
Lemma lines_joined (h : Z) (ls : list pystr) :
  0 < h -> h <= len ls -> Forall (fun l => NL ∉ l) ls ->
  pad_lines h (if is_empty_str (join_with NL ls) then replicate (Z.to_nat h) []
               else split_on NL (join_with NL ls)) = ls.
Proof.
  intros Hh Hlen Hfree.
  assert (ls ≠ []) as Hne. { intros ->. unfold len in Hlen. cbn in Hlen. lia. }
  destruct (join_with NL ls) eqn:E.
  - apply join_with_nil_inv in E as [->| ->]; [done|].
    cbn. unfold len in Hlen. cbn in Hlen.
    replace h with 1 by lia. reflexivity.
  - cbn [is_empty_str]. rewrite <- E, split_join by done. by apply pad_lines_id.
Qed.

(** ** Cutting (C10) *)

Lemma rec_lines_free (r : record) :
  rh r ≠ 0 -> Forall (fun l => NL ∉ l) (rec_lines r).
Proof.
  intros H%Z.eqb_neq. unfold rec_lines. rewrite H.
  apply pad_lines_free. destruct (is_empty_str (rs r)).
  - apply Forall_replicate. set_solver.
  - apply split_on_free.
Qed.

Lemma rec_lines_len (r : record) : 0 < rh r -> rh r <= len (rec_lines r).
Proof.
  intros H. unfold rec_lines. replace (rh r =? 0) with false by lia.
  rewrite len_pad_lines. lia.
Qed.

(** C10. [cut n r] for a record of height at least 0: when [n] exceeds
    the width, the pair of [r] itself and the empty record; otherwise a
    left part of width [n] and a right part of width [rl r - n] with the
    height and baseline of [r], every line of [r] sliced at column [n],
    and the count of expandable spaces 0 in both parts. *)
Theorem cut_spec (n : Z) (r : record) :
  0 <= rh r ->
  (rl r < n -> cut n r = (r, empty))
  /\ (n <= rl r ->
      rl (cut n r).1 = n /\ rl (cut n r).2 = rl r - n
      /\ rsp (cut n r).1 = 0 /\ rsp (cut n r).2 = 0
      /\ rh (cut n r).1 = rh r /\ rh (cut n r).2 = rh r
      /\ rb (cut n r).1 = rb r /\ rb (cut n r).2 = rb r
      /\ rec_lines (cut n r).1 = slice_to n <$> rec_lines r
      /\ rec_lines (cut n r).2 = slice_from n <$> rec_lines r).
Proof.
  intros Hh. split; intros Hn; unfold cut.
  - by replace (rl r - n <? 0) with true by lia.
  - replace (rl r - n <? 0) with false by lia.
    destruct (rh r =? 0) eqn:E; cbn [negb fst snd rl rsp rh rb].
    + repeat split; unfold rec_lines; cbn [rh rs]; by rewrite ?E.
    + assert (pad_lines (rh r)
                (if is_empty_str (rs r) then replicate (Z.to_nat (rh r)) []
                 else split_on NL (rs r)) = rec_lines r) as ->
        by (unfold rec_lines; by rewrite E).
      repeat split; unfold rec_lines at 1; cbn [rh rs]; rewrite E;
        (apply lines_joined; [lia| |]).
      * rewrite len_fmap. apply rec_lines_len. lia.
      * apply Forall_fmap. eapply Forall_impl; [apply rec_lines_free; lia|].
        intros l Hl. by apply slice_to_free.
      * rewrite len_fmap. apply rec_lines_len. lia.
      * apply Forall_fmap. eapply Forall_impl; [apply rec_lines_free; lia|].
        intros l Hl. by apply slice_from_free.
Qed.

Lemma cut_spec_witness :
  let r := mkrec 2 3 1 1 (py "a b" ++ NL :: py "cde") in
  0 <= rh r
  /\ cut 4 r = (r, empty)
  /\ rec_lines (cut 2 r).1 = [py "a "; py "cd"]
  /\ rec_lines (cut 2 r).2 = [py "b"; py "e"]
  /\ rsp (cut 2 r).1 = 0 /\ rsp (cut 2 r).2 = 0.
Proof.
  cbv zeta.
  pose proof (cut_spec 4 (mkrec 2 3 1 1 (py "a b" ++ NL :: py "cde"))) as H4.
  pose proof (cut_spec 2 (mkrec 2 3 1 1 (py "a b" ++ NL :: py "cde"))) as H2.
  cbn [rh rl] in H4, H2.
  destruct (H4 ltac:(lia)) as [Hover _].
  destruct (H2 ltac:(lia)) as [_ Hcut].
  destruct (Hcut ltac:(lia)) as (_ & _ & Hs1 & Hs2 & _ & _ & _ & _ & Hl1 & Hl2).
  split; [cbn; lia|]. split; [apply Hover; lia|].
  split; [rewrite Hl1; reflexivity|]. split; [rewrite Hl2; reflexivity|].
  split; assumption.
Defined.

(** ** Angle brackets (C7) *)

Lemma foldl_max_ge (a : Z) (l : list Z) : a <= foldl Z.max a l.
Proof. revert a. induction l as [|x l IH]; intros a; cbn; [lia|]. specialize (IH (Z.max a x)). lia. Qed.

Lemma foldl_max_elem (a x : Z) (l : list Z) : x ∈ l -> x <= foldl Z.max a l.
Proof.
  revert a. induction l as [|y l IH]; intros a Hin.
  - by apply elem_of_nil in Hin.
  - apply elem_of_cons in Hin as [->|Hin]; cbn.
    + pose proof (foldl_max_ge (Z.max a y) l). lia.
    + by apply IH.
Qed.

Lemma foldl_max_le (a m : Z) (l : list Z) :
  a <= m -> Forall (fun x => x <= m) l -> foldl Z.max a l <= m.
Proof.
  revert a. induction l as [|y l IH]; intros a Ha Hl; cbn; [done|].
  inversion Hl; subst. apply IH; [lia|done].
Qed.

(** The longest line decides [max_w]. *)
Lemma max_len_or_1_eq (lines : list pystr) (m : Z) :
  Forall (fun l => len l <= m) lines ->
  (exists l, l ∈ lines /\ len l = m) ->
  max_len_or_1 lines = m.
Proof.
  intros Hall (l & Hin & Hl). destruct lines as [|x r]; [by apply elem_of_nil in Hin|].
  unfold max_len_or_1. inversion Hall as [|? ? Hx Hr]; subst.
  apply Z.le_antisymm.
  - apply foldl_max_le; [done|]. by apply Forall_fmap.
  - apply elem_of_cons in Hin as [->|Hin].
    + apply foldl_max_ge.
    + apply foldl_max_elem. apply list_elem_of_fmap. by exists l.
Qed.



Lemma elem_of_range (n r : Z) : r ∈ range n <-> 0 <= r < n.
Proof.
  unfold range. rewrite list_elem_of_fmap. split.
  - intros (k & -> & Hk). apply elem_of_seq in Hk. lia.
  - intros H. exists (Z.to_nat r). split; [lia|]. apply elem_of_seq. lia.
Qed.

Lemma len_angle_line (bracket_type : pystr) (width b row : Z) :
  len (angle_line bracket_type width b row) =
    (if bool_decide (bracket_type = py "<") then Z.abs (row - b)
     else Z.max 0 (width - 1 - Z.abs (row - b))) + 1.
Proof.
  unfold angle_line. case_bool_decide; rewrite len_app, len_spaces; unfold len; cbn; lia.
Qed.

Lemma angle_width (bracket_type : pystr) (h b : Z) :
  1 <= h -> 0 <= b < h ->
  (regenerate_angle_bracket bracket_type h b).2 = Z.max b (h - b - 1) + 1.
Proof.
  intros Hh Hb. unfold regenerate_angle_bracket. cbn [snd].
  apply max_len_or_1_eq.
  - apply Forall_fmap, Forall_forall. intros r Hr%elem_of_range. cbn.
    rewrite len_angle_line. case_bool_decide; lia.
  - destruct (decide (bracket_type = py "<")) as [Hlt|Hgt].
    + (* the longest row of a left bracket is the first or the last *)
      exists (angle_line bracket_type (Z.max b (h - b - 1) + 1) b
                (if b <? h - b - 1 then h - 1 else 0)).
      split.
      * apply list_elem_of_fmap. eexists; split; [done|]. apply elem_of_range.
        destruct (b <? h - b - 1) eqn:E; lia.
      * rewrite len_angle_line, bool_decide_eq_true_2 by done.
        destruct (b <? h - b - 1) eqn:E; lia.
    + (* the longest row of a right bracket is the row of the tip *)
      exists (angle_line bracket_type (Z.max b (h - b - 1) + 1) b b).
      split.
      * apply list_elem_of_fmap. eexists; split; [done|]. apply elem_of_range. lia.
      * rewrite len_angle_line, bool_decide_eq_false_2 by done. lia.
Qed.



(** ** Horizontal join (C2, C5) *)

Lemma bind_Ok {A B} (x : A) (f : A -> M B) : (Ok x ≫= f) = f x.
Proof. reflexivity. Qed.

Lemma py_get_ok {A} (l : list A) (i : Z) :
  0 <= i < len l -> exists x, py_get l i = Ok x /\ l !! Z.to_nat i = Some x.
Proof.
  intros H. unfold py_get, py_pos.
  replace (i <? 0) with false by lia. replace (i <? len l) with true by lia.
  destruct (l !! Z.to_nat i) as [x|] eqn:E; [by exists x|].
  apply lookup_ge_None in E. unfold len in H. lia.
Qed.

Lemma py_set_ok {A} (l : list A) (i : Z) (x : A) :
  0 <= i < len l -> py_set l i x = Ok (<[Z.to_nat i := x]> l).
Proof.
  intros H. unfold py_set, py_pos.
  replace (i <? 0) with false by lia. by replace (i <? len l) with true by lia.
Qed.

(** The block that regenerates an angle bracket returns, and never
    makes the operand narrower. *)
Lemma extend_angle_ok (h b : Z) (lines : list pystr) (l h1 b1 : Z) :
  0 <= b1 ->
  exists lines' l' h1' b1',
    extend_angle h b (lines, l, h1, b1) = Ok (lines', l', h1', b1')
    /\ l <= l'
    /\ (regenerated h (lines, l, h1, b1) = false ->
        (lines', l', h1', b1') = (lines, l, h1, b1))
    /\ (regenerated h (lines, l, h1, b1) = true -> b1' = b).
Proof.
  intros Hb1. unfold extend_angle. cbv beta iota.
  destruct (regenerated h (lines, l, h1, b1)) eqn:E.
  - destruct (b1 <? len lines) eqn:E1;
      [destruct (py_get_ok lines b1) as (x & -> & _); [lia|]|];
      rewrite bind_Ok;
      match goal with
      | |- context [regenerate_angle_bracket ?t h b] =>
          destruct (regenerate_angle_bracket t h b) as [new_lines new_w]
      end;
      (do 4 eexists; split; [reflexivity|]; split; [|split; [done|done]]);
      destruct (new_w <? l) eqn:E2; lia.
  - do 4 eexists. split; [reflexivity|]. split; [lia|]. split; [done|done].
Qed.

Lemma fill_baseline_ok (b2 l2 : Z) (lines2 : list pystr) :
  0 <= b2 ->
  exists lines2', fill_baseline b2 l2 lines2 = Ok lines2'
    /\ length lines2' = length lines2
    /\ (b2 < len lines2 ->
        lines2' !!! Z.to_nat b2 =
          (if len (lines2 !!! Z.to_nat b2) =? 0 then spaces l2 else lines2 !!! Z.to_nat b2))
    /\ (forall P : pystr -> Prop, P (spaces l2) -> Forall P lines2 -> Forall P lines2').
Proof.
  intros Hb. unfold fill_baseline. destruct (b2 <? len lines2) eqn:E.
  - destruct (py_get_ok lines2 b2) as (x & -> & Hx); [lia|]. rewrite bind_Ok.
    rewrite (list_lookup_total_correct _ _ _ Hx).
    destruct (len x =? 0) eqn:E0.
    + rewrite py_set_ok by lia. eexists. split; [reflexivity|].
      split; [by rewrite length_insert|]. split.
      * intros _. apply list_lookup_total_insert_eq. unfold len in E. lia.
      * intros P Hsp HP. by apply Forall_insert.
    + eexists. split; [reflexivity|]. split; [done|]. split; [|done].
      intros _. first [done | by apply list_lookup_total_correct].
  - eexists. split; [reflexivity|]. split; [done|]. split; [lia|done].
Qed.

Lemma join_records_unfold (a b : record) :
  0 <= rb a -> 0 <= rb b ->
  exists lines1 l1 h1 b1 lines2 l2 h2 b2 lines2',
    extend_angle (joined_height a b) (Z.max (rb a) (rb b)) (operand_of a)
      = Ok (lines1, l1, h1, b1)
    /\ extend_angle (joined_height a b) (Z.max (rb a) (rb b)) (operand_of b)
      = Ok (lines2, l2, h2, b2)
    /\ fill_baseline b2 l2 lines2 = Ok lines2'
    /\ join_records a b =
       Ok (mkrec (joined_height a b) (l1 + l2) (Z.max (rb a) (rb b)) (rsp a + rsp b)
             (join_with NL
                (place_right (joined_height a b) (Z.max (rb a) (rb b)) b2 l1 h2 lines2'
                   (pad_left l1
                      (place_left (joined_height a b) (Z.max (rb a) (rb b)) b1 l1 h1 lines1
                         (replicate (Z.to_nat (joined_height a b)) [])))))).
Proof.
  intros Ha Hb.
  destruct (extend_angle_ok (joined_height a b) (Z.max (rb a) (rb b))
              (lines_of (eff_height a) (rs a)) (rl a) (eff_height a) (rb a) Ha)
    as (lines1 & l1 & h1 & b1 & E1 & _ & _ & Hb1).
  destruct (extend_angle_ok (joined_height a b) (Z.max (rb a) (rb b))
              (lines_of (eff_height b) (rs b)) (rl b) (eff_height b) (rb b) Hb)
    as (lines2 & l2 & h2 & b2 & E2 & _ & Hsame & Hb2).
  assert (0 <= b2) as Hb2'.
  { destruct (regenerated (joined_height a b)
                (lines_of (eff_height b) (rs b), rl b, eff_height b, rb b)) eqn:E.
    - rewrite Hb2 by done. lia.
    - specialize (Hsame eq_refl). by inversion Hsame. }
  destruct (fill_baseline_ok b2 l2 lines2 Hb2') as (lines2' & E3 & _).
  exists lines1, l1, h1, b1, lines2, l2, h2, b2, lines2'.
  split; [done|]. split; [done|]. split; [done|].
  change (join_records a b) with
    ('(lines1, l1, h1, b1) ←
       extend_angle (joined_height a b) (Z.max (rb a) (rb b)) (operand_of a);
     '(lines2, l2, h2, b2) ←
       extend_angle (joined_height a b) (Z.max (rb a) (rb b)) (operand_of b);
     lines2' ← fill_baseline b2 l2 lines2;
     Ok (mkrec (joined_height a b) (l1 + l2) (Z.max (rb a) (rb b)) (rsp a + rsp b)
           (join_with NL
              (place_right (joined_height a b) (Z.max (rb a) (rb b)) b2 l1 h2 lines2'
                 (pad_left l1
                    (place_left (joined_height a b) (Z.max (rb a) (rb b)) b1 l1 h1 lines1
                       (replicate (Z.to_nat (joined_height a b)) []))))))).
  unfold operand_of. rewrite E1, bind_Ok. cbv beta iota.
  rewrite E2, bind_Ok. cbv beta iota. rewrite E3, bind_Ok. reflexivity.
Qed.

(** C2, as the code has it. [join_records a b] returns for records with
    baselines of at least 0; the count of expandable spaces of the result
    is the sum of the counts of the operands; its width is at least the
    sum of their widths, and is that sum whenever neither operand is
    regenerated as an angle bracket. *)
Theorem join_records_width (a b : record) :
  0 <= rb a -> 0 <= rb b ->
  exists r, join_records a b = Ok r
    /\ rsp r = rsp a + rsp b
    /\ rl a + rl b <= rl r
    /\ (regenerated (joined_height a b) (operand_of a) = false ->
        regenerated (joined_height a b) (operand_of b) = false ->
        rl r = rl a + rl b).
Proof.
  intros Ha Hb.
  destruct (join_records_unfold a b Ha Hb)
    as (lines1 & l1 & h1 & b1 & lines2 & l2 & h2 & b2 & lines2' & E1 & E2 & _ & ->).
  eexists. split; [reflexivity|]. cbn [rsp rl]. split; [done|].
  destruct (extend_angle_ok (joined_height a b) (Z.max (rb a) (rb b))
              (lines_of (eff_height a) (rs a)) (rl a) (eff_height a) (rb a) Ha)
    as (? & ? & ? & ? & E1' & Hl1 & Hsame1 & _).
  destruct (extend_angle_ok (joined_height a b) (Z.max (rb a) (rb b))
              (lines_of (eff_height b) (rs b)) (rl b) (eff_height b) (rb b) Hb)
    as (? & ? & ? & ? & E2' & Hl2 & Hsame2 & _).
  unfold operand_of in *. rewrite E1 in E1'. rewrite E2 in E2'.
  inversion E1'; inversion E2'; subst. split; [lia|].
  intros R1 R2. specialize (Hsame1 R1). specialize (Hsame2 R2).
  inversion Hsame1; inversion Hsame2; subst. lia.
Qed.

Lemma join_records_width_witness :
  0 <= rb tall_record /\ 0 <= rb tall_record
  /\ exists r, join_records tall_record tall_record = Ok r
       /\ rsp r = 0 /\ rl r = 2.
Proof.
  destruct (join_records_width tall_record tall_record) as (r & E & Hsp & _ & Hl);
    [cbn; lia|cbn; lia|].
  split; [cbn; lia|]. split; [cbn; lia|].
  exists r. split; [exact E|]. split; [exact Hsp|]. apply Hl; reflexivity.
Defined.

(** C2 as stated fails: joining a one-row angle bracket with a record
    three rows high regenerates the bracket two columns wide, and the
    width of the result is 3 and not 1 + 1. *)
Lemma join_records_width_counterexample :
  exists r, join_records tip_record tall_record = Ok r
    /\ rl r = 3 /\ rl r <> rl tip_record + rl tall_record.
Proof. eexists. split; [vm_compute; reflexivity|]. split; [reflexivity|]. cbn. lia. Qed.

(** *** Rows of the joined record *)

Lemma range_succ (n : nat) : range (Z.of_nat (S n)) = range (Z.of_nat n) ++ [Z.of_nat n].
Proof.
  unfold range. rewrite !Nat2Z.id, seq_S, fmap_app. reflexivity.
Qed.

(** A loop that writes row [off + i] for [i] in [range n], each row from
    its own former content. *)
Lemma foldl_place_lookup (h off : Z) (g : pystr -> Z -> pystr)
    (F : list pystr -> Z -> list pystr) :
  (forall res i, F res i =
     if (0 <=? off + i) && (off + i <? h)
     then <[Z.to_nat (off + i) := g (res !!! Z.to_nat (off + i)) i]> res else res) ->
  forall (n : nat) (result : list pystr) (p : nat),
    length result = Z.to_nat h -> (p < length result)%nat ->
    length (foldl F result (range (Z.of_nat n))) = length result
    /\ foldl F result (range (Z.of_nat n)) !! p =
       if bool_decide (off <= Z.of_nat p < off + Z.of_nat n)
       then Some (g (result !!! p) (Z.of_nat p - off)) else result !! p.
Proof.
  intros HF n result p Hlen Hp. induction n as [|n [IHlen IH]].
  - cbn. split; [done|]. rewrite bool_decide_eq_false_2 by lia. done.
  - rewrite range_succ, foldl_snoc, HF.
    set (res' := foldl F result (range (Z.of_nat n))) in *.
    destruct ((0 <=? off + Z.of_nat n) && (off + Z.of_nat n <? h)) eqn:E.
    + split; [by rewrite length_insert|].
      destruct (decide (Z.to_nat (off + Z.of_nat n) = p)) as [Heq|Hne].
      * rewrite Heq, list_lookup_insert_eq by lia.
        rewrite bool_decide_eq_true_2 by lia.
        rewrite bool_decide_eq_false_2 in IH by lia.
        rewrite !list_lookup_total_alt, IH. do 2 f_equal. lia.
      * rewrite list_lookup_insert_ne by done. rewrite IH.
        case_bool_decide; case_bool_decide; try done; lia.
    + split; [done|]. rewrite IH.
      case_bool_decide; case_bool_decide; try done; lia.
Qed.

Lemma foldl_Forall {A B} (P : A -> Prop) (F : list A -> B -> list A) (l : list B) :
  (forall res i, Forall P res -> Forall P (F res i)) ->
  forall result, Forall P result -> Forall P (foldl F result l).
Proof.
  intros HF. induction l as [|x l IH]; intros result H; cbn; [done|].
  apply IH. by apply HF.
Qed.

Lemma lookup_total_Forall (P : pystr -> Prop) (l : list pystr) (i : nat) :
  P [] -> Forall P l -> P (l !!! i).
Proof.
  intros H0 H. rewrite list_lookup_total_alt.
  destruct (l !! i) as [x|] eqn:E; cbn; [|done].
  eapply Forall_lookup_1; eauto.
Qed.

Lemma ljust_free (c : char) (w : Z) (s : pystr) : c ≠ SP -> c ∉ s -> c ∉ ljust w s.
Proof.
  intros Hc Hs. unfold ljust, spaces, rep. rewrite elem_of_app.
  intros [H|H]; [done|]. apply elem_of_replicate in H as [H _]. done.
Qed.

Lemma spaces_free (c : char) (n : Z) : c ≠ SP -> c ∉ spaces n.
Proof. intros Hc H. apply elem_of_replicate in H as [H _]. done. Qed.

Lemma lines_of_free (h : Z) (s : pystr) : Forall (fun l => NL ∉ l) (lines_of h s).
Proof.
  unfold lines_of. apply pad_lines_free. destruct (is_empty_str s); [constructor|].
  apply split_on_free.
Qed.

Lemma lines_of_join (h : Z) (ls : list pystr) :
  0 < h -> len ls = h -> Forall (fun l => NL ∉ l) ls ->
  lines_of h (join_with NL ls) = ls.
Proof.
  intros Hh Hlen Hfree. unfold lines_of.
  assert (ls ≠ []) as Hne. { intros ->. unfold len in Hlen. cbn in Hlen. lia. }
  destruct (join_with NL ls) eqn:E.
  - apply join_with_nil_inv in E as [->| ->]; [done|].
    cbn. unfold len in Hlen. cbn in Hlen. by replace h with 1 by lia.
  - cbn [is_empty_str]. rewrite <- E, split_join by done. apply pad_lines_id. lia.
Qed.

Lemma place_left_spec (h b b1 l1 h1 : Z) (lines1 result : list pystr) (p : nat) :
  0 <= h1 -> length result = Z.to_nat h -> (p < length result)%nat ->
  length (place_left h b b1 l1 h1 lines1 result) = length result
  /\ place_left h b b1 l1 h1 lines1 result !! p =
     if bool_decide (b - b1 <= Z.of_nat p < b - b1 + h1)
     then Some (ljust l1 (lines1 !!! Z.to_nat (Z.of_nat p - (b - b1)))) else result !! p.
Proof.
  intros Hh1 Hlen Hp. unfold place_left.
  replace h1 with (Z.of_nat (Z.to_nat h1)) by lia.
  apply (foldl_place_lookup h (b - b1) (fun _ i => ljust l1 (lines1 !!! Z.to_nat i)));
    [reflexivity|done|done].
Qed.

Lemma place_right_spec (h b b2 l1 h2 : Z) (lines2 result : list pystr) (p : nat) :
  0 <= h2 -> length result = Z.to_nat h -> (p < length result)%nat ->
  length (place_right h b b2 l1 h2 lines2 result) = length result
  /\ place_right h b b2 l1 h2 lines2 result !! p =
     if bool_decide (b - b2 <= Z.of_nat p < b - b2 + h2)
     then Some (ljust l1 (slice_to l1 (result !!! p))
                ++ lines2 !!! Z.to_nat (Z.of_nat p - (b - b2)))
     else result !! p.
Proof.
  intros Hh2 Hlen Hp. unfold place_right.
  replace h2 with (Z.of_nat (Z.to_nat h2)) by lia.
  apply (foldl_place_lookup h (b - b2)
           (fun cur i => ljust l1 (slice_to l1 cur) ++ lines2 !!! Z.to_nat i));
    [reflexivity|done|done].
Qed.

Lemma place_left_free (h b b1 l1 h1 : Z) (lines1 result : list pystr) :
  Forall (fun l => NL ∉ l) lines1 -> Forall (fun l => NL ∉ l) result ->
  Forall (fun l => NL ∉ l) (place_left h b b1 l1 h1 lines1 result).
Proof.
  intros H1 Hr. unfold place_left. apply foldl_Forall; [|done].
  intros res i Hres. cbv zeta. destruct (_ && _); [|done].
  apply Forall_insert; [done|]. apply ljust_free; [done|].
  apply (lookup_total_Forall (fun l => NL ∉ l)); [apply not_elem_of_nil|done].
Qed.

Lemma place_right_free (h b b2 l1 h2 : Z) (lines2 result : list pystr) :
  Forall (fun l => NL ∉ l) lines2 -> Forall (fun l => NL ∉ l) result ->
  Forall (fun l => NL ∉ l) (place_right h b b2 l1 h2 lines2 result).
Proof.
  intros H2 Hr. unfold place_right. apply foldl_Forall; [|done].
  intros res i Hres. cbv zeta. destruct (_ && _); [|done].
  apply Forall_insert; [done|]. rewrite elem_of_app. intros [H|H].
  - revert H. apply ljust_free; [done|]. apply slice_to_free.
    apply (lookup_total_Forall (fun l => NL ∉ l)); [apply not_elem_of_nil|done].
  - revert H. apply (lookup_total_Forall (fun l => NL ∉ l)); [apply not_elem_of_nil|done].
Qed.

Lemma pad_left_free (l1 : Z) (result : list pystr) :
  Forall (fun l => NL ∉ l) result -> Forall (fun l => NL ∉ l) (pad_left l1 result).
Proof.
  intros H. unfold pad_left. apply Forall_fmap. eapply Forall_impl; [exact H|].
  intros x Hx. cbn. destruct (len x <? l1); [by apply ljust_free|done].
Qed.

Lemma slice_to_all {A} (k : Z) (l : list A) : len l <= k -> slice_to k l = l.
Proof.
  intros H. unfold slice_to, clamp. pose proof (len_nonneg l).
  replace (k <? 0) with false by lia. apply take_ge. unfold len in *. lia.
Qed.

Lemma eff_height_pos (r : record) : 0 <= rb r < eff_height r -> 0 < eff_height r.
Proof. lia. Qed.

(** C5, as the code has it. [join_records a b] returns for records with
    baselines of at least 0 and its baseline is the larger of the two
    baselines; for records that satisfy the invariant of the data model
    and are not regenerated as angle brackets, the row of the result on
    that baseline is the baseline row of [a], padded to the width of
    [a], followed by the baseline row of [b] (blanks when it is empty). *)
Theorem join_records_baseline (a b : record) :
  0 <= rb a -> 0 <= rb b ->
  exists r, join_records a b = Ok r
    /\ rb r = Z.max (rb a) (rb b)
    /\ (well_formed a -> well_formed b ->
        regenerated (joined_height a b) (operand_of a) = false ->
        regenerated (joined_height a b) (operand_of b) = false ->
        baseline_row r =
          ljust (rl a) (baseline_row a)
          ++ (if len (baseline_row b) =? 0 then spaces (rl b) else baseline_row b)).
Proof.
  intros Ha Hb.
  destruct (join_records_unfold a b Ha Hb)
    as (lines1 & l1 & h1 & b1 & lines2 & l2 & h2 & b2 & lines2' & E1 & E2 & E3 & ->).
  eexists. split; [reflexivity|]. split; [reflexivity|].
  intros (Hba & Hla & Hwa) (Hbb & _ & _) R1 R2.
  (* without regeneration both operands enter the loops as they are *)
  destruct (extend_angle_ok (joined_height a b) (Z.max (rb a) (rb b))
              (lines_of (eff_height a) (rs a)) (rl a) (eff_height a) (rb a) Ha)
    as (? & ? & ? & ? & E1' & _ & Hsame1 & _).
  destruct (extend_angle_ok (joined_height a b) (Z.max (rb a) (rb b))
              (lines_of (eff_height b) (rs b)) (rl b) (eff_height b) (rb b) Hb)
    as (? & ? & ? & ? & E2' & _ & Hsame2 & _).
  unfold operand_of in *. rewrite E1 in E1'. rewrite E2 in E2'.
  specialize (Hsame1 R1). specialize (Hsame2 R2).
  inversion E1'; inversion E2'; subst. inversion Hsame1; inversion Hsame2; subst.
  clear E1' E2' Hsame1 Hsame2.
  destruct (fill_baseline_ok (rb b) (rl b) (lines_of (eff_height b) (rs b)) Hb)
    as (lines2'' & E3' & Hlen2 & Hrow2 & Hfree2).
  rewrite E3 in E3'. inversion E3'; subst lines2''. clear E3'.
  set (h := joined_height a b) in *. set (bb := Z.max (rb a) (rb b)) in *.
  assert (0 <= bb < h) as Hbh by (unfold h, bb, joined_height; lia).
  set (r0 := replicate (Z.to_nat h) ([] : pystr)).
  set (r1 := place_left h bb (rb a) (rl a) (eff_height a) (lines_of (eff_height a) (rs a)) r0).
  set (r2 := pad_left (rl a) r1).
  set (r3 := place_right h bb (rb b) (rl a) (eff_height b) lines2' r2).
  assert (length r0 = Z.to_nat h) as L0 by apply length_replicate.
  destruct (place_left_spec h bb (rb a) (rl a) (eff_height a)
              (lines_of (eff_height a) (rs a)) r0 (Z.to_nat bb))
    as [L1 Row1]; [lia|done|lia|]. fold r1 in L1, Row1.
  assert (length r2 = Z.to_nat h) as L2
    by (unfold r2, pad_left; rewrite length_fmap; lia).
  destruct (place_right_spec h bb (rb b) (rl a) (eff_height b) lines2' r2 (Z.to_nat bb))
    as [L3 Row3]; [lia|done|lia|]. fold r3 in L3, Row3.
  (* the lines of the result are the rows written by the loops *)
  assert (Forall (fun l => NL ∉ l) r3) as Hfree.
  { apply place_right_free.
    - apply Hfree2; [by apply spaces_free|apply lines_of_free].
    - apply pad_left_free, place_left_free; [apply lines_of_free|].
      apply Forall_replicate, not_elem_of_nil. }
  unfold baseline_row at 1. cbn [rs rb].
  replace (eff_height (mkrec h _ bb _ _)) with h
    by (unfold eff_height; cbn [rh]; by replace (h =? 0) with false by lia).
  rewrite lines_of_join; [|lia|unfold len; lia|done].
  rewrite list_lookup_total_alt, Row3.
  rewrite bool_decide_eq_true_2 by lia. cbn [default].
  assert (r2 !!! Z.to_nat bb = ljust (rl a) (baseline_row a)) as ->.
  { rewrite list_lookup_total_alt. unfold r2, pad_left.
    rewrite list_lookup_fmap, Row1, bool_decide_eq_true_2 by lia. cbn.
    replace (Z.to_nat (Z.of_nat (Z.to_nat bb) - (bb - rb a))) with (Z.to_nat (rb a)) by lia.
    fold (baseline_row a).
    rewrite len_ljust. by replace (Z.max (rl a) (len (baseline_row a)) <? rl a) with false by lia. }
  assert (len (baseline_row a) <= rl a) as Hline.
  { unfold baseline_row.
    apply (lookup_total_Forall (fun l => len l <= rl a)); [unfold len; cbn; lia|done]. }
  rewrite slice_to_all by (rewrite len_ljust; lia).
  rewrite (ljust_id (rl a) (ljust _ _)) by (rewrite len_ljust; lia).
  f_equal.
  replace (Z.to_nat (Z.of_nat (Z.to_nat bb) - (bb - rb b))) with (Z.to_nat (rb b)) by lia.
  rewrite Hrow2; [reflexivity|].
  unfold lines_of. rewrite len_pad_lines. lia.
Qed.

Lemma sample_records_well_formed : well_formed bra_record /\ well_formed tall_record.
Proof.
  split; (split; [vm_compute; split; [discriminate|reflexivity]|]);
    (split; [vm_compute; discriminate|]);
    vm_compute; repeat (constructor; [discriminate|]); constructor.
Qed.

Lemma join_records_baseline_witness :
  0 <= rb tall_record /\ 0 <= rb tall_record
  /\ exists r, join_records tall_record tall_record = Ok r
       /\ rb r = 1 /\ baseline_row r = [DASH; DASH].
Proof.
  destruct (join_records_baseline tall_record tall_record) as (r & E & Hb & Hrow);
    [cbn; lia|cbn; lia|].
  split; [cbn; lia|]. split; [cbn; lia|].
  exists r. split; [exact E|]. split; [exact Hb|].
  rewrite Hrow; [reflexivity| | |reflexivity|reflexivity];
    apply sample_records_well_formed.
Defined.

(** C5 as stated fails: a text that holds an angle glyph, joined with a
    taller record, is replaced by a regenerated bracket; its baseline
    row is not in the result, neither on the joint baseline nor
    elsewhere. *)
Lemma join_records_baseline_counterexample :
  well_formed bra_record /\ well_formed tall_record
  /\ exists r, join_records bra_record tall_record = Ok r
       /\ baseline_row bra_record = LANGLE :: py "x|"
       /\ baseline_row r = [LANGLE; SP; SP; DASH]
       /\ substr_in (baseline_row bra_record) (rs r) = false.
Proof.
  split; [apply sample_records_well_formed|]. split; [apply sample_records_well_formed|].
  eexists. split; [vm_compute; reflexivity|]. repeat split.
Qed.

(** ** Justification (C1) *)

Lemma count_char_cons (c x : char) (s : pystr) :
  count_char c (x :: s) = (if N.eqb x c then 1 else 0) + count_char c s.
Proof.
  unfold count_char. rewrite filter_cons.
  destruct (N.eqb_spec x c) as [->|Hne].
  - rewrite decide_True by done. unfold len. cbn [length]. lia.
  - rewrite decide_False by done. lia.
Qed.

(** The second counter of the expander never leaves 0, so every space
    becomes [fr + 1] spaces, whatever the remainder [re_val] is. *)
Lemma exp_sp_zero (fr re_val c1 : Z) :
  exp_sp fr re_val (c1, 0) = (spaces (fr + 1), (c1 + 1, 0)).
Proof. unfold exp_sp. cbn [fst snd]. by destruct (re_val <? c1 + 1). Qed.

Lemma sub_spaces_len (fr re_val : Z) (s acc : pystr) (c1 : Z) :
  0 <= fr ->
  let r := foldl (fun acc x =>
                    if N.eqb x SP
                    then let '(r, c') := exp_sp fr re_val (snd acc) in (fst acc ++ r, c')
                    else (fst acc ++ [x], snd acc))
                 (acc, (c1, 0)) s in
  len (fst r) = len acc + len s + fr * count_char SP s /\ snd (snd r) = 0.
Proof.
  intros Hfr. revert acc c1. induction s as [|x s IH]; intros acc c1.
  - cbn. split; [|done]. unfold count_char, len. cbn. lia.
  - cbn [foldl]. rewrite count_char_cons. destruct (N.eqb x SP) eqn:E.
    + cbn [fst snd]. rewrite exp_sp_zero.
      destruct (IH (acc ++ spaces (fr + 1)) (c1 + 1)) as [IH1 IH2].
      split; [|exact IH2]. rewrite IH1, len_app, len_spaces.
      unfold len. cbn [length]. lia.
    + cbn [fst snd]. destruct (IH (acc ++ [x]) c1) as [IH1 IH2].
      split; [|exact IH2]. rewrite IH1, len_app. unfold len. cbn [length]. lia.
Qed.

Lemma total_length_shift (recs : list record) (a : Z) :
  foldl (fun l r => l + get_length r) a recs = a + total_length recs.
Proof.
  unfold total_length. revert a. induction recs as [|r recs IH]; intros a; cbn; [lia|].
  rewrite IH, (IH (0 + get_length r)). lia.
Qed.

Lemma total_length_cons (r : record) (recs : list record) :
  total_length (r :: recs) = get_length r + total_length recs.
Proof. unfold total_length at 1. cbn. rewrite total_length_shift. lia. Qed.

Lemma total_length_snoc (r : record) (recs : list record) :
  total_length (recs ++ [r]) = total_length recs + get_length r.
Proof. unfold total_length. by rewrite foldl_snoc. Qed.

Lemma count_expandable_shift (recs : list record) (a : Z) :
  foldl (fun exp r => if rh r =? 0 then exp + count_char SP (rs r) else exp) a recs
  = a + count_expandable recs.
Proof.
  unfold count_expandable. revert a. induction recs as [|r recs IH]; intros a; cbn; [lia|].
  rewrite IH. rewrite (IH (if rh r =? 0 then _ else _)). destruct (rh r =? 0); lia.
Qed.

Lemma count_expandable_cons (r : record) (recs : list record) :
  count_expandable (r :: recs)
  = (if rh r =? 0 then count_char SP (rs r) else 0) + count_expandable recs.
Proof.
  unfold count_expandable at 1. cbn. rewrite count_expandable_shift.
  destruct (rh r =? 0); lia.
Qed.

Lemma expand_records_length (fr re_val : Z) (recs acc : list record) (c1 : Z) :
  0 <= fr -> Forall plain_text recs ->
  let r := foldl (fun acc r =>
                    if rh r =? 0
                    then let '(s, c') := sub_spaces fr re_val (rs r) (snd acc) in
                         (fst acc ++ [string2record s false], c')
                    else (fst acc ++ [r], snd acc))
                 (acc, (c1, 0)) recs in
  total_length (fst r) = total_length acc + total_length recs + fr * count_expandable recs.
Proof.
  intros Hfr. revert acc c1. induction recs as [|r recs IH]; intros acc c1 Hplain.
  - cbn [foldl fst]. change (total_length []) with 0.
    change (count_expandable []) with 0. lia.
  - inversion Hplain as [|? ? Hr Hrecs]; subst.
    cbn [foldl]. rewrite total_length_cons, count_expandable_cons.
    destruct (rh r =? 0) eqn:E.
    + cbn [fst snd]. unfold sub_spaces.
      pose proof (sub_spaces_len fr re_val (rs r) [] c1 Hfr) as [Hlen Hc2].
      destruct (foldl _ ([], (c1, 0)) (rs r)) as [s [c1' c2']] eqn:Es.
      cbn [fst snd] in *. subst c2'.
      rewrite (IH _ c1' Hrecs), total_length_snoc.
      assert (get_length (string2record s false) = len s) as ->.
      { unfold get_length, string2record. cbn. pose proof (len_nonneg s).
        by replace (0 <=? len s) with true by lia. }
      assert (get_length r = len (rs r)) as ->.
      { unfold get_length. rewrite <- (Hr ltac:(lia)).
        pose proof (len_nonneg (rs r)). rewrite (Hr ltac:(lia)).
        replace (0 <=? rh r) with true by lia.
        by replace (0 <=? len (rs r)) with true by lia. }
      rewrite Hlen. unfold len at 1. cbn [length]. lia.
    + cbn [fst snd]. rewrite (IH _ c1 Hrecs), total_length_snoc. lia.
Qed.

Lemma expand_records_total (fr re_val : Z) (recs : list record) :
  0 <= fr -> Forall plain_text recs ->
  total_length (expand_records fr re_val recs)
  = total_length recs + fr * count_expandable recs.
Proof.
  intros Hfr Hplain.
  pose proof (expand_records_length fr re_val recs [] 0 Hfr Hplain) as H.
  cbv zeta in H. change (total_length []) with 0 in H. rewrite Z.add_0_l in H. exact H.
Qed.

(** What the space expansion of [do_print] does to the width of a line
    of plain records: with [exp] expandable spaces and [extra] columns to
    fill, the line grows by [extra - extra mod exp] columns; the
    remainder is not distributed. *)
Lemma justify_total_length (cfg : Config) (recs : list record) :
  opt_ragged cfg = false ->
  Forall plain_text recs ->
  total_length recs < linelength cfg ->
  0 < count_expandable recs ->
  total_length (justify cfg false (total_length recs) recs)
  = linelength cfg - (linelength cfg - total_length recs) mod count_expandable recs.
Proof.
  intros Hragged Hplain Hlt Hexp. unfold justify. rewrite Hragged. cbn [negb andb].
  replace (total_length recs <=? linelength cfg) with true by lia.
  replace (0 <? linelength cfg - total_length recs) with true by lia.
  replace (count_expandable recs =? 0) with false by lia. cbn [negb].
  set (extra := linelength cfg - total_length recs).
  set (exp := count_expandable recs) in *.
  pose proof (Z.div_mod extra exp ltac:(lia)) as Hdm.
  pose proof (Z.mod_pos_bound extra exp ltac:(lia)) as Hmod.
  pose proof (Z.mod_le extra exp ltac:(unfold extra; lia) ltac:(lia)) as Hle.
  cbn [andb]. rewrite expand_records_total; [|apply Z.div_pos; lia|done].
  fold exp.
  replace ((extra - extra mod exp) / exp) with (extra / exp).
  - unfold extra in *. lia.
  - replace (extra - extra mod exp) with (extra / exp * exp) by lia.
    by rewrite Z.div_mul by lia.
Qed.

(** C1 fails on the code. A line of ten columns with three expandable
    spaces is printed for twelve columns: [extra] is 2, the remainder
    [re_val] is 2 and [fr] is 0, and the expansion inserts nothing; the
    line is still ten columns wide, with one space in every gap. *)
Theorem justify_loses_remainder :
  total_length [short_line] = 10
  /\ count_expandable [short_line] = 3
  /\ justify narrow_config false 10 [short_line] = [short_line]
  /\ total_length (justify narrow_config false 10 [short_line]) <> linelength narrow_config
  /\ (exists st, paragraph narrow_config 50 50 (py "aaa bb cc ddddd ee") init_state
                 = Ok (true, st)
                 /\ stdout st = [py "aaa bb cc"; py "ddddd ee"]).
Proof.
  split; [reflexivity|]. split; [reflexivity|]. split; [reflexivity|].
  split; [vm_compute; discriminate|].
  eexists. split; [vm_compute; reflexivity|reflexivity].
Qed.

(** ** The fraction scenario (C6) *)

(** C6. Processing [\frac{a+b}{c}] leaves, after the paragraph
    indentation, one record in the buffer: three lines [a+b], a rule of
    three dashes and [ c ], of width 3 with the baseline on row 1, the
    row of the rule; it is printed as these three lines. *)
Theorem fraction_scenario :
  (exists l, parse default_config 50 50 (py "\frac{a+b}{c}") init_state = Ok (Parsed l)
             /\ out (lstate l) = [indent_record; fraction_record])
  /\ rec_lines fraction_record = [py "a+b"; [DASH; DASH; DASH]; py " c "]
  /\ rh fraction_record = 3 /\ rl fraction_record = 3 /\ rb fraction_record = 1
  /\ baseline_row fraction_record = [DASH; DASH; DASH]
  /\ (exists st, paragraph default_config 50 50 (py "\frac{a+b}{c}") init_state = Ok (true, st)
                 /\ stdout st = [py "a+b" ++ NL :: [DASH; DASH; DASH] ++ NL :: py " c"]).
Proof.
  split; [eexists; split; [vm_compute; reflexivity|reflexivity]|].
  do 5 (split; [reflexivity|]).
  eexists; split; [vm_compute; reflexivity|reflexivity].
Qed.

(** ** Builders on an empty group (C3) *)

(** C3 fails on the code. [finish] adds the empty record for a group
    without content only when [len(out) < chunks[level[-1]]], which an
    empty group at the start of the buffer does not satisfy; the builder
    is then called with an empty buffer. [f_widehat] reads
    [state.out[-1]] before any check, [f_radical] after a check that
    counts chunks and passes: both raise [IndexError]. *)
Theorem builder_raises_on_empty_group :
  paragraph default_config 50 50 (py "$$\widehat{}$$") init_state = Raise IndexError
  /\ paragraph noindent_config 50 50 (py "\widehat{}") init_state = Raise IndexError
  /\ paragraph noindent_config 50 50 (py "\sqrt{}") init_state = Raise IndexError
  /\ (exists st, parse noindent_config 50 50 (py "\sqrt{") init_state
                   = Ok (Parsed (mkLoop 0 0 st))
                 /\ out st = [] /\ assertHave 1 st = Ok true
                 /\ close_curly (finish noindent_config 50) st = Raise IndexError).
Proof.
  split; [vm_compute; reflexivity|]. split; [vm_compute; reflexivity|].
  split; [vm_compute; reflexivity|].
  eexists. split; [vm_compute; reflexivity|]. repeat split.
Qed.

(** ** A stray [\right] (C9) *)








Lemma len_pos_of_not_nil {A} (l : list A) : l ≠ [] -> 0 < len l.
Proof. destruct l; [done|]. unfold len. cbn. lia. Qed.


Lemma join_records_ok (a b : record) :
  0 <= rb a -> 0 <= rb b -> exists r, join_records a b = Ok r /\ 0 <= rb r.
Proof.
  intros Ha Hb.
  destruct (join_records_unfold a b Ha Hb)
    as (? & ? & ? & ? & ? & ? & ? & ? & ? & _ & _ & _ & ->).
  eexists. split; [reflexivity|]. cbn [rb]. lia.
Qed.






Lemma lstrip_suffix (s : pystr) : exists ws, s = ws ++ lstrip s.
Proof.
  induction s as [|x s [ws IH]]; [by exists []|].
  cbn. destruct (is_space x).
  - exists (x :: ws). cbn. by rewrite <- IH.
  - by exists [].
Qed.

Lemma rstrip_prefix (s : pystr) : exists ws, s = rstrip s ++ ws.
Proof.
  destruct (lstrip_suffix (reverse s)) as [ws H]. exists (reverse ws).
  unfold rstrip. rewrite <- reverse_app, <- H. by rewrite reverse_involutive.
Qed.








(** ** The ceiling on macro expansions (C4) *)












Lemma to_string_py (t : string) : to_string (py t) = Some t.
Proof.
  induction t as [|a t IH]; [done|].
  unfold py in *. cbn [list_ascii_of_string fmap list_fmap to_string].
  fold (list_fmap _ _ (fun a => N_of_ascii a) (list_ascii_of_string t)).
  assert (N_of_ascii a < 256)%N as H by apply N_ascii_bounded.
  apply N.ltb_lt in H. rewrite H.
  change (list_fmap ascii N (λ a0 : ascii, N_of_ascii a0) (list_ascii_of_string t))
    with ((fun a => N_of_ascii a) <$> list_ascii_of_string t).
  rewrite IH. by rewrite ascii_N_embedding.
Qed.

Lemma to_int_not_nil (n : Z) : Z.to_int n <> Pos Nil /\ Z.to_int n <> Neg Nil.
Proof.
  destruct n as [|p|p]; cbn; split; try discriminate;
    intros H; injection H as H; by apply Unsigned.to_uint_nonnil in H.
Qed.

Lemma parse_int_str_int (n : Z) : parse_int (str_int n) = Some n.
Proof.
  unfold parse_int, str_int. rewrite to_string_py.
  destruct (to_int_not_nil n) as [H1 H2].
  rewrite NilZero.isi by done.
  rewrite of_to. destruct (Decimal.int_beq (Z.to_int n) (Z.to_int n)) eqn:E; [done|].
  assert (Decimal.int_beq (Z.to_int n) (Z.to_int n) = true) as H
    by (by apply Decimal.internal_int_dec_lb).
  congruence.
Qed.

Lemma py_String (a : ascii) (t : string) : py (String a t) = N_of_ascii a :: py t.
Proof. reflexivity. Qed.

Lemma uint_no_comma (d : uint) : COMMA ∉ py (NilEmpty.string_of_uint d).
Proof.
  induction d; cbn [NilEmpty.string_of_uint]; rewrite ?py_String;
    [apply not_elem_of_nil|..];
    (apply not_elem_of_cons; split; [discriminate|done]).
Qed.

Lemma nilzero_no_comma (d : uint) : COMMA ∉ py (NilZero.string_of_uint d).
Proof.
  destruct d; try apply uint_no_comma.
  change (COMMA ∉ [48%N]). apply not_elem_of_cons. split; [discriminate|apply not_elem_of_nil].
Qed.

Lemma str_int_no_comma (n : Z) : COMMA ∉ str_int n.
Proof.
  unfold str_int, NilZero.string_of_int.
  destruct (Z.to_int n) as [d|d]; [apply nilzero_no_comma|].
  rewrite py_String. apply not_elem_of_cons. split; [discriminate|apply nilzero_no_comma].
Qed.

Lemma split_comma_app (a b : pystr) :
  COMMA ∉ a -> split_comma (a ++ COMMA :: b) = Some (a, b).
Proof.
  induction a as [|x a IH]; intros H; [done|].
  apply not_elem_of_cons in H as [Hx Ha]. cbn.
  destruct (N.eqb_spec x COMMA) as [->|_]; [done|]. by rewrite IH.
Qed.

Lemma split_max_encode (r : record) :
  split_max 4 (encode r) = [str_int (rh r); str_int (rl r); str_int (rb r); str_int (rsp r); rs r].
Proof.
  unfold encode. cbn [split_max].
  rewrite !split_comma_app by apply str_int_no_comma. done.
Qed.

(** X1. A record string is read back field by field: the four numbers
    written by the f-string are found again by [split(",", 4)] and [int],
    and the content is the whole remainder, commas included. *)
Theorem record_string_round_trip (r : record) :
  read_record (encode r) = Ok r /\ decode (encode r) = Some r.
Proof.
  split.
  - unfold read_record. rewrite split_max_encode.
    pose proof (parse_int_str_int (rh r)) as Hh. pose proof (parse_int_str_int (rl r)) as Hl.
    pose proof (parse_int_str_int (rb r)) as Hb. pose proof (parse_int_str_int (rsp r)) as Hsp.
    revert Hh Hl Hb Hsp.
    generalize (str_int (rh r)) (str_int (rl r)) (str_int (rb r)) (str_int (rsp r)).
    intros a b c d Hh Hl Hb Hsp. cbv zeta.
    change (py_get [a; b; c; d; rs r] 0) with (Ok a : M pystr).
    change (py_get [a; b; c; d; rs r] 1) with (Ok b : M pystr).
    change (py_get [a; b; c; d; rs r] 2) with (Ok c : M pystr).
    change (py_get [a; b; c; d; rs r] 3) with (Ok d : M pystr).
    unfold py_int. rewrite !bind_Ok, Hh, Hl, Hb, Hsp, !bind_Ok.
    by destruct r.
  - unfold decode, encode.
    rewrite !split_comma_app by apply str_int_no_comma.
    rewrite !parse_int_str_int. by destruct r.
Qed.

(** ** Stacking and centring (records.py) *)

(** The lines a combinator of records.py works with, for a height of at
    least 1. *)
Lemma lines_of_alt (h : Z) (s : pystr) :
  1 <= h ->
  pad_lines h (if is_empty_str s then [[]] else split_on NL s) = lines_of h s.
Proof.
  intros Hh. unfold lines_of. destruct (is_empty_str s); [|done].
  unfold pad_lines. cbn [app]. change (len [[]]) with 1. change (len (@nil pystr)) with 0.
  replace (Z.to_nat (h - 0)) with (S (Z.to_nat (h - 1))) by lia. done.
Qed.

Lemma lines_of_joined (h : Z) (ls : list pystr) :
  0 < h -> h <= len ls -> Forall (fun l => NL ∉ l) ls ->
  lines_of h (join_with NL ls) = ls.
Proof.
  intros Hh Hlen Hfree. unfold lines_of.
  assert (ls ≠ []) as Hne. { intros ->. unfold len in Hlen. cbn in Hlen. lia. }
  destruct (join_with NL ls) eqn:E.
  - apply join_with_nil_inv in E as [->| ->]; [done|].
    cbn. unfold len in Hlen. cbn in Hlen. by replace h with 1 by lia.
  - cbn [is_empty_str]. rewrite <- E, split_join by done. by apply pad_lines_id.
Qed.

Lemma eff_height_ge (r : record) : 0 <= rh r -> 1 <= eff_height r.
Proof. unfold eff_height. destruct (Z.eqb_spec (rh r) 0); lia. Qed.

Lemma eff_height_mkrec (h l b sp : Z) (s : pystr) :
  1 <= h -> eff_height (mkrec h l b sp s) = h.
Proof. intros H. unfold eff_height. cbn [rh]. destruct (Z.eqb_spec h 0); lia. Qed.

Lemma len_lines_of (h : Z) (s : pystr) : h <= len (lines_of h s).
Proof. unfold lines_of. rewrite len_pad_lines. lia. Qed.

(** X2. [vStack a b] for heights of at least 0: the height is the sum of
    the two heights (a height 0 counting as 1), the width the larger of
    the two widths, the baseline the last row of [a]; its rows are the
    rows of [a] followed by the rows of [b]; and when no row of an
    operand is longer than the operand's width, the result satisfies the
    invariant of the data model. *)
Theorem vStack_geometry (a b : record) :
  0 <= rh a -> 0 <= rh b ->
  rh (vStack a b) = eff_height a + eff_height b
  /\ rl (vStack a b) = Z.max (rl a) (rl b)
  /\ rb (vStack a b) = eff_height a - 1
  /\ rsp (vStack a b) = 0
  /\ lines_of (rh (vStack a b)) (rs (vStack a b))
     = lines_of (eff_height a) (rs a) ++ lines_of (eff_height b) (rs b)
  /\ (Forall (fun line => len line <= rl a) (lines_of (eff_height a) (rs a)) ->
      Forall (fun line => len line <= rl b) (lines_of (eff_height b) (rs b)) ->
      well_formed (vStack a b)).
Proof.
  intros Ha Hb.
  pose proof (eff_height_ge a Ha) as Ha1. pose proof (eff_height_ge b Hb) as Hb1.
  assert (vStack a b =
          mkrec (eff_height a + eff_height b) (Z.max (rl a) (rl b)) (eff_height a - 1) 0
            (join_with NL (lines_of (eff_height a) (rs a) ++ lines_of (eff_height b) (rs b))))
    as ->.
  { unfold vStack. cbv zeta. fold (eff_height a). fold (eff_height b).
    by rewrite !lines_of_alt. }
  cbn [rh rl rb rsp rs].
  assert (lines_of (eff_height a + eff_height b)
            (join_with NL (lines_of (eff_height a) (rs a) ++ lines_of (eff_height b) (rs b)))
          = lines_of (eff_height a) (rs a) ++ lines_of (eff_height b) (rs b)) as Hlines.
  { apply lines_of_joined; [lia| |].
    - rewrite len_app. pose proof (len_lines_of (eff_height a) (rs a)).
      pose proof (len_lines_of (eff_height b) (rs b)). lia.
    - apply Forall_app. split; apply lines_of_free. }
  do 4 (split; [done|]). split; [done|].
  intros Fa Fb. unfold well_formed.
  rewrite (eff_height_mkrec (eff_height a + eff_height b)) by lia. cbn [rh rl rb rs].
  assert (0 <= rl a) as Hla.
  { pose proof (len_lines_of (eff_height a) (rs a)) as Hn.
    destruct (lines_of (eff_height a) (rs a)) as [|x ?]; [unfold len in Hn; cbn in Hn; lia|].
    inversion Fa; subst. pose proof (len_nonneg x). lia. }
  split; [lia|]. split; [lia|].
  rewrite Hlines. apply Forall_app.
  split; [eapply Forall_impl; [exact Fa|]|eapply Forall_impl; [exact Fb|]];
    cbn; intros; lia.
Qed.

Lemma vStack_geometry_witness :
  0 <= rh (string2record (py "ab") false) /\ 0 <= rh tall_record
  /\ rh (vStack (string2record (py "ab") false) tall_record) = 4
  /\ rb (vStack (string2record (py "ab") false) tall_record) = 0
  /\ lines_of 4 (rs (vStack (string2record (py "ab") false) tall_record))
     = [py "ab"; py "a"; [DASH]; py "b"]
  /\ well_formed (vStack (string2record (py "ab") false) tall_record).
Proof.
  assert (0 <= rh (string2record (py "ab") false)) as Ha by (cbn; lia).
  assert (0 <= rh tall_record) as Hb by (cbn; lia).
  destruct (vStack_geometry (string2record (py "ab") false) tall_record Ha Hb)
    as (Hh & _ & Hbase & _ & Hlines & Hwf).
  split; [exact Ha|]. split; [exact Hb|]. split; [exact Hh|]. split; [exact Hbase|].
  split; [exact Hlines|].
  apply Hwf; vm_compute; repeat (constructor; [discriminate|]); constructor.
Defined.

(** X3. [center w r] for a record narrower than [w]: the height, the
    baseline and the number of rows are kept, the count of expandable
    spaces is reset, every row is shifted right by half of the free
    width (rounded down) and filled up to [w] columns; when no row of
    [r] is longer than its width every row of the result is exactly [w]
    columns wide, and a row of full width has at most one more blank on
    its right than on its left. *)
Theorem center_geometry (w : Z) (r : record) :
  0 <= rh r -> rl r < w ->
  let p := (w - rl r) / 2 in
  rh (center w r) = eff_height r /\ rl (center w r) = w
  /\ rb (center w r) = rb r /\ rsp (center w r) = 0
  /\ lines_of (eff_height r) (rs (center w r))
     = (fun line => spaces p ++ line ++ spaces (w - p - len line))
         <$> lines_of (eff_height r) (rs r)
  /\ (Forall (fun line => len line <= rl r) (lines_of (eff_height r) (rs r)) ->
      Forall (fun line => len line = w) (lines_of (eff_height r) (rs (center w r))))
  /\ 0 <= (w - rl r - p) - p <= 1.
Proof.
  intros Hh Hw p. pose proof (eff_height_ge r Hh) as Hh1.
  assert (0 <= p) as Hp by (apply Z.div_pos; lia).
  assert (center w r =
          mkrec (eff_height r) w (rb r) 0
            (join_with NL ((fun line => spaces p ++ line ++ spaces (w - p - len line))
                             <$> lines_of (eff_height r) (rs r)))) as ->.
  { unfold center. cbv zeta. replace (w - rl r <=? 0) with false by lia.
    fold (eff_height r). rewrite lines_of_alt by done. do 2 f_equal.
    apply list_fmap_ext. intros _ line _. unfold ljust.
    rewrite len_app, len_spaces, <- app_assoc. do 3 f_equal. fold p. lia. }
  cbn [rh rl rb rsp rs].
  assert (lines_of (eff_height r)
            (join_with NL ((fun line => spaces p ++ line ++ spaces (w - p - len line))
                             <$> lines_of (eff_height r) (rs r)))
          = (fun line => spaces p ++ line ++ spaces (w - p - len line))
              <$> lines_of (eff_height r) (rs r)) as Hlines.
  { apply lines_of_joined; [lia| |].
    - rewrite len_fmap. apply len_lines_of.
    - apply Forall_fmap. eapply Forall_impl; [apply lines_of_free|].
      cbn. intros line Hfree. rewrite !not_elem_of_app.
      split; [by apply spaces_free|]. split; [done|by apply spaces_free]. }
  do 4 (split; [done|]). split; [done|]. split.
  - intros F. rewrite Hlines. apply Forall_fmap. eapply Forall_impl; [exact F|].
    cbn. intros line Hlen. rewrite !len_app, !len_spaces.
    pose proof (len_nonneg line).
    assert (2 * p <= w - rl r) by (apply Z.mul_div_le; lia). lia.
  - assert (2 * p <= w - rl r) by (apply Z.mul_div_le; lia).
    assert (w - rl r < 2 * (p + 1)).
    { unfold p. pose proof (Z.mod_pos_bound (w - rl r) 2).
      pose proof (Z.div_mod (w - rl r) 2). lia. }
    lia.
Qed.

Lemma center_geometry_witness :
  0 <= rh tall_record /\ rl tall_record < 4
  /\ lines_of 3 (rs (center 4 tall_record)) = [py " a  "; SP :: DASH :: py "  "; py " b  "]
  /\ rb (center 4 tall_record) = 1.
Proof.
  assert (0 <= rh tall_record) as Hh by (cbn; lia).
  assert (rl tall_record < 4) as Hw by (cbn; lia).
  destruct (center_geometry 4 tall_record Hh Hw) as (_ & _ & Hb & _ & Hlines & _).
  split; [exact Hh|]. split; [exact Hw|]. split; [exact Hlines|exact Hb].
Defined.

(** ** Tall delimiters (brackets.py) *)

Lemma len_rep_str (s : pystr) (n : Z) : len s = 1 -> len (rep_str s n) = Z.max 0 n.
Proof.
  intros Hs. unfold rep_str.
  destruct s as [|c [|? ?]]; try (unfold len in Hs; cbn in Hs; lia).
  assert (forall k : nat, concat (replicate k [c]) = replicate k c) as ->.
  { induction k as [|k IH]; [done|]. cbn. by rewrite IH. }
  rewrite len_replicate. lia.
Qed.

Lemma rep_str_single (c : char) (n : Z) : rep_str [c] n = replicate (Z.to_nat n) c.
Proof.
  unfold rep_str. induction (Z.to_nat n) as [|k IH]; [done|]. cbn. by rewrite IH.
Qed.

(** X4. [makecompound] with one-character pieces, an ascent of at least
    1 and a descent of at least 0 gives one character per row,
    [ascent + descent] of them.  With a middle piece of its own (a
    brace) and room on both sides, that piece is the character of the
    baseline row [ascent - 1], below the top cap and above the bottom
    cap; without room above or below the baseline the result is the
    plain delimiter with blanks of [exp_one], no caps. *)
Theorem makecompound_rows (ascent descent : Z)
    (base exp_one exp_real top bottom middle : char) :
  1 <= ascent -> 0 <= descent ->
  let s := makecompound ascent descent [base] [exp_one] [exp_real] [top] [bottom] [middle] in
  len s = ascent + descent
  /\ (0 < descent -> exp_real = middle ->
      s = top :: replicate (Z.to_nat (ascent + descent - 2)) exp_real ++ [bottom])
  /\ (0 < descent -> 2 <= ascent -> exp_real <> middle ->
      s = top :: replicate (Z.to_nat (ascent - 2)) exp_real ++ middle
            :: replicate (Z.to_nat (descent - 1)) exp_real ++ [bottom])
  /\ (descent = 0 -> s = replicate (Z.to_nat (ascent - 1)) exp_one ++ [base])
  /\ (0 < descent -> ascent = 1 -> exp_real <> middle ->
      s = base :: replicate (Z.to_nat descent) exp_one).
Proof.
  intros Ha Hd s.
  assert ((0 < descent -> exp_real = middle ->
      s = top :: replicate (Z.to_nat (ascent + descent - 2)) exp_real ++ [bottom])
  /\ (0 < descent -> 2 <= ascent -> exp_real <> middle ->
      s = top :: replicate (Z.to_nat (ascent - 2)) exp_real ++ middle
            :: replicate (Z.to_nat (descent - 1)) exp_real ++ [bottom])
  /\ (descent = 0 -> s = replicate (Z.to_nat (ascent - 1)) exp_one ++ [base])
  /\ (0 < descent -> ascent = 1 -> exp_real <> middle ->
      s = base :: replicate (Z.to_nat descent) exp_one)) as H.
  { subst s. unfold makecompound. rewrite !rep_str_single.
    replace (1 <=? ascent) with true by lia. cbn [andb].
    split; [|split; [|split]].
    - intros Hpos ->. replace (0 <? descent) with true by lia.
      by rewrite bool_decide_eq_true_2.
    - intros Hpos H2 Hne. replace (0 <? descent) with true by lia.
      rewrite bool_decide_eq_false_2 by congruence. cbn [andb].
      replace (descent <=? 0) with false by lia. replace (ascent <=? 1) with false by lia.
      replace (2 <=? ascent) with true by lia.
      destruct (Z.ltb_spec 1 descent) as [H1|H1].
      + cbn [app]. rewrite <- ?app_assoc. reflexivity.
      + replace descent with 1 by lia. cbn [app Z.sub Z.to_nat replicate Z.add Z.opp Z.pos_sub]. rewrite <- ?app_assoc. reflexivity.
    - intros ->. cbn [Z.ltb Z.compare andb]. reflexivity.
    - intros Hpos -> Hne. replace (0 <? descent) with true by lia.
      rewrite bool_decide_eq_false_2 by congruence. cbn [andb].
      replace (descent <=? 0) with false by lia. reflexivity. }
  split; [|exact H].
  destruct H as (H1 & H2 & H3 & H4).
  destruct (Z.ltb_spec 0 descent) as [Hpos|Hz].
  - destruct (decide (exp_real = middle)) as [He|He].
    + rewrite (H1 Hpos He). unfold len. cbn [length]. rewrite length_app, length_replicate.
      cbn [length]. lia.
    + destruct (Z.leb_spec 2 ascent) as [Hge|Hlt].
      * rewrite (H2 Hpos Hge He). unfold len. cbn [length].
        rewrite length_app, length_replicate. cbn [length].
        rewrite length_app, length_replicate. cbn [length]. lia.
      * rewrite (H4 Hpos ltac:(lia) He). unfold len. cbn [length].
        rewrite length_replicate. lia.
  - rewrite (H3 ltac:(lia)). unfold len. rewrite length_app, length_replicate.
    cbn [length]. lia.
Qed.

Lemma makecompound_rows_witness :
  1 <= 2 /\ 0 <= 2
  /\ makecompound 2 2 (py "{") (py " ") (U 9474) (U 9581) (U 9584) (U 9569)
     = [9581; 9569; 9474; 9584]%N
  /\ makecompound 1 0 (py "(") (py " ") (U 9474) (U 9581) (U 9584) (U 9474) = py "(".
Proof.
  assert (1 <= 2) as Ha by lia. assert (0 <= 2) as Hd by lia.
  destruct (makecompound_rows 2 2 123%N 32%N 9474%N 9581%N 9584%N 9569%N Ha Hd)
    as (_ & _ & H2 & _).
  split; [exact Ha|]. split; [exact Hd|]. split; [|reflexivity].
  apply H2; [lia|lia|discriminate].
Defined.

(** ** All the rows of a joined record (join.py) *)

Lemma pad_left_lookup (l1 : Z) (result : list pystr) (p : nat) :
  pad_left l1 result !! p = (fun r => if len r <? l1 then ljust l1 r else r) <$> result !! p.
Proof. unfold pad_left. apply list_lookup_fmap. Qed.

(** Row [p] after the three loops of [join_records]. *)
Lemma placed_row (h b b1 l1 h1 b2 h2 : Z) (lines1 lines2 : list pystr) (p : nat) :
  0 <= h1 -> 0 <= h2 -> (p < Z.to_nat h)%nat ->
  let left := ljust l1 (if bool_decide (b - b1 <= Z.of_nat p < b - b1 + h1)
                        then lines1 !!! Z.to_nat (Z.of_nat p - (b - b1)) else []) in
  length (place_right h b b2 l1 h2 lines2
            (pad_left l1 (place_left h b b1 l1 h1 lines1 (replicate (Z.to_nat h) []))))
    = Z.to_nat h
  /\ place_right h b b2 l1 h2 lines2
       (pad_left l1 (place_left h b b1 l1 h1 lines1 (replicate (Z.to_nat h) []))) !! p
     = Some (if bool_decide (b - b2 <= Z.of_nat p < b - b2 + h2)
             then ljust l1 (slice_to l1 left) ++ lines2 !!! Z.to_nat (Z.of_nat p - (b - b2))
             else left).
Proof.
  intros Hh1 Hh2 Hp left.
  destruct (place_left_spec h b b1 l1 h1 lines1 (replicate (Z.to_nat h) []) p Hh1)
    as [HlenL HL]; [by rewrite length_replicate|by rewrite length_replicate|].
  rewrite length_replicate in HlenL.
  assert (pad_left l1 (place_left h b b1 l1 h1 lines1 (replicate (Z.to_nat h) [])) !! p
          = Some left) as Hpad.
  { rewrite pad_left_lookup, HL. subst left. case_bool_decide.
    - cbn. rewrite len_ljust. by replace (Z.max l1 _ <? l1) with false by lia.
    - rewrite lookup_replicate_2 by done. cbn. change (len (@nil N)) with 0.
      destruct (Z.ltb_spec 0 l1); [done|].
      unfold ljust, spaces, rep. change (len (@nil N)) with 0.
      by replace (Z.to_nat (l1 - 0)) with 0%nat by lia. }
  assert (length (pad_left l1 (place_left h b b1 l1 h1 lines1 (replicate (Z.to_nat h) [])))
          = Z.to_nat h) as HlenP.
  { unfold pad_left. by rewrite length_fmap. }
  destruct (place_right_spec h b b2 l1 h2 lines2
              (pad_left l1 (place_left h b b1 l1 h1 lines1 (replicate (Z.to_nat h) [])))
              p Hh2 HlenP) as [HlenR HR]; [lia|].
  split; [lia|]. rewrite HR. case_bool_decide; [|done].
  by rewrite (list_lookup_total_correct _ _ _ Hpad).
Qed.

Lemma max_len_or_1_ge (lines : list pystr) :
  Forall (fun x => len x <= max_len_or_1 lines) lines.
Proof.
  destruct lines as [|x r]; [constructor|]. cbn [max_len_or_1]. constructor.
  - apply foldl_max_ge.
  - apply Forall_forall. intros y Hy. apply foldl_max_elem.
    apply list_elem_of_fmap. by exists y.
Qed.

Lemma angle_line_free (t : pystr) (w b row : Z) : NL ∉ angle_line t w b row.
Proof.
  unfold angle_line. cbv zeta.
  destruct (bool_decide _); rewrite not_elem_of_app; (split; [by apply spaces_free|]);
    rewrite list_elem_of_singleton; repeat destruct (_ <? _); repeat destruct (_ =? _);
    discriminate.
Qed.

(** The regenerated bracket: [h] rows, all of the returned width. *)
Lemma regenerate_rows (t : pystr) (h b : Z) :
  length (regenerate_angle_bracket t h b).1 = Z.to_nat h
  /\ 1 <= (regenerate_angle_bracket t h b).2
  /\ Forall (fun x => len x = (regenerate_angle_bracket t h b).2)
       (regenerate_angle_bracket t h b).1
  /\ Forall (fun x => NL ∉ x) (regenerate_angle_bracket t h b).1.
Proof.
  unfold regenerate_angle_bracket. cbv zeta. cbn [fst snd].
  set (w := Z.max b (h - b - 1) + 1).
  set (ls := angle_line t w b <$> range h).
  split; [|split; [|split]].
  - subst ls. unfold range. rewrite !length_fmap. apply length_seq.
  - destruct ls as [|x r] eqn:E; [cbn; lia|].
    cbn [max_len_or_1]. pose proof (foldl_max_ge (len x) (len <$> r)).
    assert (1 <= len x); [|lia].
    assert (x ∈ ls) as Hx by (rewrite E; left).
    apply list_elem_of_fmap in Hx as (row & -> & _). rewrite len_angle_line.
    destruct (bool_decide _); lia.
  - apply Forall_fmap. eapply Forall_impl; [apply max_len_or_1_ge|].
    cbn. intros x Hx. rewrite len_ljust. lia.
  - apply Forall_fmap. apply Forall_fmap. apply Forall_forall. intros row _. cbn.
    apply ljust_free; [done|]. apply angle_line_free.
Qed.

(** The operand that [join_records] works with after the block that
    regenerates angle brackets: no row is longer than its width, and it
    is either the operand as it was or a bracket of the joined height on
    the joined baseline. *)
Lemma extend_angle_rows (h b : Z) (lines : list pystr) (l h1 b1 : Z) :
  0 <= h -> 0 <= b1 -> 0 <= l -> h1 <= len lines ->
  Forall (fun x => len x <= l) lines -> Forall (fun x => NL ∉ x) lines ->
  exists lines' l' h1' b1',
    extend_angle h b (lines, l, h1, b1) = Ok (lines', l', h1', b1')
    /\ 0 <= l' /\ h1' <= len lines'
    /\ Forall (fun x => len x <= l') lines' /\ Forall (fun x => NL ∉ x) lines'
    /\ ((lines', l', h1', b1') = (lines, l, h1, b1) \/ (h1' = h /\ b1' = b)).
Proof.
  intros Hh Hb1 Hl Hlen Hrows Hfree. unfold extend_angle. cbv beta iota.
  destruct (regenerated h (lines, l, h1, b1)) eqn:E.
  - assert (exists x, (if b1 <? len lines then py_get lines b1 else Ok []) = Ok x) as [x ->].
    { destruct (b1 <? len lines) eqn:E1; [|by eexists].
      destruct (py_get_ok lines b1) as (x & -> & _); [lia|]. by eexists. }
    rewrite bind_Ok.
    match goal with
    | |- context [regenerate_angle_bracket ?t h b] =>
        pose proof (regenerate_rows t h b) as (Hn & Hw & Hall & Hnl);
        destruct (regenerate_angle_bracket t h b) as [new_lines new_w]
    end.
    cbn [fst snd] in *.
    do 4 eexists. split; [reflexivity|].
    split; [destruct (new_w <? l); lia|].
    split; [rewrite len_fmap; destruct (_ && _); rewrite ?len_fmap; unfold len; lia|].
    split; [|split; [|by right]].
    + apply Forall_fmap. destruct ((new_w <? l) && _) eqn:E2.
      * apply andb_prop in E2 as [E2 _]. rewrite E2.
        apply Forall_fmap. eapply Forall_impl; [exact Hall|].
        intros y Hy. unfold compose. rewrite len_ljust, len_app, len_spaces. cbv beta in Hy. lia.
      * eapply Forall_impl; [exact Hall|]. cbn. intros y Hy. rewrite len_ljust.
        destruct (new_w <? l) eqn:E3; lia.
    + apply Forall_fmap. destruct ((new_w <? l) && _).
      * apply Forall_fmap. eapply Forall_impl; [exact Hnl|]. intros y Hy. unfold compose.
        apply ljust_free; [done|]. rewrite not_elem_of_app. split; [by apply spaces_free|done].
      * eapply Forall_impl; [exact Hnl|]. cbn. intros y Hy. by apply ljust_free.
  - do 4 eexists. split; [reflexivity|]. do 4 (split; [done|]). by left.
Qed.

Lemma joined_height_pos (a b : record) :
  well_formed a -> Z.max (rb a) (rb b) < joined_height a b.
Proof. intros (Hb & _). unfold joined_height. lia. Qed.

Lemma len_lookup_total_le (l : Z) (lines : list pystr) (i : nat) :
  0 <= l -> Forall (fun x => len x <= l) lines -> len (lines !!! i) <= l.
Proof.
  intros Hl H. by apply (lookup_total_Forall (fun x => len x <= l)).
Qed.

Lemma len_if_lookup_le (c : bool) (l : Z) (lines : list pystr) (i : nat) :
  0 <= l -> Forall (fun x => len x <= l) lines ->
  len (if c then lines !!! i else []) <= l.
Proof.
  intros Hl H. destruct c; [by apply len_lookup_total_le|]. by change (len (@nil N)) with 0.
Qed.

(** The rows of [join_records a b] for operands that satisfy the
    invariant of the data model, in terms of the operands after the
    block that regenerates angle brackets. *)
Lemma join_records_rows_gen (a b : record) :
  well_formed a -> well_formed b ->
  let H := joined_height a b in
  let B := Z.max (rb a) (rb b) in
  exists lines1 l1 h1 b1 lines2 l2 h2 b2 lines2' rows,
    extend_angle H B (operand_of a) = Ok (lines1, l1, h1, b1)
    /\ extend_angle H B (operand_of b) = Ok (lines2, l2, h2, b2)
    /\ fill_baseline b2 l2 lines2 = Ok lines2'
    /\ join_records a b = Ok (mkrec H (l1 + l2) B (rsp a + rsp b) (join_with NL rows))
    /\ lines_of H (join_with NL rows) = rows
    /\ length rows = Z.to_nat H
    /\ 0 <= l1 /\ 0 <= l2
    /\ Forall (fun x => len x <= l1) lines1
    /\ Forall (fun x => len x <= l2) lines2'
    /\ (forall p : nat, (p < Z.to_nat H)%nat ->
          rows !! p =
            Some (ljust l1 (if bool_decide (B - b1 <= Z.of_nat p < B - b1 + h1)
                            then lines1 !!! Z.to_nat (Z.of_nat p - (B - b1)) else [])
                  ++ (if bool_decide (B - b2 <= Z.of_nat p < B - b2 + h2)
                      then lines2' !!! Z.to_nat (Z.of_nat p - (B - b2)) else []))).
Proof.
  intros Wa Wb H B.
  pose proof (joined_height_pos a b Wa) as HB. fold H B in HB.
  destruct Wa as (Hba & Hla & Fa). destruct Wb as (Hbb & Hlb & Fb).
  destruct (join_records_unfold a b ltac:(lia) ltac:(lia))
    as (lines1 & l1 & h1 & b1 & lines2 & l2 & h2 & b2 & lines2' & E1 & E2 & E3 & EJ).
  fold H B in E1, E2, EJ.
  destruct (extend_angle_rows H B (lines_of (eff_height a) (rs a)) (rl a) (eff_height a) (rb a))
    as (x1 & x2 & x3 & x4 & E1' & Hl1 & Hn1 & F1 & N1 & C1);
    [lia|lia|lia|apply len_lines_of|done|apply lines_of_free|].
  destruct (extend_angle_rows H B (lines_of (eff_height b) (rs b)) (rl b) (eff_height b) (rb b))
    as (y1 & y2 & y3 & y4 & E2' & Hl2 & Hn2 & F2 & N2 & C2);
    [lia|lia|lia|apply len_lines_of|done|apply lines_of_free|].
  unfold operand_of in E1, E2. rewrite E1 in E1'. rewrite E2 in E2'.
  inversion E1'; inversion E2'; subst x1 x2 x3 x4 y1 y2 y3 y4. clear E1' E2'.
  assert (0 <= h1 /\ 0 <= h2 /\ 0 <= b2) as (Hh1 & Hh2 & Hb2).
  { destruct C1 as [C1|[-> ->]]; [inversion C1; subst|];
      (destruct C2 as [C2|[-> ->]]; [inversion C2; subst|]); lia. }
  destruct (fill_baseline_ok b2 l2 lines2 Hb2) as (z & E3' & Hlen3 & _ & HP).
  rewrite E3 in E3'. inversion E3'; subst z. clear E3'.
  set (rows := place_right H B b2 l1 h2 lines2'
                 (pad_left l1 (place_left H B b1 l1 h1 lines1 (replicate (Z.to_nat H) [])))) in *.
  assert (Forall (fun x => len x <= l2) lines2') as F2'.
  { apply HP; [rewrite len_spaces; lia|done]. }
  assert (Forall (fun x => NL ∉ x) lines2') as N2'.
  { apply HP; [by apply spaces_free|done]. }
  assert (length rows = Z.to_nat H) as Hrows.
  { destruct (placed_row H B b1 l1 h1 b2 h2 lines1 lines2' 0 Hh1 Hh2) as [Hlen _]; [lia|].
    exact Hlen. }
  exists lines1, l1, h1, b1, lines2, l2, h2, b2, lines2', rows.
  do 4 (split; [done|]). split.
  { apply lines_of_joined; [lia|unfold len; lia|].
    subst rows. apply place_right_free; [done|]. apply pad_left_free.
    apply place_left_free; [done|]. apply Forall_replicate. apply not_elem_of_nil. }
  do 5 (split; [done|]).
  intros p Hp.
  destruct (placed_row H B b1 l1 h1 b2 h2 lines1 lines2' p Hh1 Hh2 Hp) as [_ Hrow].
  fold rows in Hrow. rewrite Hrow. clear Hrow. f_equal.
  set (X := if bool_decide (B - b1 <= Z.of_nat p < B - b1 + h1)
            then lines1 !!! Z.to_nat (Z.of_nat p - (B - b1)) else []).
  assert (len X <= l1) as HX by (by apply len_if_lookup_le).
  destruct (bool_decide (B - b2 <= Z.of_nat p < B - b2 + h2)); [|by rewrite app_nil_r].
  f_equal. rewrite slice_to_all by (rewrite len_ljust; lia).
  apply ljust_id. rewrite len_ljust. lia.
Qed.

Lemma fill_baseline_eq (b2 l2 : Z) (lines2 : list pystr) :
  0 <= b2 ->
  fill_baseline b2 l2 lines2 =
    Ok (if (b2 <? len lines2) && (len (lines2 !!! Z.to_nat b2) =? 0)
        then <[Z.to_nat b2 := spaces l2]> lines2 else lines2).
Proof.
  intros Hb. unfold fill_baseline. destruct (b2 <? len lines2) eqn:E; [|done].
  destruct (py_get_ok lines2 b2) as (x & -> & Hx); [lia|]. rewrite bind_Ok.
  rewrite (list_lookup_total_correct _ _ _ Hx). cbn [andb].
  destruct (len x =? 0); [|done]. apply py_set_ok. lia.
Qed.

(** X5. Joining keeps the invariant of the data model, also when an
    operand is regenerated as an angle bracket: for operands whose
    baseline is one of their rows and whose rows are not longer than
    their width, [join_records] returns a record of the joined height
    with exactly that many rows, its baseline among them, none of them
    longer than the width of the result. *)
Theorem join_records_well_formed (a b : record) :
  well_formed a -> well_formed b ->
  exists r, join_records a b = Ok r
    /\ well_formed r
    /\ rh r = joined_height a b
    /\ len (lines_of (rh r) (rs r)) = rh r.
Proof.
  intros Wa Wb.
  pose proof (joined_height_pos a b Wa) as HB.
  assert (0 <= Z.max (rb a) (rb b)) as HB0 by (destruct Wa; lia).
  destruct (join_records_rows_gen a b Wa Wb)
    as (lines1 & l1 & h1 & b1 & lines2 & l2 & h2 & b2 & lines2' & rows
        & _ & _ & _ & -> & Hlines & Hlen & Hl1 & Hl2 & F1 & F2 & Hrow).
  eexists. split; [reflexivity|]. cbn [rh rs].
  split; [|split; [done|rewrite Hlines; unfold len; lia]].
  unfold well_formed. rewrite eff_height_mkrec by lia. cbn [rb rl rs].
  split; [lia|]. split; [lia|]. rewrite Hlines.
  apply Forall_lookup. intros p x Hx.
  assert (p < Z.to_nat (joined_height a b))%nat as Hp.
  { rewrite <- Hlen. by eapply lookup_lt_Some. }
  rewrite (Hrow p Hp) in Hx. inversion Hx; subst x. clear Hx.
  rewrite len_app, len_ljust.
  pose proof (len_if_lookup_le
                (bool_decide (Z.max (rb a) (rb b) - b1 <= Z.of_nat p
                              < Z.max (rb a) (rb b) - b1 + h1))
                l1 lines1 (Z.to_nat (Z.of_nat p - (Z.max (rb a) (rb b) - b1))) Hl1 F1) as HX.
  pose proof (len_if_lookup_le
                (bool_decide (Z.max (rb a) (rb b) - b2 <= Z.of_nat p
                              < Z.max (rb a) (rb b) - b2 + h2))
                l2 lines2' (Z.to_nat (Z.of_nat p - (Z.max (rb a) (rb b) - b2))) Hl2 F2) as HY.
  lia.
Qed.

Lemma join_records_well_formed_witness :
  well_formed bra_record /\ well_formed tall_record
  /\ exists r, join_records bra_record tall_record = Ok r
       /\ well_formed r /\ rh r = 3 /\ len (lines_of (rh r) (rs r)) = 3.
Proof.
  destruct sample_records_well_formed as [Wa Wb].
  destruct (join_records_well_formed bra_record tall_record Wa Wb) as (r & E & W & Hh & Hn).
  split; [exact Wa|]. split; [exact Wb|].
  exists r. split; [exact E|]. split; [exact W|]. split; [exact Hh|].
  rewrite Hn. exact Hh.
Defined.

(** The rows of a join without regeneration, row by row. *)
Lemma join_records_plain (a b : record) :
  well_formed a -> well_formed b ->
  regenerated (joined_height a b) (operand_of a) = false ->
  regenerated (joined_height a b) (operand_of b) = false ->
  let B := Z.max (rb a) (rb b) in
  exists r, join_records a b = Ok r
    /\ rh r = joined_height a b /\ rl r = rl a + rl b /\ rb r = B
    /\ forall p, 0 <= p < rh r ->
         lines_of (rh r) (rs r) !!! Z.to_nat p =
           ljust (rl a) (row_at a (B - rb a) p)
           ++ (if (p =? B) && (len (row_at b (B - rb b) p) =? 0)
               then spaces (rl b) else row_at b (B - rb b) p).
Proof.
  intros Wa Wb Ra Rb B.
  destruct (join_records_rows_gen a b Wa Wb)
    as (lines1 & l1 & h1 & b1 & lines2 & l2 & h2 & b2 & lines2' & rows
        & E1 & E2 & E3 & -> & Hlines & Hlen & Hl1 & Hl2 & F1 & F2 & Hrow).
  fold B in E1, E2, Hrow.
  destruct Wa as (Hba & Hla & Fa). destruct Wb as (Hbb & Hlb & Fb).
  destruct (extend_angle_ok (joined_height a b) B
              (lines_of (eff_height a) (rs a)) (rl a) (eff_height a) (rb a))
    as (? & ? & ? & ? & E1' & _ & S1 & _); [lia|].
  destruct (extend_angle_ok (joined_height a b) B
              (lines_of (eff_height b) (rs b)) (rl b) (eff_height b) (rb b))
    as (? & ? & ? & ? & E2' & _ & S2 & _); [lia|].
  unfold operand_of in *. rewrite E1 in E1'. rewrite E2 in E2'.
  inversion E1'; inversion E2'; subst. clear E1' E2'.
  specialize (S1 Ra). specialize (S2 Rb). inversion S1; inversion S2; subst. clear S1 S2.
  rewrite fill_baseline_eq in E3 by lia. inversion E3 as [E3']. clear E3. subst lines2'.
  eexists. split; [reflexivity|]. cbn [rh rl rb rs]. do 3 (split; [done|]).
  intros p Hp. rewrite Hlines.
  rewrite list_lookup_total_alt, (Hrow (Z.to_nat p)) by lia. cbn [default from_option id].
  rewrite Z2Nat.id by lia. unfold row_at. f_equal.
  - f_equal. destruct (decide (B - rb a <= p < B - rb a + eff_height a)) as [Hin|Hout].
    + rewrite bool_decide_eq_true_2 by done.
      replace ((B - rb a <=? p) && (p <? B - rb a + eff_height a)) with true by lia. done.
    + rewrite bool_decide_eq_false_2 by done.
      replace ((B - rb a <=? p) && (p <? B - rb a + eff_height a)) with false by lia. done.
  - pose proof (len_lines_of (eff_height b) (rs b)) as Hn.
    replace (rb b <? len (lines_of (eff_height b) (rs b))) with true by lia. cbn [andb].
    destruct (decide (B - rb b <= p < B - rb b + eff_height b)) as [Hin|Hout].
    + rewrite bool_decide_eq_true_2 by done.
      replace ((B - rb b <=? p) && (p <? B - rb b + eff_height b)) with true by lia.
      destruct (Z.eqb_spec p B) as [->|Hne]; cbn [andb].
      * replace (B - (B - rb b)) with (rb b) by lia.
        destruct (len (lines_of (eff_height b) (rs b) !!! Z.to_nat (rb b)) =? 0); [|done].
        apply list_lookup_total_insert_eq. unfold len in Hn. lia.
      * destruct (len (lines_of (eff_height b) (rs b) !!! Z.to_nat (rb b)) =? 0); [|done].
        apply list_lookup_total_insert_ne. lia.
    + rewrite bool_decide_eq_false_2 by done.
      replace ((B - rb b <=? p) && (p <? B - rb b + eff_height b)) with false by lia.
      destruct (Z.eqb_spec p B) as [->|Hne]; [lia|done].
Qed.

(** X6. The rows of [join_records a b] when neither operand is
    regenerated as an angle bracket: the rows of [a] and [b] stand side
    by side with their baselines on the same row; the part of [a] is
    filled up to the width of [a] on every row, the part of [b] is its
    row as it is, empty above and below [b], and blanks of the width of
    [b] in place of an empty baseline row. *)
Theorem join_records_rows (a b : record) :
  well_formed a -> well_formed b ->
  regenerated (joined_height a b) (operand_of a) = false ->
  regenerated (joined_height a b) (operand_of b) = false ->
  let B := Z.max (rb a) (rb b) in
  exists r, join_records a b = Ok r
    /\ rh r = joined_height a b /\ rl r = rl a + rl b /\ rb r = B
    /\ forall p, 0 <= p < rh r ->
         lines_of (rh r) (rs r) !!! Z.to_nat p =
           ljust (rl a) (row_at a (B - rb a) p)
           ++ (if (p =? B) && (len (row_at b (B - rb b) p) =? 0)
               then spaces (rl b) else row_at b (B - rb b) p).
Proof. exact (join_records_plain a b). Qed.

Lemma join_records_rows_witness :
  well_formed tall_record /\ well_formed tall_record
  /\ exists r, join_records tall_record (string2record (py "x") false) = Ok r
       /\ lines_of (rh r) (rs r) = [py "a"; DASH :: py "x"; py "b"].
Proof.
  destruct sample_records_well_formed as [_ Wa].
  assert (well_formed (string2record (py "x") false)) as Wb.
  { vm_compute. split; [split; [discriminate|reflexivity]|]. split; [discriminate|].
    repeat (constructor; [discriminate|]). constructor. }
  destruct (join_records_rows tall_record (string2record (py "x") false) Wa Wb eq_refl eq_refl)
    as (r & E & Hh & _ & _ & Hrow).
  split; [exact Wa|]. split; [exact Wa|]. exists r. split; [exact E|].
  assert (Ok r = join_records tall_record (string2record (py "x") false)) as E'
    by (by rewrite E).
  vm_compute in E'. inversion E'. reflexivity.
Defined.

Lemma well_formed_empty : well_formed empty.
Proof.
  split; [cbn; lia|]. split; [cbn; lia|]. repeat constructor. by change (len (@nil N)) with 0.
Qed.

Lemma regenerated_full_height (h : Z) (lines : list pystr) (l b : Z) :
  regenerated h (lines, l, h, b) = false.
Proof. unfold regenerated. by replace (h <? h) with false by lia. Qed.

(** X7. The empty record is a unit of [join_records] up to padding: for
    a record [r] that satisfies the invariant of the data model, both
    [join_records r empty] and [join_records empty r] keep the width,
    the baseline and the count of expandable spaces of [r], and have the
    height of [r] (1 for a height of 0); on the left of the empty record
    every row of [r] is filled up to the width, on its right the rows
    are those of [r], with blanks in place of an empty baseline row. *)
Theorem join_records_empty (r : record) :
  well_formed r ->
  (exists r1, join_records r empty = Ok r1
     /\ rh r1 = eff_height r /\ rl r1 = rl r /\ rb r1 = rb r /\ rsp r1 = rsp r
     /\ forall p, 0 <= p < eff_height r ->
          lines_of (rh r1) (rs r1) !!! Z.to_nat p
          = ljust (rl r) (lines_of (eff_height r) (rs r) !!! Z.to_nat p))
  /\ (exists r2, join_records empty r = Ok r2
     /\ rh r2 = eff_height r /\ rl r2 = rl r /\ rb r2 = rb r /\ rsp r2 = rsp r
     /\ forall p, 0 <= p < eff_height r ->
          lines_of (rh r2) (rs r2) !!! Z.to_nat p
          = if (p =? rb r) && (len (lines_of (eff_height r) (rs r) !!! Z.to_nat p) =? 0)
            then spaces (rl r) else lines_of (eff_height r) (rs r) !!! Z.to_nat p).
Proof.
  intros W. pose proof W as (Hb & Hl & F).
  assert (joined_height r empty = eff_height r) as H1.
  { unfold joined_height. change (eff_height empty) with 1. change (rb empty) with 0. lia. }
  assert (joined_height empty r = eff_height r) as H2.
  { unfold joined_height. change (eff_height empty) with 1. change (rb empty) with 0. lia. }
  assert (forall h, regenerated h (operand_of empty) = false) as Rempty.
  { intros h. unfold regenerated, operand_of. change (rl empty) with 0.
    change (lines_of (eff_height empty) (rs empty)) with [@nil N].
    cbn [join_with]. unfold is_left_angle, is_right_angle, has_char.
    rewrite !bool_decide_eq_false_2 by apply not_elem_of_nil.
    by rewrite !andb_false_r. }
  assert (forall top p, row_at empty top p = []) as Hrowe.
  { intros top p. unfold row_at. destruct (_ && _); [|done].
    change (lines_of (eff_height empty) (rs empty)) with [@nil N].
    by destruct (Z.to_nat (p - top)) as [|[|?]]. }
  assert (forall top p, 0 <= p < eff_height r -> top = 0 ->
            row_at r top p = lines_of (eff_height r) (rs r) !!! Z.to_nat p) as Hrowr.
  { intros top p Hp ->. unfold row_at.
    replace ((0 <=? p) && (p <? 0 + eff_height r)) with true by lia.
    by replace (p - 0) with p by lia. }
  split.
  - destruct (join_records_plain r empty W well_formed_empty) as (r1 & E & Hh & Hw & Hbase & Hrow);
      [rewrite H1; apply regenerated_full_height|apply Rempty|].
    exists r1. split; [done|]. split; [congruence|].
    split; [rewrite Hw; change (rl empty) with 0; lia|].
    split; [rewrite Hbase; change (rb empty) with 0; lia|]. split.
    { destruct (join_records_unfold r empty ltac:(lia) ltac:(done))
        as (? & ? & ? & ? & ? & ? & ? & ? & ? & _ & _ & _ & E').
      rewrite E in E'. inversion E'. cbn [rsp]. change (rsp empty) with 0. lia. }
    intros p Hp. rewrite Hrow by (rewrite Hh, H1; lia).
    rewrite Hrowe. change (len (@nil N) =? 0) with true. rewrite andb_true_r.
    change (rl empty) with 0. change (spaces 0) with (@nil N).
    rewrite Hrowr by (change (rb empty) with 0; lia).
    destruct (p =? _); by rewrite app_nil_r.
  - destruct (join_records_plain empty r well_formed_empty W) as (r2 & E & Hh & Hw & Hbase & Hrow);
      [apply Rempty|rewrite H2; apply regenerated_full_height|].
    exists r2. split; [done|]. split; [congruence|].
    split; [rewrite Hw; change (rl empty) with 0; lia|].
    split; [rewrite Hbase; change (rb empty) with 0; lia|]. split.
    { destruct (join_records_unfold empty r ltac:(done) ltac:(lia))
        as (? & ? & ? & ? & ? & ? & ? & ? & ? & _ & _ & _ & E').
      rewrite E in E'. inversion E'. cbn [rsp]. change (rsp empty) with 0. lia. }
    intros p Hp. rewrite Hrow by (rewrite Hh, H2; lia).
    rewrite Hrowe. change (rl empty) with 0.
    change (ljust 0 []) with (@nil N). cbn [app].
    rewrite Hrowr by (change (rb empty) with 0; lia).
    change (rb empty) with 0. by replace (Z.max 0 (rb r)) with (rb r) by lia.
Qed.

Lemma join_records_empty_witness :
  well_formed tall_record
  /\ join_records tall_record empty = Ok tall_record
  /\ join_records empty tall_record = Ok tall_record
  /\ join_records empty (string2record (py "a b") false) = Ok (mkrec 1 3 0 1 (py "a b")).
Proof.
  destruct sample_records_well_formed as [_ W].
  destruct (join_records_empty tall_record W) as [(r1 & E1 & _) (r2 & E2 & _)].
  split; [exact W|]. split; [|split].
  - rewrite E1. f_equal. assert (Ok r1 = join_records tall_record empty) as E by (by rewrite E1).
    vm_compute in E. by inversion E.
  - rewrite E2. f_equal. assert (Ok r2 = join_records empty tall_record) as E by (by rewrite E2).
    vm_compute in E. by inversion E.
  - vm_compute. reflexivity.
Defined.

(** ** Opening and discarding a scope (stack.py) *)

Lemma py_get_last {A} (l : list A) (x : A) : last l = Some x -> py_get l (-1) = Ok x.
Proof.
  intros H. unfold py_get, py_pos. change (-1 <? 0) with true. cbv iota.
  assert (l ≠ []) as Hne by (intros ->; discriminate).
  assert (0 < length l)%nat by (destruct l; [done|cbn; lia]).
  replace (0 <=? len l + -1) with true by (unfold len; lia).
  rewrite last_lookup in H. unfold len.
  replace (Z.to_nat (Z.of_nat (length l) + -1)) with (Init.Nat.pred (length l)) by lia.
  by rewrite H.
Qed.

Lemma py_get_snoc {A} (l : list A) (x : A) : py_get (l ++ [x]) (-1) = Ok x.
Proof. apply py_get_last. apply last_snoc. Qed.

Lemma py_pop_snoc {A} (l : list A) (x : A) : py_pop (l ++ [x]) = Ok l.
Proof.
  unfold py_pop. destruct (l ++ [x]) eqn:E; [by destruct l|]. rewrite <- E.
  rewrite length_app. cbn [length]. replace (length l + 1 - 1)%nat with (length l) by lia.
  by rewrite take_app_length.
Qed.

Lemma py_get_nat {A} (l : list A) (i : Z) (x : A) :
  0 <= i -> l !! Z.to_nat i = Some x -> py_get l i = Ok x.
Proof.
  intros Hi H. unfold py_get, py_pos. replace (i <? 0) with false by lia.
  pose proof (lookup_lt_Some _ _ _ H). replace (i <? len l) with true by (unfold len; lia).
  by rewrite H.
Qed.

(** X8. A scope opened by [start] and closed by [finish_ignore]: when
    the chunk of the innermost scope does not start after the last chunk
    and the last chunk starts inside the buffer, [start] returns, and
    whatever has been appended to the buffer and to the chunk boundaries
    since, [finish_ignore] returns with the buffer and the stacks of
    levels, waits, actions and token modes as they were before [start];
    the chunk boundaries are not restored. *)
Theorem start_then_finish_ignore (event ev : waitv) (act : pystr) (st : State)
    (lv c cl : Z) (more : list record) (cs : list Z) :
  last (level st) = Some lv -> 0 <= lv ->
  chunks st !! Z.to_nat lv = Some c ->
  last (chunks st) = Some cl ->
  c <= cl <= len (out st) ->
  exists st1 st3,
    start event act st = Ok st1
    /\ finish_ignore ev (set_out (out st1 ++ more) (set_chunks (chunks st1 ++ cs) st1)) = Ok st3
    /\ out st3 = out st /\ level st3 = level st /\ wait st3 = wait st
    /\ action st3 = action st /\ tokenByToken st3 = tokenByToken st
    /\ chunks st3 = chunks st1 ++ cs
    /\ (chunks st1 = chunks st \/ chunks st1 = chunks st ++ [len (out st)]).
Proof.
  intros Hlv Hlv0 Hc Hcl Hle.
  unfold start. rewrite (py_get_last _ _ Hlv), bind_Ok, (py_get_nat _ _ _ Hlv0 Hc), bind_Ok,
    (py_get_last _ _ Hcl), bind_Ok.
  set (st' := if (c <=? len (out st) - 1) && (cl <=? len (out st) - 1)
              then set_chunks (chunks st ++ [len (out st)]) st else st).
  assert (exists k, last (chunks st') = Some k /\ k = len (out st)
                    /\ out st' = out st /\ level st' = level st /\ wait st' = wait st
                    /\ action st' = action st /\ tokenByToken st' = tokenByToken st
                    /\ (chunks st' = chunks st \/ chunks st' = chunks st ++ [len (out st)]))
    as (k & Hk & -> & Ho & Hl & Hw & Ha & Ht & Hch).
  { subst st'. destruct ((c <=? len (out st) - 1) && (cl <=? len (out st) - 1)) eqn:E.
    - exists (len (out st)). cbn. rewrite last_snoc. repeat split; auto.
    - exists cl. assert (cl = len (out st)) by (apply andb_false_iff in E as [E|E]; lia).
      repeat split; auto. }
  eexists. eexists. split; [reflexivity|].
  unfold finish_ignore. cbn [level set_out set_chunks set_action set_wait set_tokenByToken
                             set_level chunks out action wait tokenByToken].
  rewrite Hl, Ho, Hw, Ha, Ht.
  assert (1 < len (level st ++ [len (chunks st') - 1])) as Hdepth.
  { rewrite len_app. assert (level st ≠ []) as Hnl by (intros E; by rewrite E in Hlv).
    pose proof (len_pos_of_not_nil _ Hnl). unfold len in *. cbn [length]. lia. }
  replace (len (level st ++ [len (chunks st') - 1]) <=? 1) with false by lia.
  rewrite py_get_snoc, bind_Ok.
  assert (chunks st' ≠ []) as Hne by (intros E; by rewrite E in Hk).
  pose proof (len_pos_of_not_nil _ Hne) as Hpos.
  rewrite (py_get_nat _ (len (chunks st') - 1) (len (out st))); [|lia|].
  2:{ rewrite lookup_app_l by (unfold len in *; lia). rewrite last_lookup in Hk.
      unfold len. by replace (Z.to_nat (Z.of_nat (length (chunks st')) - 1))
                     with (Init.Nat.pred (length (chunks st'))) by lia. }
  rewrite bind_Ok. unfold pop_frame.
  cbn [level set_out set_chunks set_action set_wait set_tokenByToken
         set_level chunks out action wait tokenByToken].
  rewrite !py_pop_snoc, !bind_Ok.
  cbn [level set_out set_chunks set_action set_wait set_tokenByToken
         set_level chunks out action wait tokenByToken].
  split; [reflexivity|]. split.
  { unfold slice_to, clamp. pose proof (len_nonneg (out st)).
    replace (len (out st) <? 0) with false by lia. rewrite len_app.
    pose proof (len_nonneg more).
    replace (Z.min (len (out st)) (len (out st) + len more)) with (len (out st)) by lia.
    unfold len. rewrite Nat2Z.id. by rewrite take_app_length. }
  do 5 (split; [done|]). done.
Qed.

Lemma start_then_finish_ignore_witness :
  last (level after_text) = Some 0 /\ chunks after_text !! 0%nat = Some 0
  /\ last (chunks after_text) = Some 1 /\ 0 <= 1 <= len (out after_text)
  /\ exists st1 st3,
       start (WI 1) (py "f_discard") after_text = Ok st1
       /\ finish_ignore (WI 1)
            (set_out (out st1 ++ [string2record (py "x") false]) (set_chunks (chunks st1 ++ []) st1))
          = Ok st3
       /\ out st3 = out after_text /\ level st3 = [0] /\ chunks st3 = [0; 1; 2].
Proof.
  assert (0 <= 1 <= len (out after_text)) as Hle by (vm_compute; split; discriminate).
  destruct (start_then_finish_ignore (WI 1) (WI 1) (py "f_discard") after_text 0 0 1
              [string2record (py "x") false] [] eq_refl (Z.le_refl 0) eq_refl eq_refl Hle)
    as (st1 & st3 & E1 & E3 & Ho & Hl & _ & _ & _ & Hc & _).
  do 3 (split; [reflexivity|]). split; [exact Hle|].
  exists st1, st3. split; [exact E1|]. split; [exact E3|]. split; [exact Ho|].
  split; [exact Hl|]. rewrite Hc.
  assert (Ok st1 = start (WI 1) (py "f_discard") after_text) as E by (by rewrite E1).
  vm_compute in E. inversion E. reflexivity.
Defined.

(** ** [\noindent] after the paragraph indentation (commands.py) *)

(** X9. When the buffer holds the paragraph indentation and nothing
    else, [noindent] removes it together with the only chunk boundary,
    and the list of chunk boundaries is left empty: the next record that
    is committed and fits the line raises [IndexError] in [commit], at
    [state.chunks[-1]].  A paragraph that starts with [\noindent] and a
    letter takes this path. *)
Theorem noindent_then_commit_raises (cfg : Config) (fuel : nat) (st : State)
    (c : Z) (rec : record) :
  out st = [indent_record] -> chunks st = [c] ->
  curlength st + get_length rec <= linelength cfg ->
  (exists st', noindent (commit cfg fuel) st = Ok st'
     /\ out st' = [] /\ chunks st' = [] /\ level st' = level st
     /\ curlength st' = curlength st
     /\ commit cfg (S fuel) rec st' = Raise IndexError)
  /\ paragraph default_config 50 50 (py "\noindent x") init_state = Raise IndexError.
Proof.
  intros Ho Hc Hfit. split; [|vm_compute; reflexivity].
  unfold noindent. rewrite Ho, Hc. change (len [indent_record] =? 1) with true.
  change (len [c] =? 1) with true. cbn [andb lookup list_lookup].
  rewrite bool_decide_eq_true_2 by done. unfold pop_chunk_and_out. rewrite Ho, Hc.
  change (py_pop [c]) with (Ok (@nil Z) : M (list Z)).
  change (py_pop [indent_record]) with (Ok (@nil record) : M (list record)).
  rewrite !bind_Ok. eexists. split; [reflexivity|].
  cbn [out chunks level curlength set_out set_chunks]. do 4 (split; [done|]).
  cbn [commit]. unfold commit_body.
  cbn [out chunks level curlength set_out set_chunks].
  destruct (len (level st) =? 1).
  - replace (linelength cfg <? curlength st + get_length rec) with false by lia.
    reflexivity.
  - reflexivity.
Qed.

Lemma noindent_then_commit_raises_witness :
  out (set_curlength 5 (set_out [indent_record] init_state)) = [indent_record]
  /\ chunks (set_curlength 5 (set_out [indent_record] init_state)) = [0]
  /\ 5 + 1 <= linelength default_config
  /\ exists st', noindent (commit default_config 9)
                   (set_curlength 5 (set_out [indent_record] init_state)) = Ok st'
       /\ commit default_config 10 (string2record (py "x") false) st' = Raise IndexError.
Proof.
  assert (5 + 1 <= linelength default_config) as Hfit by (cbn; lia).
  destruct (noindent_then_commit_raises default_config 9
              (set_curlength 5 (set_out [indent_record] init_state)) 0
              (string2record (py "x") false) eq_refl eq_refl Hfit)
    as [(st' & E & _ & _ & _ & _ & Hraise) _].
  do 2 (split; [reflexivity|]). split; [exact Hfit|].
  exists st'. split; [exact E|exact Hraise].
Defined.

(** ** Printing (output.py) *)

Lemma lstrip_drop (s : pystr) :
  exists n : nat, (n <= length s)%nat /\ lstrip s = drop n s
    /\ forallb is_space (take n s) = true /\ leading s = Z.of_nat n.
Proof.
  induction s as [|x r (n & Hn & Hd & Hf & Hl)].
  - exists 0%nat. by cbn.
  - cbn [lstrip]. destruct (is_space x) eqn:E.
    + exists (S n). split; [cbn; lia|]. split; [done|]. split; [cbn; by rewrite E|].
      unfold leading in *. cbn [lstrip]. rewrite E. unfold len in *. cbn [length]. lia.
    + exists 0%nat. split; [lia|]. split; [done|]. split; [done|].
      unfold leading. cbn [lstrip]. rewrite E. lia.
Qed.

Lemma lstrip_fix (s : pystr) :
  lstrip s = s <-> match s with c :: _ => is_space c = false | [] => True end.
Proof.
  destruct s as [|c r]; [done|]. cbn [lstrip]. destruct (is_space c) eqn:E; [|done].
  split; [|done]. intros H. destruct (lstrip_drop r) as (n & Hn & Hd & _).
  apply (f_equal length) in H. rewrite Hd, length_drop in H. cbn in H. lia.
Qed.

Lemma lstrip_idem (s : pystr) : lstrip (lstrip s) = lstrip s.
Proof.
  induction s as [|x r IH]; [done|]. cbn [lstrip]. destruct (is_space x) eqn:E; [done|].
  cbn [lstrip]. by rewrite E.
Qed.

Lemma rstrip_idem (s : pystr) : rstrip (rstrip s) = rstrip s.
Proof. unfold rstrip. by rewrite reverse_involutive, lstrip_idem. Qed.

Lemma rstrip_fix (s : pystr) :
  rstrip s = s <-> match last s with Some c => is_space c = false | None => True end.
Proof.
  unfold rstrip. rewrite <- (reverse_involutive s) at 2 3.
  rewrite last_reverse.
  split.
  - intros H. apply (f_equal reverse) in H. rewrite !reverse_involutive in H.
    apply lstrip_fix in H. by destruct (reverse s).
  - intros H. f_equal. apply lstrip_fix. by destruct (reverse s).
Qed.

Lemma rstrip_free (c : char) (s : pystr) : c ∉ s -> c ∉ rstrip s.
Proof.
  intros H Hin. apply H. unfold rstrip in Hin. rewrite elem_of_reverse in Hin.
  destruct (lstrip_drop (reverse s)) as (n & _ & Hd & _). rewrite Hd in Hin.
  apply elem_of_reverse. by eapply subseteq_drop.
Qed.

Lemma foldl_min_le (a : Z) (l : list Z) :
  foldl Z.min a l <= a /\ Forall (fun x => foldl Z.min a l <= x) l
  /\ (foldl Z.min a l = a \/ foldl Z.min a l ∈ l).
Proof.
  revert a. induction l as [|x l IH]; intros a; cbn [foldl].
  - split; [lia|]. split; [constructor|by left].
  - destruct (IH (Z.min a x)) as (H1 & H2 & H3). split; [lia|]. split.
    + constructor; [lia|done].
    + destruct H3 as [H3|H3]; [|right; by right].
      destruct (Z.min_spec a x) as [[_ E]|[_ E]].
      * left. by rewrite H3.
      * right. rewrite H3, E. by left.
Qed.

Lemma last_drop_lt {A} (n : nat) (l : list A) : (n < length l)%nat -> last (drop n l) = last l.
Proof.
  intros H. rewrite !last_lookup, length_drop, lookup_drop. f_equal. lia.
Qed.

Lemma forallb_take_le {A} (f : A -> bool) (m n : nat) (l : list A) :
  (m <= n)%nat -> forallb f (take n l) = true -> forallb f (take m l) = true.
Proof.
  intros Hmn H. rewrite forallb_forall in *. intros x Hx. apply H.
  apply list_elem_of_In. apply list_elem_of_In in Hx.
  replace m with (min m n) in Hx by lia. rewrite <- take_take in Hx.
  by eapply subseteq_take.
Qed.

(** A line that is kept by [printrecord]: its leading white space ends
    before its last character. *)
Lemma kept_line (k : pystr) :
  k <> [] -> rstrip k = k ->
  exists n : nat, (n < length k)%nat /\ leading k = Z.of_nat n /\ lstrip k = drop n k
    /\ forallb is_space (take n k) = true.
Proof.
  intros Hne Hr. destruct (lstrip_drop k) as (n & Hn & Hd & Hf & Hl).
  exists n. repeat split; try done.
  destruct (decide (n = length k)) as [->|]; [|lia].
  rewrite firstn_all in Hf. apply rstrip_fix in Hr.
  destruct (last k) as [c|] eqn:E; [|by apply last_None in E].
  rewrite forallb_forall in Hf. rewrite Hf in Hr; [done|].
  apply list_elem_of_In. rewrite last_lookup in E. by eapply list_elem_of_lookup_2.
Qed.

(** X10. [printrecord] prints nothing for a record whose lines are all
    blank.  Otherwise it prints one text and changes nothing else; the
    lines of that text are the lines of the record that are not blank,
    without their trailing white space and without their first [m]
    characters, where these [m] characters are white space on every
    line: no printed line is empty or ends in white space, and at least
    one printed line starts in the first column. *)
Theorem printrecord_output (rec : record) (st : State) :
  let K := rstrip <$> filter (fun line => rstrip line ≠ []) (split_on NL (rs rec)) in
  (K = [] -> printrecord rec st = st)
  /\ (K <> [] ->
      exists (m : nat) (text : pystr),
        printrecord rec st = set_stdout (stdout st ++ [text]) st
        /\ split_on NL text = drop m <$> K
        /\ Forall (fun k => (m <= length k)%nat /\ forallb is_space (take m k) = true) K
        /\ Forall (fun l => l <> [] /\ rstrip l = l) (drop m <$> K)
        /\ Exists (fun l => lstrip l = l) (drop m <$> K)).
Proof.
  intros K. split.
  - intros HK. unfold printrecord. fold K. by rewrite HK.
  - intros HK.
    assert (Forall (fun k => k <> [] /\ rstrip k = k /\ (NL ∉ k)) K) as HKp.
    { subst K. apply Forall_fmap. apply Forall_forall. intros line Hin.
      apply list_elem_of_filter in Hin as [Hnb Hin]. unfold compose.
      split; [done|]. split; [apply rstrip_idem|]. apply rstrip_free.
      clear Hnb. revert line Hin. apply Forall_forall. apply split_on_free. }
    unfold printrecord. fold K. destruct K as [|x r] eqn:EK; [done|]. clear HK.
    set (mz := foldl Z.min (leading x) (leading <$> r)).
    destruct (foldl_min_le (leading x) (leading <$> r)) as (Hle & Hall & Hatt). fold mz in Hle, Hall, Hatt.
    assert (exists k0, k0 ∈ x :: r /\ mz = leading k0) as (k0 & Hk0 & Hmz).
    { destruct Hatt as [E|E]; [exists x; split; [apply elem_of_cons; by left|done]|].
      apply list_elem_of_fmap in E as (k0 & E & Hin). exists k0.
      split; [apply elem_of_cons; by right|done]. }
    assert (Forall (fun k => mz <= leading k) (x :: r)) as Hmin.
    { constructor; [done|]. apply Forall_forall. intros k Hk.
      rewrite Forall_forall in Hall. apply Hall. apply list_elem_of_fmap. by exists k. }
    assert (0 <= mz) as Hmz0.
    { rewrite Hmz. destruct (lstrip_drop k0) as (n & _ & _ & _ & ->). lia. }
    exists (Z.to_nat mz).
    assert ((if 0 <? mz
             then (fun line => if mz <=? len line then slice_from mz line else line) <$> x :: r
             else x :: r) = drop (Z.to_nat mz) <$> x :: r) as ->.
    { destruct (Z.ltb_spec 0 mz) as [Hpos|Hz].
      - apply Forall_fmap_ext_1. eapply Forall_impl; [exact Hmin|]. cbn. intros k Hk.
        destruct (lstrip_drop k) as (n & Hn & _ & _ & Hl).
        replace (mz <=? len k) with true by (unfold len; lia).
        unfold slice_from, clamp. replace (mz <? 0) with false by lia.
        f_equal. unfold len. lia.
      - replace (Z.to_nat mz) with 0%nat by lia. symmetry. apply list_fmap_id. }
    eexists. split; [reflexivity|].
    assert (Forall (fun k => (Z.to_nat mz < length k)%nat
                             /\ forallb is_space (take (Z.to_nat mz) k) = true
                             /\ (NL ∉ k) /\ rstrip k = k) (x :: r)) as Hfacts.
    { apply Forall_forall. intros k Hk.
      pose proof (proj1 (Forall_forall _ _) HKp k Hk) as (Hne & Hr & Hnl).
      pose proof (proj1 (Forall_forall _ _) Hmin k Hk) as Hm. cbv beta in Hm.
      destruct (kept_line k Hne Hr) as (n & Hn & Hl & _ & Hf).
      split; [lia|]. split; [|done]. eapply forallb_take_le; [|exact Hf]. lia. }
    split; [|split; [|split]].
    + apply split_join; [done|]. apply Forall_fmap. eapply Forall_impl; [exact Hfacts|].
      cbn. intros k (_ & _ & Hnl & _) Hin. apply Hnl. by eapply subseteq_drop.
    + eapply Forall_impl; [exact Hfacts|]. cbn. intros k (Hlt & Hf & _). split; [lia|done].
    + apply Forall_fmap. eapply Forall_impl; [exact Hfacts|]. cbn.
      intros k (Hlt & _ & _ & Hr). split.
      * intros E. apply (f_equal length) in E. rewrite length_drop in E. cbn in E. lia.
      * apply rstrip_fix. rewrite last_drop_lt by done. by apply rstrip_fix.
    + apply Exists_fmap. apply Exists_exists. exists k0. split; [done|]. cbn.
      pose proof (proj1 (Forall_forall _ _) HKp k0 Hk0) as (Hne & Hr & _).
      destruct (kept_line k0 Hne Hr) as (n & _ & Hl & Hd & _).
      rewrite Hmz, Hl, Nat2Z.id, <- Hd. apply lstrip_idem.
Qed.

(** ** Flushing the buffer (output.py) *)

Lemma join_all_ok (recs : list record) :
  recs <> [] -> Forall (fun r => 0 <= rb r) recs ->
  exists r, join_all recs = Ok r /\ 0 <= rb r.
Proof.
  intros Hne H. destruct recs as [|x rest]; [done|]. clear Hne.
  inversion H as [|? ? Hx Hrest]; subst. clear H. cbn [join_all].
  revert x Hx. induction rest as [|y rest IH]; intros x Hx; cbn [foldl].
  - by exists x.
  - inversion Hrest; subst. rewrite bind_Ok.
    destruct (join_records_ok x y) as (r & -> & Hr); [done..|]. by apply IH.
Qed.

Lemma expand_records_Forall (P : record -> Prop) (fr re_val : Z) (recs : list record) :
  (forall s, P (string2record s false)) -> Forall P recs ->
  Forall P (expand_records fr re_val recs)
  /\ length (expand_records fr re_val recs) = length recs.
Proof.
  intros Hs H. unfold expand_records.
  assert (forall acc c, Forall P acc ->
            Forall P (fst (foldl (fun acc r =>
                if rh r =? 0
                then let '(s, c') := sub_spaces fr re_val (rs r) (snd acc) in
                     (fst acc ++ [string2record s false], c')
                else (fst acc ++ [r], snd acc)) (acc, c) recs))
            /\ length (fst (foldl (fun acc r =>
                if rh r =? 0
                then let '(s, c') := sub_spaces fr re_val (rs r) (snd acc) in
                     (fst acc ++ [string2record s false], c')
                else (fst acc ++ [r], snd acc)) (acc, c) recs))
               = (length acc + length recs)%nat) as Hgen.
  { induction H as [|r recs Hr Hrecs IH]; intros acc c Hacc; cbn [foldl fst snd].
    - split; [done|cbn; lia].
    - destruct (rh r =? 0).
      + destruct (sub_spaces fr re_val (rs r) c) as [s c'].
        destruct (IH (acc ++ [string2record s false]) c') as [F L].
        { apply Forall_app. split; [done|]. by constructor. }
        split; [done|]. rewrite L, length_app. cbn. lia.
      + destruct (IH (acc ++ [r]) c) as [F L].
        { apply Forall_app. split; [done|]. by constructor. }
        split; [done|]. rewrite L, length_app. cbn. lia. }
  destruct (Hgen [] exp_sp_maker) as [F L]; [constructor|]. by split.
Qed.

Lemma justify_Forall (cfg : Config) (P : record -> Prop) (force : bool) (l : Z)
    (recs : list record) :
  (forall s, P (string2record s false)) -> Forall P recs ->
  Forall P (justify cfg force l recs) /\ length (justify cfg force l recs) = length recs.
Proof.
  intros Hs H. unfold justify.
  repeat match goal with |- context [if ?c then _ else _] => destruct c end;
    try (by split). by apply expand_records_Forall.
Qed.

(** [do_print] with no scope open and a buffer that is not empty. *)
Lemma do_print_top_level (cfg : Config) (force : bool) (st : State) (r : record) :
  len (level st) <= 1 -> out st <> [] ->
  join_all (justify cfg force (total_length (out st)) (out st)) = Ok r ->
  do_print cfg force st
  = Ok (set_chunks [0] (set_out [] (set_curlength 0 (printrecord r st)))).
Proof.
  intros Hlev Hne E. unfold do_print. replace (1 <? len (level st)) with false by lia.
  rewrite bind_Ok. pose proof (len_pos_of_not_nil _ Hne) as Hpos.
  replace (len (out st) - 1 <? 0) with false by lia.
  replace (len (out st) <? len (out st) - 1 + 1) with false by lia.
  replace (Z.to_nat (len (out st) - 1 + 1)) with (length (out st)) by (unfold len; lia).
  rewrite firstn_all, E, bind_Ok. cbv zeta.
  assert (out (set_curlength 0 (printrecord r st)) = out st) as Ho.
  { unfold printrecord. by repeat match goal with |- context [match ?x with _ => _ end] =>
                                  destruct x end. }
  rewrite Ho. replace (len (out st) - 1 + 1 <? len (out st)) with false by lia.
  cbn [level set_out]. change (level (set_curlength 0 (printrecord r st)))
    with (level (printrecord r st)).
  assert (level (printrecord r st) = level st) as Hl'.
  { unfold printrecord. by repeat match goal with |- context [match ?x with _ => _ end] =>
                                  destruct x end. }
  rewrite Hl'. by replace (1 <? len (level st)) with false by lia.
Qed.

(** X11. [do_print] with no scope open: on an empty buffer it does
    nothing; on a buffer whose records have baselines of at least 0 it
    returns, prints the join of the justified records by one call of
    [printrecord], and leaves the buffer empty, the line length 0 and
    the chunk boundaries [[0]]. *)
Theorem do_print_flushes (cfg : Config) (force : bool) (st : State) :
  len (level st) <= 1 ->
  Forall (fun r => 0 <= rb r) (out st) ->
  (out st = [] -> do_print cfg force st = Ok st)
  /\ (out st <> [] ->
      exists r,
        join_all (justify cfg force (total_length (out st)) (out st)) = Ok r
        /\ do_print cfg force st
           = Ok (set_chunks [0] (set_out [] (set_curlength 0 (printrecord r st))))).
Proof.
  intros Hlev Hb. split.
  - intros E. unfold do_print. replace (1 <? len (level st)) with false by lia.
    rewrite bind_Ok, E. reflexivity.
  - intros Hne.
    destruct (justify_Forall cfg (fun r => 0 <= rb r) force (total_length (out st)) (out st))
      as [F L]; [done|done|].
    destruct (join_all_ok (justify cfg force (total_length (out st)) (out st))) as (r & E & _);
      [|done|].
    { intros E. rewrite E in L. destruct (out st); [done|discriminate]. }
    exists r. split; [done|]. by apply do_print_top_level.
Qed.

Lemma do_print_flushes_witness :
  len (level after_text) <= 1
  /\ Forall (fun r => 0 <= rb r) (out after_text)
  /\ exists st', do_print default_config true after_text = Ok st'
       /\ out st' = [] /\ chunks st' = [0] /\ curlength st' = 0
       /\ stdout st' = [py "a"].
Proof.
  assert (len (level after_text) <= 1) as Hlev by (vm_compute; discriminate).
  assert (Forall (fun r => 0 <= rb r) (out after_text)) as Hb.
  { repeat (constructor; [vm_compute; discriminate|]). constructor. }
  destruct (do_print_flushes default_config true after_text Hlev Hb) as [_ H].
  destruct H as (r & Hr & E); [discriminate|].
  split; [exact Hlev|]. split; [exact Hb|].
  eexists. split; [exact E|]. do 3 (split; [reflexivity|]).
  assert (Ok r = join_all (justify default_config true (total_length (out after_text))
                             (out after_text))) as E' by (by rewrite Hr).
  vm_compute in E'. inversion E'. vm_compute. reflexivity.
Defined.

(** ** Justification (output.py) *)

Lemma filter_spaces (n : Z) : filter (fun c => c <> SP) (spaces n) = [].
Proof.
  unfold spaces, rep. induction (Z.to_nat n) as [|k IH]; [done|].
  cbn [replicate]. rewrite filter_cons_False; [done|]. intros H. by apply H.
Qed.

Lemma sub_spaces_filter (fr re_val : Z) (s acc : pystr) (c : Z * Z) :
  filter (fun x => x <> SP)
    (fst (foldl (fun acc x =>
                   if N.eqb x SP
                   then let '(r, c') := exp_sp fr re_val (snd acc) in (fst acc ++ r, c')
                   else (fst acc ++ [x], snd acc))
                (acc, c) s))
  = filter (fun x => x <> SP) acc ++ filter (fun x => x <> SP) s.
Proof.
  revert acc c. induction s as [|x s IH]; intros acc c; cbn [foldl fst snd].
  - by rewrite app_nil_r.
  - destruct (N.eqb_spec x SP) as [->|Hne].
    + unfold exp_sp. cbv zeta. cbn [fst snd]. rewrite IH, filter_app, filter_spaces, app_nil_r.
      rewrite filter_cons_False; [done|]. intros H. by apply H.
    + rewrite IH, filter_app. rewrite (filter_cons_True _ x s) by done.
      cbn [filter]. rewrite filter_cons_True by done. rewrite filter_nil.
      by rewrite <- app_assoc.
Qed.

Lemma expand_records_Forall2 (fr re_val : Z) (recs : list record) :
  Forall2 (fun r r' => rh r' = rh r /\ (rh r <> 0 -> r' = r)
                       /\ filter (fun c => c <> SP) (rs r') = filter (fun c => c <> SP) (rs r))
          recs (expand_records fr re_val recs).
Proof.
  unfold expand_records.
  assert (forall acc0 acc c,
            Forall2 (fun r r' => rh r' = rh r /\ (rh r <> 0 -> r' = r)
                       /\ filter (fun c => c <> SP) (rs r') = filter (fun c => c <> SP) (rs r))
                    acc0 acc ->
            Forall2 (fun r r' => rh r' = rh r /\ (rh r <> 0 -> r' = r)
                       /\ filter (fun c => c <> SP) (rs r') = filter (fun c => c <> SP) (rs r))
                    (acc0 ++ recs)
                    (fst (foldl (fun acc r =>
                            if rh r =? 0
                            then let '(s, c') := sub_spaces fr re_val (rs r) (snd acc) in
                                 (fst acc ++ [string2record s false], c')
                            else (fst acc ++ [r], snd acc)) (acc, c) recs))) as Hgen.
  { induction recs as [|r recs IH]; intros acc0 acc c Hacc; cbn [foldl fst snd].
    - by rewrite app_nil_r.
    - replace (acc0 ++ r :: recs) with ((acc0 ++ [r]) ++ recs) by (by rewrite <- app_assoc).
      destruct (Z.eqb_spec (rh r) 0) as [Hz|Hnz].
      + destruct (sub_spaces fr re_val (rs r) c) as [s c'] eqn:E.
        apply IH. apply Forall2_app; [done|]. constructor; [|constructor].
        cbn [string2record rh rs]. split; [done|]. split; [done|].
        replace s with (fst (sub_spaces fr re_val (rs r) c)) by (by rewrite E).
        unfold sub_spaces. by rewrite sub_spaces_filter.
      + apply IH. apply Forall2_app; [done|]. constructor; [|constructor]. done. }
  apply (Hgen [] [] exp_sp_maker). constructor.
Qed.

Lemma count_expandable_nonneg (recs : list record) : 0 <= count_expandable recs.
Proof.
  induction recs as [|r recs IH]; [done|]. rewrite count_expandable_cons.
  destruct (rh r =? 0); [|lia]. unfold count_char. pose proof (len_nonneg (filter (fun x => x = SP) (rs r))).
  lia.
Qed.

(** X12. Justification only inserts blanks, and never overfills the
    line: [justify] returns as many records as it is given, keeps the
    records of a height other than 0 as they are and the characters
    other than blanks of every record in their order; and when the
    records fit the line (the width of a text record being the length
    of its text), so do the justified ones. *)
Theorem justify_only_adds_blanks (cfg : Config) (force : bool) (l : Z) (recs : list record) :
  Forall2 (fun r r' => rh r' = rh r /\ (rh r <> 0 -> r' = r)
                       /\ filter (fun c => c <> SP) (rs r') = filter (fun c => c <> SP) (rs r))
          recs (justify cfg force l recs)
  /\ (Forall plain_text recs -> total_length recs <= linelength cfg ->
      total_length (justify cfg force (total_length recs) recs) <= linelength cfg).
Proof.
  assert (Forall2 (fun r r' => rh r' = rh r /\ (rh r <> 0 -> r' = r)
                       /\ filter (fun c => c <> SP) (rs r') = filter (fun c => c <> SP) (rs r))
                  recs recs) as Hid.
  { apply Forall2_same_length_lookup_2; [done|]. intros i x y Hx Hy.
    rewrite Hx in Hy. by inversion Hy. }
  split.
  - unfold justify.
    repeat match goal with |- context [if ?c then _ else _] => destruct c end; try done.
    apply expand_records_Forall2.
  - intros Hplain Hfit. destruct force.
    { unfold justify. cbn [negb andb]. done. }
    destruct (opt_ragged cfg) eqn:Er.
    { unfold justify. rewrite Er. cbn [negb]. rewrite andb_false_r.
      by destruct (_ && _). }
    destruct (Z.eq_dec (total_length recs) (linelength cfg)) as [Heq|Hneq].
    { unfold justify. replace (0 <? linelength cfg - total_length recs) with false by lia.
      cbn [andb]. by destruct (_ && _). }
    pose proof (count_expandable_nonneg recs) as Hexp.
    destruct (Z.eq_dec (count_expandable recs) 0) as [Hz|Hnz].
    { unfold justify. rewrite Hz. cbn [Z.eqb negb]. by repeat destruct (_ && _). }
    rewrite justify_total_length by (try done; lia).
    pose proof (Z.mod_pos_bound (linelength cfg - total_length recs) (count_expandable recs)).
    lia.
Qed.

Lemma justify_only_adds_blanks_witness :
  Forall plain_text [short_line] /\ total_length [short_line] <= linelength (mkConfig 13 400 false true false true)
  /\ justify (mkConfig 13 400 false true false true) false 10 [short_line]
     = [string2record (py "aaa  bb  cc  ") false]
  /\ total_length (justify (mkConfig 13 400 false true false true) false
                     (total_length [short_line]) [short_line]) <= 13.
Proof.
  assert (Forall plain_text [short_line]) as Hp by (by repeat constructor).
  assert (total_length [short_line] <= linelength (mkConfig 13 400 false true false true))
    as Hfit by (vm_compute; discriminate).
  destruct (justify_only_adds_blanks (mkConfig 13 400 false true false true) false 10 [short_line])
    as [_ H].
  split; [exact Hp|]. split; [exact Hfit|]. split; [vm_compute; reflexivity|].
  exact (H Hp Hfit).
Defined.

(** ** Breaking an overlong record (output.py) *)






(** ** The tokenizer (config.py, parser.py) *)

Lemma span_while_spec (f : char -> bool) (s : pystr) :
  (span_while f s).1 ++ (span_while f s).2 = s
  /\ forallb f (span_while f s).1 = true
  /\ match (span_while f s).2 with x :: _ => f x = false | [] => True end.
Proof.
  induction s as [|x r (IH1 & IH2 & IH3)]; [done|]. cbn [span_while].
  destruct (f x) eqn:E.
  - destruct (span_while f r) as [a b]. cbn [fst snd] in *.
    split; [by rewrite <- IH1|]. split; [cbn; by rewrite E|done].
  - by cbn.
Qed.

(** X14. The tokenizer always matches on a text that is not empty, and
    the token is a prefix of the text that is not empty: nothing is
    skipped or reordered, and every turn of the parsing loop consumes at
    least one character.  A token that starts with a character of the
    usual class consists of such characters only: one of them in
    token-by-token mode, the longest run of them otherwise; any other
    token starts with a character outside the usual class and is a
    backslash with the letters and white space or the one character
    after it, a double dollar, or that character alone. *)
Theorem next_token_partition (single : bool) (s : pystr) :
  (s = [] -> next_token single s = None)
  /\ (s <> [] ->
      exists piece rest,
        next_token single s = Some (piece, rest)
        /\ piece ++ rest = s /\ piece <> []
        /\ match piece with
           | c :: _ =>
               if usual c
               then forallb usual piece = true
                    /\ (if single then length piece = 1%nat
                        else match rest with x :: _ => usual x = false | [] => True end)
               else (length piece = 1%nat
                     \/ (c = BACKSLASH /\ (length piece = 2%nat
                                           \/ exists letters ws,
                                                piece = c :: letters ++ ws /\ letters <> []
                                                /\ forallb is_letter letters = true
                                                /\ forallb is_space ws = true
                                                /\ match rest with
                                                   | x :: _ => is_space x = false
                                                   | [] => True
                                                   end))
                     \/ piece = py "$$")
           | [] => False
           end).
Proof.
  split; [by intros ->|]. intros Hne. destruct s as [|c r]; [done|]. clear Hne.
  cbn [next_token]. destruct (usual c) eqn:Eu.
  - destruct single.
    + exists [c], r. split; [done|]. split; [done|]. split; [done|]. rewrite Eu.
      split; [cbn; by rewrite Eu|done].
    + destruct (span_while_spec usual (c :: r)) as (H1 & H2 & H3).
      destruct (span_while usual (c :: r)) as [a b] eqn:E. cbn [fst snd] in *.
      exists a, b. split; [done|]. split; [done|].
      cbn [span_while] in E. rewrite Eu in E. destruct (span_while usual r) as [a' b'].
      inversion E; subst. split; [done|]. rewrite Eu. split; [done|done].
  - destruct (N.eqb_spec c BACKSLASH) as [->|Hnb].
    + destruct r as [|d r'].
      * exists [BACKSLASH], []. split; [done|]. split; [done|]. split; [done|].
        rewrite Eu. by left.
      * destruct (is_letter d) eqn:El.
        -- destruct (span_while_spec is_letter (d :: r')) as (H1 & H2 & H3).
           destruct (span_while is_letter (d :: r')) as [letters r1] eqn:E1. cbn [fst snd] in *.
           destruct (span_while_spec is_space r1) as (H4 & H5 & H6).
           destruct (span_while is_space r1) as [ws r2] eqn:E2. cbn [fst snd] in *.
           exists (BACKSLASH :: letters ++ ws), r2. split; [done|].
           split; [cbn; by rewrite <- app_assoc, H4, H1|]. split; [done|]. rewrite Eu.
           right. left. split; [done|]. right. exists letters, ws.
           split; [done|]. split; [|done].
           cbn [span_while] in E1. rewrite El in E1. destruct (span_while is_letter r').
           by inversion E1.
        -- exists [BACKSLASH; d], r'. split; [done|]. split; [done|]. split; [done|].
           rewrite Eu. right. left. split; [done|]. by left.
    + destruct (N.eqb_spec c 36%N) as [->|Hnd].
      * destruct r as [|d r'].
        -- exists [36%N], []. split; [done|]. split; [done|]. split; [done|]. rewrite Eu. by left.
        -- destruct (N.eqb_spec d 36%N) as [->|Hd].
           ++ exists [36%N; 36%N], r'. split; [done|]. split; [done|]. split; [done|].
              rewrite Eu. by right; right.
           ++ exists [36%N], (d :: r'). split; [done|]. split; [done|]. split; [done|].
              rewrite Eu. by left.
      * exists [c], r. split; [done|]. split; [done|]. split; [done|]. rewrite Eu. by left.
Qed.

(** ** Preprocessing (parser.py) *)

Lemma squeeze_spaces_head (s : pystr) :
  match s with
  | c :: _ => head (squeeze_spaces s) = Some (if is_space c then SP else c)
  | [] => squeeze_spaces s = []
  end.
Proof.
  induction s as [|c r IH]; [done|]. cbn [squeeze_spaces].
  destruct (is_space c) eqn:E; [|done].
  destruct r as [|d r']; [done|]. cbv beta iota in IH.
  destruct (is_space d) eqn:Ed; [|done]. exact IH.
Qed.

Lemma squeeze_spaces_single (s : pystr) : single_blanks (squeeze_spaces s) = true.
Proof.
  induction s as [|c r IH]; [done|]. cbn [squeeze_spaces].
  destruct (is_space c) eqn:E.
  - destruct r as [|d r']; [done|]. destruct (is_space d) eqn:Ed; [done|].
    cbn [single_blanks]. rewrite IH, andb_true_r.
    pose proof (squeeze_spaces_head (d :: r')) as Hh. cbn beta iota in Hh. rewrite Ed in Hh.
    destruct (squeeze_spaces (d :: r')) as [|x ?]; [done|]. cbn in Hh. inversion Hh; subst.
    by rewrite Ed.
  - cbn [single_blanks]. by rewrite E, IH.
Qed.

Lemma single_blanks_cons (c : char) (r : pystr) :
  single_blanks (c :: r) =
    (negb (is_space c)
     || (N.eqb c SP && match r with d :: _ => negb (is_space d) | [] => true end))
    && single_blanks r.
Proof. reflexivity. Qed.

Lemma single_blanks_prefix (a b : pystr) :
  single_blanks (a ++ b) = true -> single_blanks a = true.
Proof.
  induction a as [|c a IH]; [done|]. cbn [app single_blanks].
  intros H. apply andb_prop in H as [H1 H2]. rewrite (IH H2), andb_true_r.
  destruct (is_space c); [|done]. cbn [negb orb] in *.
  apply andb_prop in H1 as [H1 H3]. rewrite H1. cbn [andb].
  destruct a as [|d a']; [done|]. done.
Qed.

Lemma single_blanks_suffix (a b : pystr) :
  single_blanks (a ++ b) = true -> single_blanks b = true.
Proof.
  induction a as [|c a IH]; [done|]. cbn [app single_blanks].
  intros H. apply andb_prop in H as [_ H2]. by apply IH.
Qed.

Lemma trim_after_ddollar_head (n : nat) (s : pystr) :
  head (trim_after_ddollar n s) = head s.
Proof.
  destruct n as [|n]; [done|]. cbn [trim_after_ddollar].
  destruct s as [|a [|b [|c r]]]; try done. by destruct (_ && _).
Qed.

Lemma trim_after_ddollar_single (n : nat) (s : pystr) :
  single_blanks s = true -> single_blanks (trim_after_ddollar n s) = true.
Proof.
  revert s. induction n as [|n IH]; intros s H; [done|]. cbn [trim_after_ddollar].
  destruct s as [|a [|b [|c r]]]; try done.
  destruct (N.eqb a 36 && N.eqb b 36 && is_space c) eqn:E.
  - apply andb_prop in E as [E Ec]. apply andb_prop in E as [Ea Eb].
    apply N.eqb_eq in Ea, Eb. subst a b.
    cbn [single_blanks]. change (is_space 36) with false. cbn [negb orb andb].
    apply IH. destruct (lstrip_drop r) as (k & _ & -> & _).
    apply (single_blanks_suffix (take k r)). rewrite take_drop.
    cbn [single_blanks] in H. by repeat (apply andb_prop in H as [_ H]).
  - rewrite single_blanks_cons in H. apply andb_prop in H as [H1 H2].
    rewrite single_blanks_cons, (IH _ H2), andb_true_r.
    pose proof (trim_after_ddollar_head n (b :: c :: r)) as Hh.
    destruct (trim_after_ddollar n (b :: c :: r)) as [|x ?]; [by destruct (is_space a)|].
    cbn in Hh. by inversion Hh; subst.
Qed.

Lemma squeeze_spaces_free (s : pystr) : NL ∉ squeeze_spaces s.
Proof.
  induction s as [|c r IH]; [apply not_elem_of_nil|]. cbn [squeeze_spaces].
  destruct (is_space c) eqn:E.
  - destruct r as [|d r'].
    + apply not_elem_of_cons. split; [done|apply not_elem_of_nil].
    + destruct (is_space d); [done|]. apply not_elem_of_cons. by split.
  - apply not_elem_of_cons. split; [|done]. intros <-. done.
Qed.

Lemma trim_after_ddollar_free (c : char) (n : nat) (s : pystr) :
  c ∉ s -> c ∉ trim_after_ddollar n s.
Proof.
  revert s. induction n as [|n IH]; intros s H; [done|]. cbn [trim_after_ddollar].
  destruct s as [|a [|b [|d r]]]; try done.
  apply not_elem_of_cons in H as [Ha H]. destruct (_ && _).
  - apply not_elem_of_cons in H as [Hb H]. apply not_elem_of_cons in H as [_ H].
    apply not_elem_of_cons. split; [done|]. apply not_elem_of_cons. split; [done|].
    apply IH. destruct (lstrip_drop r) as (k & _ & -> & _). intros Hin. apply H.
    by eapply subseteq_drop.
  - apply not_elem_of_cons. split; [done|]. by apply IH.
Qed.

(** X15. After the preprocessing of [paragraph] (for a text without a
    percent sign) the only white space of the text is single blanks:
    there is no newline or tab in it, and no two blanks next to one
    another. *)
Theorem preprocess_single_blanks (p : pystr) :
  has_char 37%N p = false ->
  exists q, preprocess p = Ok q /\ single_blanks q = true /\ (NL ∉ q)
    /\ Forall (fun c => is_space c = true -> c = SP) q.
Proof.
  intros Hp. unfold preprocess. rewrite Hp. cbv zeta.
  set (p1 := squeeze_spaces (blank_lines_to_par (length p) p)).
  assert (single_blanks (rstrip p1) = true /\ NL ∉ rstrip p1) as [H1 F1].
  { destruct (rstrip_prefix p1) as [ws E]. split.
    - apply (single_blanks_prefix _ ws). rewrite <- E. apply squeeze_spaces_single.
    - apply rstrip_free. apply squeeze_spaces_free. }
  set (p2 := trim_after_ddollar (length (rstrip p1)) (rstrip p1)).
  assert (single_blanks p2 = true /\ NL ∉ p2) as [H2 F2].
  { split; [by apply trim_after_ddollar_single|by apply trim_after_ddollar_free]. }
  assert (single_blanks (drop_final_par p2) = true /\ NL ∉ drop_final_par p2) as [H3 F3].
  { unfold drop_final_par. destruct (endswith _ _); [|done].
    destruct (rstrip_prefix p2) as [ws E]. split.
    - apply (single_blanks_prefix _ (drop (length (rstrip p2) - 4) (rstrip p2))).
      rewrite take_drop. apply (single_blanks_prefix _ ws). by rewrite <- E.
    - intros Hin. apply (rstrip_free NL p2 F2). by eapply subseteq_take. }
  eexists. split; [reflexivity|]. split; [done|]. split; [done|].
  clear -H3. induction (drop_final_par p2) as [|c r IH]; [constructor|].
  cbn [single_blanks] in H3. apply andb_prop in H3 as [Hc Hr].
  constructor; [|by apply IH]. intros Hs. rewrite Hs in Hc. cbn [negb orb] in Hc.
  apply andb_prop in Hc as [Hc _]. by apply N.eqb_eq in Hc.
Qed.

Lemma preprocess_single_blanks_witness :
  has_char 37%N (py "a   b" ++ NL :: NL :: py "c $$  d \par ") = false
  /\ preprocess (py "a   b" ++ NL :: NL :: py "c $$  d \par ") = Ok (py "a b\par c $$d ").
Proof.
  assert (has_char 37%N (py "a   b" ++ NL :: NL :: py "c $$  d \par ") = false) as Hp
    by reflexivity.
  destruct (preprocess_single_blanks _ Hp) as (q & E & _).
  split; [exact Hp|]. rewrite E. f_equal.
  assert (Ok q = preprocess (py "a   b" ++ NL :: NL :: py "c $$  d \par ")) as E'
    by (by rewrite E).
  vm_compute in E'. by inversion E'.
Defined.

(** ** Defining and using a macro (commands.py, parser.py) *)

Lemma span_while_app (f : char -> bool) (a b : pystr) :
  forallb f a = true ->
  match b with x :: _ => f x = false | [] => True end ->
  span_while f (a ++ b) = (a, b).
Proof.
  intros Ha Hb. induction a as [|x a IH]; cbn [app span_while].
  - destruct b as [|y b]; [done|]. cbn [span_while]. by rewrite Hb.
  - cbn in Ha. apply andb_prop in Ha as [Hx Ha]. by rewrite Hx, (IH Ha).
Qed.


Lemma lstrip_app_spaces (ws s : pystr) :
  forallb is_space ws = true -> lstrip (ws ++ s) = lstrip s.
Proof.
  intros H. induction ws as [|x ws IH]; [done|]. cbn in H.
  apply andb_prop in H as [Hx H]. cbn [app lstrip]. by rewrite Hx, IH.
Qed.



(** The token of a command name made of letters. *)
Lemma next_token_macro (single : bool) (name text : pystr) :
  name <> [] -> forallb is_letter name = true ->
  match text with c :: _ => is_letter c = false | [] => True end ->
  next_token single (BACKSLASH :: name ++ text)
  = Some (BACKSLASH :: name ++ (span_while is_space text).1, (span_while is_space text).2).
Proof.
  intros Hne Hletters Htext. destruct name as [|n0 name']; [done|].
  assert (is_letter n0 = true) as Hn0.
  { cbn in Hletters. by apply andb_prop in Hletters as [? _]. }
  cbn [next_token app]. change (usual BACKSLASH) with false. cbv iota.
  change (N.eqb BACKSLASH BACKSLASH) with true. cbv iota. rewrite Hn0.
  change (n0 :: name' ++ text) with ((n0 :: name') ++ text).
  rewrite span_while_app by done. by destruct (span_while is_space text).
Qed.




(** ** The two angle brackets are mirror images (brackets.py) *)

Lemma reverse_spaces (n : Z) : reverse (spaces n) = spaces n.
Proof. unfold spaces, rep. apply reverse_replicate. Qed.

Lemma mirror_spaces (n : Z) : mirror_glyph <$> spaces n = spaces n.
Proof. unfold spaces, rep. by rewrite fmap_replicate. Qed.

Lemma spaces_add (m n : Z) : 0 <= m -> 0 <= n -> spaces m ++ spaces n = spaces (m + n).
Proof.
  intros Hm Hn. unfold spaces, rep. rewrite <- replicate_add. f_equal. lia.
Qed.

(** X17. The right angle bracket is the mirror image of the left one:
    for a height of at least 1 and a baseline inside it,
    [regenerate_angle_bracket] gives the same width for both types, and
    each row of the right bracket is the row of the left bracket read
    from right to left with every glyph replaced by its mirror glyph. *)
Theorem angle_bracket_mirror (h b : Z) :
  1 <= h -> 0 <= b < h ->
  (regenerate_angle_bracket (py ">") h b).2 = (regenerate_angle_bracket (py "<") h b).2
  /\ (regenerate_angle_bracket (py ">") h b).1
     = (fun line => mirror_glyph <$> reverse line) <$> (regenerate_angle_bracket (py "<") h b).1.
Proof.
  intros Hh Hb.
  pose proof (angle_width (py ">") h b Hh Hb) as Wr.
  pose proof (angle_width (py "<") h b Hh Hb) as Wl.
  split; [congruence|].
  unfold regenerate_angle_bracket in *. cbv zeta in *. cbn [fst snd] in *.
  rewrite Wr, Wl. set (w := Z.max b (h - b - 1) + 1).
  rewrite <- !list_fmap_compose. apply Forall_fmap_ext_1. apply Forall_forall.
  intros row Hrow%elem_of_range. unfold compose, angle_line. cbv zeta.
  change (bool_decide (py ">" = py "<")) with false.
  change (bool_decide (py "<" = py "<")) with true. cbv iota.
  set (d := Z.abs (row - b)).
  assert (0 <= d <= w - 1) as Hd by (unfold d, w; lia).
  unfold ljust. rewrite !len_app, !len_spaces. change (len [_]) with 1.
  replace (w - (Z.max 0 (w - 1 - d) + 1)) with d by lia.
  replace (w - (Z.max 0 d + 1)) with (w - 1 - d) by lia.
  rewrite !reverse_app, reverse_spaces, reverse_singleton, reverse_spaces.
  rewrite !fmap_app, !mirror_spaces. rewrite <- app_assoc. do 2 f_equal.
  cbn [fmap list_fmap app]. f_equal.
  destruct (row <? b); [done|]. by destruct (row =? b).
Qed.

Lemma angle_bracket_mirror_witness :
  1 <= 3 /\ 0 <= 1 < 3
  /\ (regenerate_angle_bracket (py ">") 3 1).1 = [[BIGREVSOL; SP]; [SP; RANGLE]; [BIGSOL; SP]]
  /\ (regenerate_angle_bracket (py "<") 3 1).1 = [[SP; BIGSOL]; [LANGLE; SP]; [SP; BIGREVSOL]].
Proof.
  assert (1 <= 3) as Hh by lia. assert (0 <= 1 < 3) as Hb by lia.
  destruct (angle_bracket_mirror 3 1 Hh Hb) as [_ H].
  split; [exact Hh|]. split; [exact Hb|]. split; [|vm_compute; reflexivity].
  rewrite H. vm_compute. reflexivity.
Defined.

(** ** Tall parentheses and brackets (brackets.py) *)

Lemma makecompound_caps (ascent descent : Z) (base exp_one e top bottom : char) :
  1 <= ascent -> 0 < descent ->
  makecompound ascent descent [base] [exp_one] [e] [top] [bottom] [e]
  = top :: replicate (Z.to_nat (ascent + descent - 2)) e ++ [bottom].
Proof.
  intros Ha Hd. unfold makecompound. rewrite !rep_str_single.
  replace (1 <=? ascent) with true by lia. replace (0 <? descent) with true by lia.
  by rewrite bool_decide_eq_true_2.
Qed.

Lemma py_set_after_get {A} (l : list A) (i : Z) (x y : A) :
  py_get l i = Ok x ->
  exists l', py_set l i y = Ok l' /\ py_get l' i = Ok y /\ length l' = length l.
Proof.
  unfold py_get, py_set. destruct (py_pos l i) as [n|] eqn:E; [|done].
  destruct (l !! n) as [z|] eqn:El; [|done]. intros _.
  eexists. split; [reflexivity|]. split; [|by rewrite length_insert].
  assert (py_pos (<[n:=y]> l) i = Some n) as ->.
  { unfold py_pos, len in *. by rewrite length_insert. }
  rewrite list_lookup_insert_eq; [done|]. by eapply lookup_lt_Some.
Qed.

(** The column that [vputs] builds from the characters of a tall
    delimiter. *)
Lemma vputs_column (glyphs : pystr) (b : Z) :
  glyphs <> [] -> NL ∉ glyphs -> 0 <= b < len glyphs ->
  vputs glyphs b = mkrec (len glyphs) 1 b 0 (join_with NL ((fun c => [c]) <$> glyphs))
  /\ lines_of (len glyphs) (join_with NL ((fun c => [c]) <$> glyphs)) = (fun c => [c]) <$> glyphs
  /\ well_formed (vputs glyphs b).
Proof.
  intros Hne Hnl Hb. pose proof (len_pos_of_not_nil _ Hne) as Hpos.
  assert (vputs glyphs b = mkrec (len glyphs) 1 b 0 (join_with NL ((fun c => [c]) <$> glyphs)))
    as E.
  { unfold vputs. cbv zeta. by replace (len glyphs =? 0) with false by lia. }
  assert (lines_of (len glyphs) (join_with NL ((fun c => [c]) <$> glyphs))
          = (fun c => [c]) <$> glyphs) as Hl.
  { apply lines_of_joined; [lia|rewrite len_fmap; lia|].
    apply Forall_fmap. apply Forall_forall. intros c Hc. cbn.
    rewrite list_elem_of_singleton. intros <-. done. }
  split; [done|]. split; [done|]. rewrite E. unfold well_formed.
  rewrite eff_height_mkrec by lia. cbn [rb rl rs]. split; [done|]. split; [lia|].
  rewrite Hl. apply Forall_fmap. apply Forall_forall. intros c _. cbn. by change (len [c]) with 1.
Qed.

Lemma blank_record : string2record (spaces 1) false = mkrec 0 1 0 1 [SP].
Proof. reflexivity. Qed.

Lemma well_formed_blank : well_formed (mkrec 0 1 0 1 [SP]).
Proof.
  split; [cbn; lia|]. split; [cbn; lia|]. repeat constructor. by change (len [SP]) with 1.
Qed.

Lemma regenerated_blank (h : Z) : regenerated h (operand_of (mkrec 0 1 0 1 [SP])) = false.
Proof.
  change (operand_of (mkrec 0 1 0 1 [SP])) with ([[SP]], 1, 1, 0).
  unfold regenerated. cbn [join_with]. unfold is_left_angle, is_right_angle, has_char.
  rewrite !bool_decide_eq_false_2; [by rewrite !andb_false_r|..];
    rewrite list_elem_of_singleton; discriminate.
Qed.

Lemma delimiter_pieces_paren (s : pystr) (top bottom : char) (h left_sp : Z) :
  (s, top, bottom) ∈ [(py "(", 9581%N, 9584%N); (py ")", 9582%N, 9583%N);
                      (py "[", 9484%N, 9492%N); (py "]", 9488%N, 9496%N)] ->
  delimiter_pieces s h left_sp = Some (s, py " ", U 9474, [top], [bottom], U 9474)
  /\ bool_decide (s = py ".") = false /\ len s = 1
  /\ top <> NL /\ bottom <> NL
  /\ exists base, s = [base].
Proof.
  rewrite !elem_of_cons, elem_of_nil.
  intros [H|[H|[H|[H|[]]]]]; inversion H; subst; clear H;
    (split; [reflexivity|]); (split; [reflexivity|]); (split; [reflexivity|]);
    (split; [discriminate|]); (split; [discriminate|]); by eexists.
Qed.

(** The tall delimiter before the spacing is added. *)
Lemma makehigh_column (s : pystr) (top bottom : char) (h b : Z) :
  (s, top, bottom) ∈ [(py "(", 9581%N, 9584%N); (py ")", 9582%N, 9583%N);
                      (py "[", 9484%N, 9492%N); (py "]", 9488%N, 9496%N)] ->
  3 <= h -> 0 <= b -> b + 2 <= h ->
  let glyphs := top :: replicate (Z.to_nat (h - 2)) 9474%N ++ [bottom] in
  exists col,
    col = vputs (makecompound (b + 1) (h - b - 1) s (py " ") (U 9474) [top] [bottom] (U 9474)) b
    /\ rh col = h /\ rl col = 1 /\ rb col = b
    /\ lines_of h (rs col) = (fun c => [c]) <$> glyphs
    /\ len glyphs = h
    /\ well_formed col.
Proof.
  intros Hin Hh Hb0 Hb glyphs.
  destruct (delimiter_pieces_paren s top bottom h 0 Hin) as (_ & _ & _ & Ht & Hbt & base & ->).
  change (py " ") with [SP]. unfold U.
  rewrite makecompound_caps by lia.
  replace (b + 1 + (h - b - 1) - 2) with (h - 2) by lia. fold glyphs.
  assert (len glyphs = h) as Hlen.
  { unfold glyphs, len. cbn [length]. rewrite length_app, length_replicate. cbn [length]. lia. }
  assert (NL ∉ glyphs) as Hnl.
  { unfold glyphs. apply not_elem_of_cons. split; [done|]. rewrite not_elem_of_app. split.
    - intros Hx. apply elem_of_replicate in Hx as [Hx _]. discriminate.
    - rewrite list_elem_of_singleton. done. }
  destruct (vputs_column glyphs b) as (E & Hl & W); [done|done|lia|].
  eexists. split; [reflexivity|]. rewrite E at 1 2 3 4. cbn [rh rl rb rs].
  rewrite Hlen in Hl. do 5 (split; [done|]). exact W.
Qed.

Lemma row_at_blank (top p : Z) :
  row_at (mkrec 0 1 0 1 [SP]) top p = if p =? top then [SP] else [].
Proof.
  unfold row_at. change (eff_height (mkrec 0 1 0 1 [SP])) with 1.
  change (lines_of 1 (rs (mkrec 0 1 0 1 [SP]))) with [[SP]].
  destruct (Z.eqb_spec p top) as [->|Hne].
  - replace ((top <=? top) && (top <? top + 1)) with true by lia.
    by replace (Z.to_nat (top - top)) with 0%nat by lia.
  - by replace ((top <=? p) && (p <? top + 1)) with false by lia.
Qed.

(** X18. [makehigh_inplace] on a parenthesis or a square bracket, for a
    height of at least 3 and a baseline above the last row: the record
    at [idx] becomes a column of the requested height and baseline, with
    the top cap on its first row, the bottom cap on its last row and the
    vertical bar in between, two columns wide with the spacing: called
    for a left delimiter (spacing 0 and 1) a blank follows the glyph on
    the baseline row only, called for a right delimiter (spacing 1 and
    0) a blank precedes the glyph on every row.  The buffer keeps its
    length. *)
Theorem makehigh_tall_delimiter (out : list record) (idx h b : Z) (r : record)
    (top bottom : char) :
  py_get out idx = Ok r ->
  (rs r, top, bottom) ∈ [(py "(", 9581%N, 9584%N); (py ")", 9582%N, 9583%N);
                         (py "[", 9484%N, 9492%N); (py "]", 9488%N, 9496%N)] ->
  3 <= h -> 0 <= b -> b + 2 <= h ->
  let glyphs := top :: replicate (Z.to_nat (h - 2)) 9474%N ++ [bottom] in
  (exists rec out',
     makehigh_inplace out idx h b 0 1 = Ok out'
     /\ py_get out' idx = Ok rec /\ length out' = length out
     /\ rh rec = h /\ rl rec = 2 /\ rb rec = b
     /\ forall p, 0 <= p < h ->
          lines_of h (rs rec) !!! Z.to_nat p
          = glyphs !!! Z.to_nat p :: (if p =? b then [SP] else []))
  /\ (exists rec out',
     makehigh_inplace out idx h b 1 0 = Ok out'
     /\ py_get out' idx = Ok rec /\ length out' = length out
     /\ rh rec = h /\ rl rec = 2 /\ rb rec = b
     /\ forall p, 0 <= p < h ->
          lines_of h (rs rec) !!! Z.to_nat p = [SP; glyphs !!! Z.to_nat p]).
Proof.
  intros Hget Hin Hh Hb0 Hb glyphs.
  destruct (makehigh_column (rs r) top bottom h b Hin Hh Hb0 Hb)
    as (col & Ecol & Hch & Hcl & Hcb & Hlines & Hlen & Wc). fold glyphs in Hlines, Hlen.
  assert (eff_height col = h) as Heff.
  { unfold eff_height. rewrite Hch. by replace (h =? 0) with false by lia. }
  assert (forall ls rsp_,
            makehigh_inplace out idx h b ls rsp_
            = (add_spacing ls rsp_ col ≫= λ rec : record, py_set out idx rec)) as Hunfold.
  { intros ls rsp_.
    destruct (delimiter_pieces_paren (rs r) top bottom h ls Hin) as (Hp & Hdot & Hl1 & _).
    unfold makehigh_inplace. rewrite Hget, bind_Ok. cbv zeta. rewrite Hdot.
    replace (0 <? h) with true by lia. replace (h <? 2) with false by lia.
    replace (h =? 2) with false by lia. cbn [orb andb]. rewrite Hp, Hl1.
    change (1 =? 2) with false. cbv iota. rewrite bind_Ok. by rewrite <- Ecol. }
  assert (forall p, 0 <= p < h -> row_at col 0 p = [glyphs !!! Z.to_nat p]) as Hrowc.
  { intros p Hp. unfold row_at. rewrite Heff, Hlines.
    replace ((0 <=? p) && (p <? 0 + h)) with true by lia. replace (p - 0) with p by lia.
    rewrite (list_lookup_total_fmap (fun c : char => [c])); [done|]. unfold len in Hlen. lia. }
  assert (joined_height col (mkrec 0 1 0 1 [SP]) = h) as HJ1.
  { unfold joined_height. rewrite Heff, Hcb. change (eff_height (mkrec 0 1 0 1 [SP])) with 1.
    cbn [rb]. lia. }
  assert (joined_height (mkrec 0 1 0 1 [SP]) col = h) as HJ2.
  { unfold joined_height. rewrite Heff, Hcb. change (eff_height (mkrec 0 1 0 1 [SP])) with 1.
    cbn [rb]. lia. }
  assert (forall H, H = h -> regenerated H (operand_of col) = false) as Hregc.
  { intros H ->. unfold operand_of. rewrite Heff. apply regenerated_full_height. }
  split.
  - destruct (join_records_plain col (mkrec 0 1 0 1 [SP]) Wc well_formed_blank)
      as (rec & E & Hh' & Hw & Hbase & Hrow); [by apply Hregc|apply regenerated_blank|].
    destruct (py_set_after_get out idx r rec Hget) as (out' & Eset & Eget & Elen).
    exists rec, out'. split.
    { rewrite Hunfold. unfold add_spacing. change (negb (0 =? 0)) with false.
      change (negb (1 =? 0)) with true. cbv iota. rewrite bind_Ok. cbv iota.
      rewrite blank_record, E, bind_Ok. exact Eset. }
    split; [done|]. split; [done|]. rewrite HJ1 in Hh'. split; [done|].
    split; [rewrite Hw, Hcl; reflexivity|]. rewrite Hcb in Hbase. cbn [rb] in Hbase.
    split; [lia|]. intros p Hp. rewrite <- Hh' at 1. rewrite Hrow by lia.
    rewrite Hcb. cbn [rb rl]. replace (Z.max b 0) with b by lia.
    replace (b - b) with 0 by lia. rewrite Hrowc by done. rewrite Hcl.
    replace (b - 0) with b by lia. rewrite row_at_blank.
    change (ljust 1 [glyphs !!! Z.to_nat p]) with ([glyphs !!! Z.to_nat p] ++ spaces (1 - 1)).
    change (spaces (1 - 1)) with (@nil N). cbn [app].
    destruct (Z.eqb_spec p b) as [->|Hne]; [|done].
    by change (len [SP] =? 0) with false.
  - destruct (join_records_plain (mkrec 0 1 0 1 [SP]) col well_formed_blank Wc)
      as (rec & E & Hh' & Hw & Hbase & Hrow); [apply regenerated_blank|by apply Hregc|].
    destruct (py_set_after_get out idx r rec Hget) as (out' & Eset & Eget & Elen).
    exists rec, out'. split.
    { rewrite Hunfold. unfold add_spacing. change (negb (1 =? 0)) with true.
      change (negb (0 =? 0)) with false. cbv iota.
      rewrite blank_record, E, bind_Ok. cbv iota. exact Eset. }
    split; [done|]. split; [done|]. rewrite HJ2 in Hh'. split; [done|].
    split; [rewrite Hw, Hcl; reflexivity|]. rewrite Hcb in Hbase. cbn [rb] in Hbase.
    split; [lia|]. intros p Hp. rewrite <- Hh' at 1. rewrite Hrow by lia.
    rewrite Hcb. cbn [rb rl]. replace (Z.max 0 b) with b by lia.
    replace (b - b) with 0 by lia. rewrite Hrowc by done.
    replace (b - 0) with b by lia. rewrite row_at_blank.
    change (len [glyphs !!! Z.to_nat p] =? 0) with false. rewrite andb_false_r.
    by destruct (p =? b).
Qed.

Lemma makehigh_tall_delimiter_witness :
  py_get [string2record (py "(") false] 0 = Ok (string2record (py "(") false)
  /\ 3 <= 3 /\ 0 <= 1 /\ 1 + 2 <= 3
  /\ exists rec out',
       makehigh_inplace [string2record (py "(") false] 0 3 1 0 1 = Ok out'
       /\ py_get out' 0 = Ok rec
       /\ lines_of 3 (rs rec) !!! 0%nat = [9581%N]
       /\ lines_of 3 (rs rec) !!! 1%nat = [9474%N; SP]
       /\ lines_of 3 (rs rec) !!! 2%nat = [9584%N].
Proof.
  assert ((rs (string2record (py "(") false), 9581%N, 9584%N)
          ∈ [(py "(", 9581%N, 9584%N); (py ")", 9582%N, 9583%N);
             (py "[", 9484%N, 9492%N); (py "]", 9488%N, 9496%N)]) as Hin
    by (apply elem_of_cons; by left).
  destruct (makehigh_tall_delimiter [string2record (py "(") false] 0 3 1
              (string2record (py "(") false) 9581%N 9584%N eq_refl Hin
              ltac:(lia) ltac:(lia) ltac:(lia))
    as [(rec & out' & E & Eget & _ & _ & _ & _ & Hrow) _].
  split; [reflexivity|]. split; [lia|]. split; [lia|]. split; [lia|].
  exists rec, out'. split; [exact E|]. split; [exact Eget|].
  split; [exact (Hrow 0 ltac:(lia))|]. split; [exact (Hrow 1 ltac:(lia))|].
  exact (Hrow 2 ltac:(lia)).
Defined.

(** ** Reading a group (commands.py) *)

Lemma read_group_balanced (body rest : pystr) :
  forall (n : nat) (lev : Z) (result : pystr),
    BACKSLASH ∉ body -> 1 <= lev -> balanced_from (lev - 1) body = true ->
    (length body + 2 <= n)%nat ->
    read_group n lev result (body ++ 125%N :: rest) = Ok (result ++ body, rest).
Proof.
  induction body as [|c r IH]; intros n lev result Hbs Hlev Hbal Hn.
  - cbn [balanced_from] in Hbal. assert (lev = 1) as -> by lia.
    destruct n as [|[|n]]; [cbn in Hn; lia..|].
    rewrite app_nil_r. reflexivity.
  - apply not_elem_of_cons in Hbs as [Hc Hr].
    destruct n as [|n]; [cbn in Hn; lia|]. cbn [length] in Hn.
    cbn [read_group app]. replace (lev =? 0) with false by lia.
    cbn [orb is_empty_str]. destruct (N.eqb_spec c BACKSLASH) as [->|_]; [done|].
    cbv iota beta. cbn [balanced_from] in Hbal.
    replace (result ++ c :: r) with ((result ++ [c]) ++ r) by by rewrite <- app_assoc.
    destruct (N.eqb_spec c 123%N) as [->|H1].
    + rewrite bool_decide_eq_true_2 by done. replace (lev + 1 =? 0) with false by lia.
      apply IH; [done|lia| |lia]. by replace (lev + 1 - 1) with (lev - 1 + 1) by lia.
    + rewrite bool_decide_eq_false_2 by (intros [=]; done).
      destruct (N.eqb_spec c 125%N) as [->|H2].
      * apply andb_true_iff in Hbal as [Hd Hbal].
        rewrite bool_decide_eq_true_2 by done. replace (lev - 1 =? 0) with false by lia.
        apply IH; [done|lia|done|lia].
      * rewrite bool_decide_eq_false_2 by (intros [=]; done).
        replace (lev =? 0) with false by lia. apply IH; [done|lia|done|lia].
Qed.

(** X19. [get_balanced] on a text that starts with a group: when the
    braces of [body] are balanced and [body] holds no backslash, the
    text [{body}rest] gives [body], without the outer braces and with
    the inner ones, and leaves [rest] as the text still to read. *)
Theorem get_balanced_group (st : State) (body rest : pystr) :
  BACKSLASH ∉ body -> balanced_from 0 body = true ->
  par st = 123%N :: body ++ 125%N :: rest ->
  get_balanced st = Ok (Some body, set_par rest st).
Proof.
  intros Hbs Hbal Hpar. unfold get_balanced. rewrite Hpar.
  change (next_token true (123%N :: body ++ 125%N :: rest))
    with (Some ([123%N], body ++ 125%N :: rest)).
  cbv iota beta. rewrite bool_decide_eq_true_2 by done. cbn [negb].
  rewrite (read_group_balanced body rest _ 1 []); [done|done|lia|done|].
  rewrite length_app. cbn [length]. lia.
Qed.

Lemma get_balanced_group_witness :
  get_balanced (set_par (py "{a{b}c}d") init_state)
  = Ok (Some (py "a{b}c"), set_par (py "d") (set_par (py "{a{b}c}d") init_state)).
Proof.
  apply (get_balanced_group _ (py "a{b}c") (py "d")).
  - assert (py "a{b}c" = [97%N; 123%N; 98%N; 125%N; 99%N]) as -> by reflexivity.
    intros H. repeat (apply elem_of_cons in H as [H|H]; [discriminate H|]).
    by apply elem_of_nil in H.
  - reflexivity.
  - reflexivity.
Defined.

(** ** Trimming the chunks (stack.py) *)

Lemma set_out_same (st : State) : set_out (out st) st = st.
Proof. by destruct st. Qed.

Lemma set_out_set_out (a b : list record) (st : State) :
  set_out a (set_out b st) = set_out a st.
Proof. reflexivity. Qed.

Lemma len_group_starts (start : Z) (groups : list (list record)) :
  length (group_starts start groups) = length groups.
Proof. revert start. induction groups as [|g gs IH]; intros start; [done|]. cbn. by rewrite IH. Qed.

Lemma group_starts_lookup (groups : list (list record)) :
  forall (start : Z) (j : nat),
    (j < length groups)%nat ->
    group_starts start groups !! j = Some (start + len (concat (take j groups))).
Proof.
  induction groups as [|g gs IH]; intros start j Hj; [cbn in Hj; lia|].
  destruct j as [|j].
  - cbn. f_equal. unfold len. cbn. lia.
  - cbn [group_starts take concat lookup list_lookup]. cbn in Hj.
    change ((start :: group_starts (start + len g) gs) !! S j)
      with (group_starts (start + len g) gs !! j).
    rewrite IH by lia. rewrite len_app. f_equal. lia.
Qed.

Lemma length_trim_group (g : list record) : length (trim_group g) = length g.
Proof. unfold trim_group. cbv zeta. by rewrite !length_alter. Qed.

Lemma len_concat_trim (groups : list (list record)) :
  len (concat (trim_group <$> groups)) = len (concat groups).
Proof.
  induction groups as [|g gs IH]; [done|]. cbn [fmap list_fmap concat].
  rewrite !len_app, IH. unfold len. by rewrite length_trim_group.
Qed.

Lemma py_get_middle {A} (l k : list A) (x : A) : py_get (l ++ x :: k) (len l) = Ok x.
Proof.
  apply py_get_nat; [apply len_nonneg|]. unfold len. rewrite Nat2Z.id.
  by rewrite list_lookup_middle.
Qed.

Lemma py_set_middle {A} (l k : list A) (x y : A) :
  py_set (l ++ x :: k) (len l) y = Ok (l ++ y :: k).
Proof.
  unfold py_set, py_pos. pose proof (len_nonneg l).
  replace (len l <? 0) with false by lia.
  assert (len (l ++ x :: k) = len l + 1 + len k) as Hl
    by (rewrite len_app; unfold len; cbn [length]; lia).
  pose proof (len_nonneg k).
  replace (len l <? len (l ++ x :: k)) with true by lia.
  unfold len. rewrite Nat2Z.id. f_equal.
  rewrite insert_app_r_alt by lia. by rewrite Nat.sub_diag.
Qed.

Lemma trim_beg_at (st : State) (A B : list record) (r : record) :
  out st = A ++ r :: B ->
  trim_beg (len A) st = Ok (set_out (A ++ trimmed_beg r :: B) st).
Proof.
  intros Hout. unfold trim_beg, trimmed_beg. rewrite Hout.
  pose proof (len_nonneg A). pose proof (len_nonneg B).
  assert (len (A ++ r :: B) = len A + 1 + len B) as Hl
    by (rewrite len_app; unfold len; cbn [length]; lia).
  rewrite Hl. replace (len A + 1 + len B =? 0) with false by lia.
  replace (len A <? 0) with false by lia.
  replace (len A + 1 + len B <=? len A) with false by lia. cbn [orb].
  rewrite py_get_middle, bind_Ok. destruct (rh r =? 0).
  - by rewrite py_set_middle, bind_Ok.
  - by rewrite <- Hout, set_out_same.
Qed.

Lemma trim_end_at (st : State) (A B : list record) (r : record) :
  out st = A ++ r :: B ->
  trim_end (len A) st = Ok (set_out (A ++ trimmed_end r :: B) st).
Proof.
  intros Hout. unfold trim_end, trimmed_end. rewrite Hout.
  pose proof (len_nonneg A). pose proof (len_nonneg B).
  assert (len (A ++ r :: B) = len A + 1 + len B) as Hl
    by (rewrite len_app; unfold len; cbn [length]; lia).
  rewrite Hl. replace (len A + 1 + len B =? 0) with false by lia.
  replace (len A <? 0) with false by lia.
  replace (len A + 1 + len B <=? len A) with false by lia. cbn [orb].
  rewrite py_get_middle, bind_Ok. destruct (rh r =? 0).
  - by rewrite py_set_middle, bind_Ok.
  - by rewrite <- Hout, set_out_same.
Qed.

Lemma trim_group_snoc (r : record) (g' : list record) :
  exists init l,
    trimmed_beg r :: g' = init ++ [l]
    /\ trim_group (r :: g') = init ++ [trimmed_end l].
Proof.
  destruct (decide (g' = [])) as [->|Hne].
  - exists [], (trimmed_beg r). split; [done|]. reflexivity.
  - destruct (exists_last Hne) as (i & l & ->).
    exists (trimmed_beg r :: i), l. split; [done|].
    unfold trim_group. cbv zeta. cbn [alter list_alter].
    change (trimmed_beg r :: i ++ [l]) with ((trimmed_beg r :: i) ++ [l]).
    rewrite length_app. cbn [length].
    rewrite alter_app_r_alt by (cbn [length]; lia).
    replace (S (length i) + 1 - 1 - length (trimmed_beg r :: i))%nat with 0%nat
      by (cbn [length]; lia).
    reflexivity.
Qed.

Lemma trim_one_at (st : State) (k : Z) (A g B : list record) :
  g <> [] -> out st = A ++ g ++ B ->
  py_get (chunks st) k = Ok (len A) ->
  (if k =? len (chunks st) - 1 then B = []
   else py_get (chunks st) (k + 1) = Ok (len A + len g)) ->
  trim_one k st = Ok (set_out (A ++ trim_group g ++ B) st).
Proof.
  intros Hne Hout Hk Hnext. destruct g as [|r g']; [done|]. clear Hne.
  unfold trim_one. rewrite Hk, bind_Ok.
  rewrite (trim_beg_at st A (g' ++ B) r) by done. rewrite bind_Ok.
  destruct (trim_group_snoc r g') as (init & l & E1 & E2).
  set (st1 := set_out _ st).
  assert (out st1 = (A ++ init) ++ l :: B) as Hout1.
  { unfold st1. cbn [out set_out]. rewrite <- app_assoc. f_equal.
    change (trimmed_beg r :: g' ++ B) with ((trimmed_beg r :: g') ++ B).
    rewrite E1. by rewrite <- app_assoc. }
  assert (len (r :: g') = len init + 1) as Hlen.
  { assert (length (trimmed_beg r :: g') = length (init ++ [l])) as HH by by rewrite E1.
    rewrite length_app in HH. cbn [length] in HH. unfold len. cbn [length]. lia. }
  assert (set_out ((A ++ init) ++ trimmed_end l :: B) st1
          = set_out (A ++ trim_group (r :: g') ++ B) st) as Hres.
  { rewrite E2. unfold st1. rewrite <- !app_assoc. reflexivity. }
  change (chunks st1) with (chunks st).
  destruct (k =? len (chunks st) - 1).
  - subst B. replace (len (out st1) - 1) with (len (A ++ init)).
    + rewrite (trim_end_at st1 (A ++ init) [] l Hout1). by rewrite Hres.
    + rewrite Hout1, !len_app. unfold len. cbn [length]. lia.
  - rewrite Hnext, bind_Ok. replace (len A + len (r :: g') - 1) with (len (A ++ init))
      by (rewrite len_app; lia).
    rewrite (trim_end_at st1 (A ++ init) B l Hout1). by rewrite Hres.
Qed.

Lemma py_get_app_r {A} (l k : list A) (j : nat) (x : A) :
  k !! j = Some x -> py_get (l ++ k) (len l + Z.of_nat j) = Ok x.
Proof.
  intros H. apply py_get_nat; [pose proof (len_nonneg l); lia|].
  replace (Z.to_nat (len l + Z.of_nat j)) with (length l + j)%nat by (unfold len; lia).
  by rewrite lookup_app_r, Nat.add_sub' by lia.
Qed.

Lemma trim_loop (st : State) (cpre : list Z) (pre : list record)
    (groups : list (list record)) (j : nat) :
  Forall (fun g => g <> []) groups ->
  out st = pre ++ concat groups ->
  chunks st = cpre ++ group_starts (len pre) groups ->
  (j <= length groups)%nat ->
  foldl (fun acc i => acc ≫= λ st : State, trim_one i st) (Ok st)
        ((fun i => len cpre + Z.of_nat i) <$> seq 0 j)
  = Ok (set_out (pre ++ concat (trim_group <$> take j groups)
                 ++ concat (drop j groups)) st).
Proof.
  intros Hne Hout Hch. induction j as [|j IH]; intros Hj.
  - rewrite take_0, drop_0. cbn [seq fmap list_fmap foldl concat app]. by rewrite <- Hout, set_out_same.
  - rewrite seq_S, fmap_app, foldl_app, IH by lia. cbn [fmap list_fmap foldl].
    rewrite bind_Ok. set (st1 := set_out _ st).
    destruct (lookup_lt_is_Some_2 groups j ltac:(lia)) as [g Hg].
    assert (g <> []) as Hgne by (eapply Forall_lookup_1 in Hne; eauto).
    rewrite (trim_one_at st1 _ (pre ++ concat (trim_group <$> take j groups)) g
               (concat (drop (S j) groups))); [| done | | |].
    + unfold st1. rewrite set_out_set_out. do 2 f_equal. rewrite (take_S_r _ _ _ Hg), fmap_app, concat_app. cbn [fmap list_fmap concat].
      rewrite app_nil_r, <- !app_assoc. reflexivity.
    + unfold st1. cbn [out set_out]. rewrite <- app_assoc. do 2 f_equal.
      by rewrite (drop_S _ _ _ Hg).
    + change (chunks st1) with (chunks st). rewrite Hch.
      replace (0 + j)%nat with j by lia.
      rewrite len_app, len_concat_trim. rewrite (py_get_app_r cpre _ j (len pre + len (concat (take j groups)))); [done|].
      apply group_starts_lookup. lia.
    + change (chunks st1) with (chunks st). rewrite Hch, len_app.
      replace (0 + j)%nat with j by lia. unfold len at 3. rewrite len_group_starts.
      destruct (Z.eqb_spec (len cpre + Z.of_nat j) (len cpre + Z.of_nat (length groups) - 1)) as [E|E].
      * assert (S j = length groups) as E' by lia. rewrite E'. by rewrite drop_all.
      * replace (len cpre + Z.of_nat j + 1) with (len cpre + Z.of_nat (S j)) by lia.
        rewrite len_app, len_concat_trim.
        apply py_get_app_r. rewrite group_starts_lookup by lia.
        rewrite (take_S_r _ _ _ Hg), concat_app, len_app. cbn [concat]. rewrite app_nil_r.
        f_equal. lia.
Qed.

Lemma trim_chunks (st : State) (cpre : list Z) (pre : list record)
    (groups : list (list record)) :
  Forall (fun g => g <> []) groups ->
  out st = pre ++ concat groups ->
  chunks st = cpre ++ group_starts (len pre) groups ->
  trim (len groups) st = Ok (set_out (pre ++ concat (trim_group <$> groups)) st).
Proof.
  intros Hne Hout Hch. unfold trim, range2. rewrite Hch, len_app.
  replace (len (group_starts (len pre) groups)) with (len groups)
    by (unfold len; by rewrite len_group_starts).
  replace (len cpre + len groups - len groups) with (len cpre) by lia.
  replace (Z.to_nat (len cpre + len groups - len cpre)) with (length groups)
    by (unfold len; lia).
  rewrite (trim_loop st cpre pre groups (length groups) Hne Hout Hch) by lia.
  by rewrite firstn_all, drop_all, app_nil_r.
Qed.

(** X20. [trim(n)] on a buffer whose last [n] chunks hold at least one
    record each: the number of records, the chunk boundaries and the
    rest of the state are kept; in each of these chunks the first record
    loses its leading white space and the last one its trailing white
    space when their height is 0 (both for a chunk of one record), the
    record being rebuilt from the stripped text; every other record, and
    every record of another height, is left as it is. *)
Theorem trim_groups (st : State) (cpre : list Z) (pre : list record)
    (groups : list (list record)) :
  Forall (fun g => g <> []) groups ->
  out st = pre ++ concat groups ->
  chunks st = cpre ++ group_starts (len pre) groups ->
  trim (len groups) st
  = Ok (set_out (pre ++ concat (trim_group <$> groups)) st)
  /\ length (pre ++ concat (trim_group <$> groups)) = length (out st).
Proof.
  intros Hne Hout Hch. split.
  - by apply (trim_chunks st cpre).
  - rewrite Hout, !length_app. f_equal. pose proof (len_concat_trim groups). unfold len in *. lia.
Qed.

Lemma trim_groups_witness :
  let a := string2record (py " a ") false in
  let b := string2record (py " b ") false in
  let c := mkrec 1 3 0 0 (py " c ") in
  let st := set_chunks [0; 2] (set_out [a; b; c] init_state) in
  trim 2 st
  = Ok (set_out [string2record (py "a ") false; string2record (py " b") false; c] st).
Proof.
  intros a b c st.
  assert (Forall (fun g : list record => g <> []) [[a; b]; [c]]) as Hne
    by (repeat constructor; done).
  exact (proj1 (trim_groups st [] [] [[a; b]; [c]] Hne eq_refl eq_refl)).
Defined.

(** ** Collapsing the chunks (stack.py) *)

Lemma join_all_rb (g : list record) :
  g <> [] -> Forall (fun r => 0 <= rb r) g -> exists r, join_all g = Ok r /\ 0 <= rb r.
Proof. apply join_all_ok. Qed.

Lemma joined_groups (groups : list (list record)) :
  Forall (fun g => g <> []) groups ->
  Forall (Forall (fun r => 0 <= rb r)) groups ->
  exists joined, Forall2 (fun g r => join_all g = Ok r) groups joined.
Proof.
  induction groups as [|g gs IH]; intros Hne Hrb.
  - by exists [].
  - inversion Hne; subst. inversion Hrb; subst.
    destruct IH as (js & Hjs); [done..|].
    destruct (join_all_ok g) as (r & Hr & _); [done..|].
    exists (r :: js). by constructor.
Qed.

Lemma fold_join_range (out_ : list record) (rest : list record) :
  forall (P B : list record) (s : Z) (acc : M record),
    out_ = P ++ rest ++ B -> s = len P ->
    foldl (fun acc i => acc ≫= λ a : record, py_get out_ i ≫= λ x : record, join_records a x)
          acc ((fun i => s + Z.of_nat i) <$> seq 0 (length rest))
    = foldl (fun acc x => acc ≫= λ a : record, join_records a x) acc rest.
Proof.
  induction rest as [|z rest IH]; intros P B s acc Hout ->; [done|].
  cbn [length seq fmap list_fmap foldl]. rewrite <- fmap_S_seq, <- list_fmap_compose.
  assert (py_get out_ (len P + Z.of_nat 0) = Ok z) as Hz.
  { rewrite Hout. replace (len P + Z.of_nat 0) with (len P) by lia. apply py_get_middle. }
  assert ((acc ≫= λ a : record, py_get out_ (len P + Z.of_nat 0) ≫= λ x : record, join_records a x)
          = (acc ≫= λ a : record, join_records a z)) as ->.
  { destruct acc; try reflexivity. by rewrite !bind_Ok, Hz. }
  rewrite <- (IH (P ++ [z]) B (len P + 1)).
  - f_equal. apply list_fmap_ext. intros _ i _. unfold compose. lia.
  - by rewrite <- app_assoc.
  - rewrite len_app. reflexivity.
Qed.

Lemma assign_slice_middle {A} (P g B : list A) (x : A) :
  g <> [] ->
  assign_slice (len P) (len P + len g) x (P ++ g ++ B) = P ++ x :: B.
Proof.
  intros Hne. unfold assign_slice, clamp. pose proof (len_nonneg P).
  pose proof (len_nonneg g). pose proof (len_nonneg B).
  rewrite !len_app. replace (len P <? 0) with false by lia.
  replace (len P + len g <? 0) with false by lia.
  replace (Z.to_nat (Z.min (len P) (len P + (len g + len B)))) with (length P)
    by (unfold len in *; lia).
  replace (Z.to_nat (Z.min (len P + len g) (len P + (len g + len B))))
    with (length P + length g)%nat by (unfold len in *; lia).
  rewrite take_app_length. f_equal. f_equal.
  replace (length P `max` (length P + length g))%nat with (length P + length g)%nat by lia.
  rewrite drop_app_ge by lia. replace (length P + length g - length P)%nat with (length g) by lia.
  by rewrite drop_app_length.
Qed.

Lemma collapseOne_at (st : State) (k : Z) (A g B : list record) (r : record) :
  g <> [] -> out st = A ++ g ++ B -> k < len (chunks st) ->
  py_get (chunks st) k = Ok (len A) ->
  (if k =? len (chunks st) - 1 then B = []
   else py_get (chunks st) (k + 1) = Ok (len A + len g)) ->
  join_all g = Ok r ->
  collapseOne k st = Ok (set_out (A ++ r :: B) st).
Proof.
  intros Hne Hout Hk Hstart Hnext Hjoin. unfold collapseOne.
  replace (len (chunks st) <=? k) with false by lia.
  pose proof (len_nonneg A). pose proof (len_pos_of_not_nil g Hne) as Hg.
  assert ((if k =? len (chunks st) - 1 then Ok (len (out st) - 1)
           else py_get (chunks st) (k + 1) ≫= λ c : Z, Ok (c - 1))
          = Ok (len A + len g - 1)) as ->.
  { destruct (k =? len (chunks st) - 1).
    - subst B. rewrite Hout, app_nil_r, len_app. done.
    - by rewrite Hnext, bind_Ok. }
  rewrite bind_Ok, Hstart, bind_Ok.
  destruct g as [|x rest]; [done|]. cbn [join_all] in Hjoin.
  destruct rest as [|y rest].
  - cbn [foldl] in Hjoin. injection Hjoin as <-.
    change (len [x]) with 1. replace (len A + 1 - 1 <=? len A) with true by lia.
    change (A ++ x :: B) with (A ++ [x] ++ B). by rewrite <- Hout, set_out_same.
  - assert (len (x :: y :: rest) = len rest + 2) as Hlen by (unfold len; cbn [length]; lia).
    pose proof (len_nonneg rest).
    replace (len A + len (x :: y :: rest) - 1 <=? len A) with false by lia.
    rewrite Hout at 1. change (A ++ (x :: y :: rest) ++ B) with (A ++ x :: (y :: rest) ++ B).
    rewrite py_get_middle, bind_Ok. unfold range2.
    replace (Z.to_nat (len A + len (x :: y :: rest) - 1 + 1 - (len A + 1)))
      with (length (y :: rest)) by (unfold len; cbn [length]; lia).
    rewrite (fold_join_range (out st) (y :: rest) (A ++ [x]) B (len A + 1) (Ok x)).
    + rewrite Hjoin, bind_Ok. f_equal. f_equal.
      replace (len A + len (x :: y :: rest) - 1 + 1) with (len A + len (x :: y :: rest)) by lia.
      rewrite Hout. by apply assign_slice_middle.
    + rewrite Hout, <- app_assoc. reflexivity.
    + rewrite len_app. reflexivity.
Qed.

Lemma collapse_loop1 (st : State) (cpre : list Z) (pre : list record)
    (groups : list (list record)) (joined : list record) (i : nat) :
  Forall (fun g => g <> []) groups ->
  Forall2 (fun g r => join_all g = Ok r) groups joined ->
  out st = pre ++ concat groups ->
  chunks st = cpre ++ group_starts (len pre) groups ->
  (i <= length groups)%nat ->
  foldl (fun acc i => acc ≫= λ st : State, collapseOne (len (chunks st) - 1 - i) st)
        (Ok st) (Z.of_nat <$> seq 0 i)
  = Ok (set_out (pre ++ concat (take (length groups - i) groups)
                 ++ drop (length groups - i) joined) st).
Proof.
  intros Hne Hj Hout Hch. pose proof (Forall2_length _ _ _ Hj) as Hlen.
  induction i as [|i IH]; intros Hi.
  - rewrite Nat.sub_0_r, firstn_all, Hlen, drop_all, app_nil_r.
    cbn [seq fmap list_fmap foldl]. by rewrite <- Hout, set_out_same.
  - rewrite seq_S, fmap_app, foldl_app, IH by lia. cbn [fmap list_fmap foldl].
    rewrite bind_Ok. set (j := (length groups - S i)%nat).
    replace (length groups - i)%nat with (S j) by lia.
    set (st1 := set_out _ st). change (chunks st1) with (chunks st).
    destruct (lookup_lt_is_Some_2 groups j ltac:(lia)) as [g Hg].
    destruct (lookup_lt_is_Some_2 joined j ltac:(lia)) as [r Hr].
    pose proof (Forall2_lookup_lr _ _ _ _ _ _ Hj Hg Hr) as Hgr. cbv beta in Hgr.
    assert (g <> []) as Hgne by (eapply Forall_lookup_1 in Hne; eauto).
    assert (len (chunks st) = len cpre + len groups) as Hlc.
    { rewrite Hch, len_app. unfold len. by rewrite len_group_starts. }
    rewrite (collapseOne_at st1 _ (pre ++ concat (take j groups)) g (drop (S j) joined) r);
      [| done | | | | | done].
    + unfold st1. rewrite set_out_set_out. do 2 f_equal. rewrite <- app_assoc. f_equal.
      by rewrite (drop_S _ _ _ Hr).
    + unfold st1. cbn [out set_out]. rewrite (take_S_r _ _ _ Hg), concat_app.
      cbn [concat]. by rewrite app_nil_r, <- !app_assoc.
    + change (chunks st1) with (chunks st). unfold len in *. lia.
    + change (chunks st1) with (chunks st). rewrite Hlc.
      replace (len cpre + len groups - 1 - Z.of_nat (0 + i)) with (len cpre + Z.of_nat j)
        by (unfold len, j; lia).
      rewrite Hch, len_app. apply py_get_app_r. apply group_starts_lookup. lia.
    + change (chunks st1) with (chunks st). rewrite Hlc.
      replace (len cpre + len groups - 1 - Z.of_nat (0 + i)) with (len cpre + Z.of_nat j)
        by (unfold len, j; lia).
      destruct (Z.eqb_spec (len cpre + Z.of_nat j) (len cpre + len groups - 1)) as [E|E].
      * apply drop_ge. unfold len in E. lia.
      * replace (len cpre + Z.of_nat j + 1) with (len cpre + Z.of_nat (S j)) by lia.
        rewrite Hch, len_app. apply py_get_app_r.
        rewrite group_starts_lookup by (unfold len in E; lia).
        rewrite (take_S_r _ _ _ Hg), concat_app, len_app. cbn [concat]. rewrite app_nil_r.
        f_equal. lia.
Qed.

Lemma collapse_loop2 (st : State) (cpre starts : list Z) (c0 n : Z) (m : nat) :
  chunks st = cpre ++ c0 :: starts -> n = len starts + 1 ->
  (m <= length starts)%nat ->
  foldl (fun acc i =>
           acc ≫= λ st : State,
           py_get (chunks st) (len (chunks st) - n) ≫= λ c : Z,
           py_set (chunks st) (len (chunks st) - i) (c + n - i) ≫= λ cs : list Z,
           Ok (set_chunks cs st))
        (Ok st) ((fun i => 1 + Z.of_nat i) <$> seq 0 m)
  = Ok (set_chunks (cpre ++ c0 :: take (length starts - m) starts
                    ++ ((fun q => c0 + Z.of_nat q) <$> seq (S (length starts) - m) m)) st).
Proof.
  intros Hch Hn. induction m as [|m IH]; intros Hm.
  - rewrite Nat.sub_0_r, firstn_all. cbn [seq fmap list_fmap foldl]. rewrite app_nil_r.
    rewrite <- Hch. by destruct st.
  - rewrite seq_S, fmap_app, foldl_app, IH by lia. cbn [fmap list_fmap foldl].
    rewrite bind_Ok. set (p := (length starts - S m)%nat).
    destruct (lookup_lt_is_Some_2 starts p ltac:(lia)) as [old Hold].
    replace (length starts - m)%nat with (S p) by lia.
    set (tl := (fun q : nat => c0 + Z.of_nat q) <$> seq (S (length starts) - m) m).
    set (st1 := set_chunks _ st).
    assert (chunks st1 = (cpre ++ c0 :: take p starts) ++ old :: tl) as Hch1.
    { unfold st1. cbn [chunks set_chunks]. rewrite (take_S_r _ _ _ Hold).
      by rewrite <- !app_assoc. }
    assert (len (cpre ++ c0 :: take p starts) = len cpre + 1 + Z.of_nat p) as Hlp.
    { rewrite len_app. unfold len. cbn [length]. rewrite length_take. lia. }
    assert (len tl = Z.of_nat m) as Hlt.
    { unfold tl, len. by rewrite length_fmap, length_seq. }
    assert (len (chunks st1) = len cpre + n) as Hlc.
    { rewrite Hch1, len_app, Hlp. unfold len in *. cbn [length]. unfold p. lia. }
    rewrite Hlc. replace (len cpre + n - n) with (len cpre) by lia.
    assert (py_get (chunks st1) (len cpre) = Ok c0) as ->.
    { unfold st1. cbn [chunks set_chunks]. apply py_get_middle. }
    rewrite bind_Ok.
    replace (len cpre + n - (1 + Z.of_nat (0 + m))) with (len (cpre ++ c0 :: take p starts))
      by (rewrite Hlp; unfold len in *; unfold p; lia).
    rewrite Hch1 at 1. rewrite py_set_middle, bind_Ok.
    unfold st1. f_equal.
    transitivity (set_chunks ((cpre ++ c0 :: take p starts)
                    ++ c0 + n - (1 + Z.of_nat (0 + m)) :: tl) st); [reflexivity|].
    f_equal. rewrite <- app_assoc. f_equal. cbn [app]. f_equal. f_equal.
    replace (S (length starts) - S m)%nat with (S p) by (unfold p; lia).
    unfold tl. replace (S (length starts) - m)%nat with (S (S p)) by (unfold p; lia).
    cbn [seq fmap list_fmap]. f_equal. unfold len in Hn. unfold p. lia.
Qed.

Lemma collapse_joined (st : State) (lv : Z) (cpre : list Z) (pre : list record)
    (groups : list (list record)) (joined : list record) :
  last (level st) = Some lv -> lv <= len cpre ->
  groups <> [] ->
  Forall (fun g => g <> []) groups ->
  Forall2 (fun g r => join_all g = Ok r) groups joined ->
  out st = pre ++ concat groups ->
  chunks st = cpre ++ group_starts (len pre) groups ->
  collapse (len groups) st
  = Ok (set_chunks (cpre ++ ((fun q => len pre + Z.of_nat q) <$> seq 0 (length groups)))
          (set_out (pre ++ joined) st)).
Proof.
  intros Hlv Hle Hg0 Hne Hj Hout Hch.
  pose proof (Forall2_length _ _ _ Hj) as Hlen.
  assert (len (chunks st) = len cpre + len groups) as Hlc.
  { rewrite Hch, len_app. unfold len. by rewrite len_group_starts. }
  pose proof (len_pos_of_not_nil groups Hg0) as Hpos.
  unfold collapse. rewrite (py_get_last _ _ Hlv), bind_Ok. cbv zeta.
  replace (len (chunks st) - lv <? len groups) with false by lia.
  replace (0 <? len groups) with true by lia.
  unfold range. replace (Z.to_nat (len groups)) with (length groups) by (unfold len; lia).
  rewrite (collapse_loop1 st cpre pre groups joined (length groups) Hne Hj Hout Hch) by lia.
  rewrite Nat.sub_diag, take_0, drop_0. cbn [concat app]. rewrite bind_Ok.
  destruct groups as [|g0 gs]; [done|]. cbn [group_starts] in Hch.
  unfold range2. replace (Z.to_nat (len (g0 :: gs) - 1)) with (length (group_starts (len pre + len g0) gs))
    by (rewrite len_group_starts; unfold len; cbn [length]; lia).
  rewrite (collapse_loop2 (set_out (pre ++ joined) st) cpre
             (group_starts (len pre + len g0) gs) (len pre) (len (g0 :: gs))).
  - rewrite Nat.sub_diag, take_0. cbn [app]. do 3 f_equal.
    rewrite len_group_starts. replace (S (length gs) - length gs)%nat with 1%nat by lia.
    cbn [length seq fmap list_fmap]. f_equal. lia.
  - exact Hch.
  - unfold len. rewrite len_group_starts. cbn [length]. lia.
  - lia.
Qed.

(** X21. [collapse(n)] on a frame whose last [n] chunks hold at least
    one record each (baselines not negative): it does not raise, each of
    these chunks becomes the single record got by joining its records
    from left to right, and the chunk boundaries are renumbered so that
    the [n] chunks follow one another, one record each; the records and
    the boundaries before them, and the rest of the state, are kept. *)
Theorem collapse_groups (st : State) (lv : Z) (cpre : list Z) (pre : list record)
    (groups : list (list record)) :
  last (level st) = Some lv -> lv <= len cpre ->
  groups <> [] ->
  Forall (fun g => g <> []) groups ->
  Forall (Forall (fun r => 0 <= rb r)) groups ->
  out st = pre ++ concat groups ->
  chunks st = cpre ++ group_starts (len pre) groups ->
  exists joined,
    Forall2 (fun g r => join_all g = Ok r) groups joined
    /\ collapse (len groups) st
       = Ok (set_chunks (cpre ++ ((fun q => len pre + Z.of_nat q) <$> seq 0 (length groups)))
               (set_out (pre ++ joined) st)).
Proof.
  intros Hlv Hle Hg0 Hne Hrb Hout Hch.
  destruct (joined_groups groups Hne Hrb) as (joined & Hj). exists joined. split; [done|].
  by apply (collapse_joined st lv).
Qed.

Lemma collapse_groups_witness :
  let a := string2record (py "a") false in
  let b := string2record (py "b") false in
  let c := string2record (py "c") false in
  let st := set_chunks [0; 2] (set_out [a; b; c] init_state) in
  collapse 2 st
  = Ok (set_chunks [0; 1] (set_out [mkrec 1 2 0 0 (py "ab"); c] st)).
Proof.
  intros a b c st.
  assert (Forall (fun g : list record => g <> []) [[a; b]; [c]]) as Hne
    by (repeat constructor; done).
  assert (Forall (Forall (fun r => 0 <= rb r)) [[a; b]; [c]]) as Hrb
    by (repeat constructor; done).
  destruct (collapse_groups st 0 [] [] [[a; b]; [c]] eq_refl (Z.le_refl 0)
              ltac:(done) Hne Hrb eq_refl eq_refl) as (joined & Hj & E).
  inversion Hj as [|g r gs js H1 Hj']; subst. inversion Hj' as [|g' r' gs' js' H2 Hj'']; subst.
  inversion Hj''; subst. vm_compute in H1. vm_compute in H2.
  injection H1 as <-. injection H2 as <-. exact E.
Defined.

(** ** Cutting and joining again (records.py, join.py) *)

Lemma rec_lines_lines_of (r : record) :
  1 <= rh r -> rec_lines r = lines_of (rh r) (rs r).
Proof.
  intros Hh. unfold rec_lines, lines_of. replace (rh r =? 0) with false by lia.
  destruct (is_empty_str (rs r)); [|done]. unfold pad_lines.
  rewrite len_replicate. change (len (@nil pystr)) with 0.
  replace (Z.to_nat (rh r - Z.of_nat (Z.to_nat (rh r)))) with 0%nat by lia.
  cbn [replicate app]. rewrite app_nil_r. f_equal. lia.
Qed.

Lemma len_slice_to {A} (k : Z) (l : list A) : 0 <= k -> len (slice_to k l) = Z.min k (len l).
Proof.
  intros Hk. unfold slice_to, clamp. replace (k <? 0) with false by lia.
  unfold len. rewrite length_take. lia.
Qed.

Lemma len_slice_from {A} (k : Z) (l : list A) :
  0 <= k -> len (slice_from k l) = Z.max 0 (len l - k).
Proof.
  intros Hk. unfold slice_from, clamp. replace (k <? 0) with false by lia.
  unfold len. rewrite length_drop. lia.
Qed.

Lemma slice_from_all {A} (k : Z) (l : list A) : len l <= k -> slice_from k l = [].
Proof.
  intros H. unfold slice_from, clamp. pose proof (len_nonneg l).
  replace (k <? 0) with false by lia. apply drop_ge. unfold len in *. lia.
Qed.

(** X22. Cutting a record and joining the two parts again gives the
    record back, up to blanks at the end of its rows: for a record of
    height at least 1 that satisfies the invariant of the data model and
    a column [n] within its width, [join_records] of the two parts of
    [cut n r] has the height, width and baseline of [r], and each of its
    rows is the row of [r] followed by blanks only, never beyond the
    width (so a row of full width is unchanged). *)
Theorem cut_then_join (n : Z) (r : record) :
  well_formed r -> 1 <= rh r -> 0 <= n <= rl r ->
  exists j,
    join_records (cut n r).1 (cut n r).2 = Ok j
    /\ rh j = rh r /\ rl j = rl r /\ rb j = rb r
    /\ forall p, 0 <= p < rh r ->
         exists k, 0 <= k <= rl r - len (lines_of (rh r) (rs r) !!! Z.to_nat p)
           /\ lines_of (rh j) (rs j) !!! Z.to_nat p
              = lines_of (rh r) (rs r) !!! Z.to_nat p ++ spaces k.
Proof.
  intros (Hb & Hl & Hrows) Hh Hn.
  assert (eff_height r = rh r) as Heff by (unfold eff_height; by replace (rh r =? 0) with false by lia).
  rewrite Heff in Hb, Hrows.
  set (lines := lines_of (rh r) (rs r)) in *.
  assert (rh r <= len lines) as Hlen by apply len_lines_of.
  assert (Forall (fun l => NL ∉ l) lines) as Hfree by apply lines_of_free.
  assert (cut n r = (mkrec (rh r) n (rb r) 0 (join_with NL (slice_to n <$> lines)),
                     mkrec (rh r) (rl r - n) (rb r) 0 (join_with NL (slice_from n <$> lines))))
    as ->.
  { unfold cut. replace (rl r - n <? 0) with false by lia.
    replace (rh r =? 0) with false by lia. cbn [negb].
    pose proof (rec_lines_lines_of r Hh) as E. unfold rec_lines in E.
    replace (rh r =? 0) with false in E by lia. by rewrite E. }
  cbn [fst snd]. set (L := mkrec _ n _ _ _). set (R := mkrec _ (rl r - n) _ _ _).
  assert (lines_of (rh r) (rs L) = slice_to n <$> lines) as HL.
  { apply lines_of_joined; [lia|by rewrite len_fmap|].
    apply Forall_fmap. eapply Forall_impl; [exact Hfree|]. intros l Hl0. by apply slice_to_free. }
  assert (lines_of (rh r) (rs R) = slice_from n <$> lines) as HR.
  { apply lines_of_joined; [lia|by rewrite len_fmap|].
    apply Forall_fmap. eapply Forall_impl; [exact Hfree|]. intros l Hl0. by apply slice_from_free. }
  assert (eff_height L = rh r) as HeL by exact Heff.
  assert (eff_height R = rh r) as HeR by exact Heff.
  assert (well_formed L) as WL.
  { unfold well_formed. rewrite HeL, HL. unfold L. cbn [rb rl]. split; [done|]. split; [lia|].
    apply Forall_fmap. apply Forall_forall. intros l _. unfold compose.
    rewrite len_slice_to by lia. lia. }
  assert (well_formed R) as WR.
  { unfold well_formed. rewrite HeR, HR. unfold R. cbn [rb rl]. split; [done|]. split; [lia|].
    apply Forall_fmap. eapply Forall_impl; [exact Hrows|]. intros l Hl0. unfold compose in *.
    rewrite len_slice_from by lia. lia. }
  assert (joined_height L R = rh r) as HJ.
  { unfold joined_height. rewrite HeL, HeR. unfold L, R. cbn [rb]. lia. }
  destruct (join_records_plain L R WL WR) as (j & E & Hjh & Hjl & Hjb & Hrow).
  { rewrite HJ. unfold operand_of. rewrite HeL. apply regenerated_full_height. }
  { rewrite HJ. unfold operand_of. rewrite HeR. apply regenerated_full_height. }
  exists j. split; [done|]. rewrite HJ in Hjh. split; [done|].
  unfold L, R in Hjl, Hjb. cbn [rl rb] in Hjl, Hjb.
  split; [lia|]. split; [lia|].
  intros p Hp. rewrite Hrow by lia. change (rb L) with (rb r). change (rb R) with (rb r).
  change (rl L) with n. change (rl R) with (rl r - n).
  replace (Z.max (rb r) (rb r)) with (rb r) by lia. replace (rb r - rb r) with 0 by lia.
  assert (Z.to_nat p < length lines)%nat as Hpl by (unfold len in Hlen; lia).
  assert (row_at L 0 p = slice_to n (lines !!! Z.to_nat p)) as ->.
  { unfold row_at. rewrite HeL, HL. replace ((0 <=? p) && (p <? 0 + rh r)) with true by lia.
    replace (p - 0) with p by lia. by rewrite (list_lookup_total_fmap (slice_to n)). }
  assert (row_at R 0 p = slice_from n (lines !!! Z.to_nat p)) as ->.
  { unfold row_at. rewrite HeR, HR. replace ((0 <=? p) && (p <? 0 + rh r)) with true by lia.
    replace (p - 0) with p by lia. by rewrite (list_lookup_total_fmap (slice_from n)). }
  assert (len (lines !!! Z.to_nat p) <= rl r) as Hrow_le.
  { eapply Forall_lookup_1 in Hrows; [exact Hrows|]. by apply list_lookup_lookup_total_lt. }
  set (row := lines !!! Z.to_nat p) in *. pose proof (len_nonneg row) as Hr0.
  unfold ljust. rewrite len_slice_to, len_slice_from by lia.
  destruct (Z.le_gt_cases (len row) n) as [Hle|Hgt].
  - rewrite slice_to_all, slice_from_all by done.
    replace (n - Z.min n (len row)) with (n - len row) by lia.
    replace (Z.max 0 (len row - n) =? 0) with true by lia. rewrite andb_true_r.
    destruct (p =? rb r).
    + exists (rl r - len row). split; [lia|]. rewrite <- app_assoc. f_equal.
      rewrite spaces_add by lia. f_equal. lia.
    + exists (n - len row). split; [lia|]. by rewrite app_nil_r.
  - exists 0. split; [lia|]. replace (Z.max 0 (len row - n) =? 0) with false by lia.
    rewrite andb_false_r. replace (n - Z.min n (len row)) with 0 by lia.
    change (spaces 0) with (@nil N). by rewrite !app_nil_r, slice_app.
Qed.

Lemma cut_then_join_witness :
  exists j,
    join_records (cut 2 fraction_record).1 (cut 2 fraction_record).2 = Ok j
    /\ rh j = 3 /\ rl j = 3 /\ rb j = 1
    /\ lines_of 3 (rs j) = lines_of 3 (rs fraction_record).
Proof.
  assert (well_formed fraction_record) as W.
  { split; [done|]. split; [done|]. vm_compute. repeat constructor; discriminate. }
  destruct (cut_then_join 2 fraction_record W ltac:(done) ltac:(done))
    as (j & E & Hh & Hl & Hb & _).
  exists j. split; [exact E|]. split; [exact Hh|]. split; [exact Hl|]. split; [exact Hb|].
  vm_compute in E. injection E as <-. reflexivity.
Defined.

(** ** The fraction builder (math_ops.py) *)

Lemma vStack_eq (a b : record) :
  0 <= rh a -> 0 <= rh b ->
  vStack a b =
  mkrec (eff_height a + eff_height b) (Z.max (rl a) (rl b)) (eff_height a - 1) 0
    (join_with NL (lines_of (eff_height a) (rs a) ++ lines_of (eff_height b) (rs b))).
Proof.
  intros Ha Hb.
  pose proof (eff_height_ge a Ha) as Ha1. pose proof (eff_height_ge b Hb) as Hb1.
  unfold vStack. cbv zeta. fold (eff_height a). fold (eff_height b).
  by rewrite !lines_of_alt.
Qed.

Lemma vStack_lines (a b : record) :
  0 <= rh a -> 0 <= rh b ->
  lines_of (eff_height (vStack a b)) (rs (vStack a b))
  = lines_of (eff_height a) (rs a) ++ lines_of (eff_height b) (rs b).
Proof.
  intros Ha Hb.
  pose proof (eff_height_ge a Ha) as Ha1. pose proof (eff_height_ge b Hb) as Hb1.
  rewrite vStack_eq by done. rewrite eff_height_mkrec by lia. cbn [rs].
  apply lines_of_joined; [lia| |].
  - rewrite len_app. pose proof (len_lines_of (eff_height a) (rs a)).
    pose proof (len_lines_of (eff_height b) (rs b)). lia.
  - apply Forall_app. split; apply lines_of_free.
Qed.

Lemma center_frame (w : Z) (r : record) :
  0 <= rh r -> get_length r <= w ->
  0 <= rh (center w r) /\ eff_height (center w r) = eff_height r
  /\ rl (center w r) = w.
Proof.
  intros Hh Hw. unfold get_length in Hw. replace (0 <=? rh r) with true in Hw by lia.
  cbn [andb] in Hw. unfold center. cbv zeta.
  destruct (Z.leb_spec (w - rl r) 0) as [Hle|Hgt].
  - split; [done|]. split; [done|]. destruct (Z.leb_spec 0 (rl r)); lia.
  - fold (eff_height r). pose proof (eff_height_ge r Hh). cbn [rh rl].
    split; [lia|]. split; [|done]. by apply eff_height_mkrec.
Qed.

Lemma py_get_snoc2 {A} (l : list A) (x y : A) : py_get (l ++ [x; y]) (-2) = Ok x.
Proof.
  unfold py_get, py_pos. change (-2 <? 0) with true. cbv iota.
  rewrite len_app. change (len [x; y]) with 2. pose proof (len_nonneg l).
  replace (0 <=? len l + 2 + -2) with true by lia.
  replace (Z.to_nat (len l + 2 + -2)) with (length l) by (unfold len; lia).
  by rewrite list_lookup_middle.
Qed.

Lemma py_set_snoc2 {A} (l : list A) (x y z : A) :
  py_set (l ++ [x; y]) (-2) z = Ok (l ++ [z; y]).
Proof.
  unfold py_set, py_pos. change (-2 <? 0) with true. cbv iota.
  rewrite len_app. change (len [x; y]) with 2. pose proof (len_nonneg l).
  replace (0 <=? len l + 2 + -2) with true by lia.
  replace (Z.to_nat (len l + 2 + -2)) with (length l) by (unfold len; lia).
  f_equal. rewrite insert_app_r_alt by lia. by rewrite Nat.sub_diag.
Qed.

Lemma lines_of_dashes (w : Z) : lines_of 1 (rep DASH w) = [rep DASH w].
Proof.
  unfold rep. destruct (Z.to_nat w) as [|n] eqn:E; [reflexivity|].
  rewrite <- E. replace (replicate (Z.to_nat w) DASH) with (join_with NL [replicate (Z.to_nat w) DASH]) at 1
    by reflexivity.
  apply lines_of_joined; [lia|unfold len; cbn [length]; lia|].
  constructor; [|constructor]. intros H. apply elem_of_replicate in H as [H _]. discriminate H.
Qed.

(** X23. [f_fraction] on a frame of exactly two chunks of one record
    each, the numerator and the denominator, when the text before the
    fraction in the buffer ends with a blank and nothing but white space
    follows in the paragraph: the two records are trimmed, and the frame
    is closed (by [finish]) with a single record in their place whose
    width is the larger of the two widths, whose rows are the rows of
    the numerator centred in that width, a rule of that many dashes, and
    the rows of the denominator centred, and whose baseline is the row
    of the rule. *)
Theorem f_fraction_block (finish : waitv -> bool -> State -> M State) (st : State)
    (cpre : list Z) (pre : list record) (N D : record) :
  last (level st) = Some (len cpre) ->
  out st = pre ++ [N; D] ->
  chunks st = cpre ++ [len pre; len pre + 1] ->
  0 <= rh N -> 0 <= rh D ->
  (forall prev, last pre = Some prev -> endswith (py " ") (rs prev) = true) ->
  lstrip (par st) = [] ->
  let N' := trimmed_end (trimmed_beg N) in
  let D' := trimmed_end (trimmed_beg D) in
  let w := Z.max (get_length N') (get_length D') in
  exists F,
    f_fraction finish st
    = finish (WI 2) true (set_chunks (cpre ++ [len pre]) (set_out (pre ++ [F]) st))
    /\ rh F = eff_height N' + 1 + eff_height D'
    /\ rl F = w
    /\ rb F = eff_height N'
    /\ lines_of (rh F) (rs F)
       = lines_of (eff_height N') (rs (center w N')) ++ [rep DASH w]
         ++ lines_of (eff_height D') (rs (center w D')).
Proof.
  intros Hlv Hout Hch HhN HhD Hprev Hpar N' D' w.
  assert (0 <= rh N') as HhN'.
  { unfold N', trimmed_end, trimmed_beg. destruct (rh N =? 0) eqn:E; cbn [string2record rh].
    - done.
    - rewrite E. lia. }
  assert (0 <= rh D') as HhD'.
  { unfold D', trimmed_end, trimmed_beg. destruct (rh D =? 0) eqn:E; cbn [string2record rh].
    - done.
    - rewrite E. lia. }
  assert (0 <= w) as Hw0.
  { unfold w, get_length. destruct ((0 <=? rh N') && (0 <=? rl N')) eqn:E; [|lia].
    apply andb_true_iff in E as [_ E]. lia. }
  destruct (center_frame w N' HhN' ltac:(lia)) as (HcN & HeN & HlN).
  destruct (center_frame w D' HhD' ltac:(lia)) as (HcD & HeD & HlD).
  set (cN := center w N') in *. set (cD := center w D') in *.
  set (line := string2record (rep DASH w) false).
  assert (len (rep DASH w) = w) as Hlr by (unfold rep; rewrite len_replicate; lia).
  pose proof (eff_height_ge N' HhN') as HeN1. pose proof (eff_height_ge D' HhD') as HeD1.
  set (V1 := vStack cN line). set (V2 := vStack V1 cD).
  assert (V1 = mkrec (eff_height N' + 1) w (eff_height N' - 1) 0
                 (join_with NL (lines_of (eff_height N') (rs cN) ++ [rep DASH w]))) as HV1.
  { unfold V1. rewrite vStack_eq by done. rewrite HeN, HlN.
    change (eff_height line) with 1. change (rl line) with (len (rep DASH w)).
    change (rs line) with (rep DASH w). rewrite Hlr, lines_of_dashes. f_equal. lia. }
  assert (0 <= rh V1) as HhV1 by (rewrite HV1; cbn [rh]; lia).
  assert (eff_height V1 = eff_height N' + 1) as HeV1
    by (rewrite HV1; apply eff_height_mkrec; lia).
  assert (lines_of (eff_height V1) (rs V1)
          = lines_of (eff_height N') (rs cN) ++ [rep DASH w]) as HlV1.
  { unfold V1. rewrite vStack_lines by done. rewrite HeN.
    change (eff_height line) with 1. change (rs line) with (rep DASH w).
    by rewrite lines_of_dashes. }
  assert (V2 = mkrec (eff_height N' + 1 + eff_height D') w (eff_height N') 0 (rs V2)) as HV2.
  { unfold V2 at 1. rewrite vStack_eq by done. rewrite HeV1, HeD, HlD.
    replace (rl V1) with w by (rewrite HV1; reflexivity).
    unfold V2. rewrite (vStack_eq V1 cD) by done. cbn [rs]. rewrite HeV1, HeD.
    f_equal; lia. }
  assert (lines_of (eff_height V2) (rs V2)
          = lines_of (eff_height N') (rs cN) ++ [rep DASH w]
            ++ lines_of (eff_height D') (rs cD)) as HlV2.
  { unfold V2. rewrite vStack_lines by done. rewrite HlV1, HeD. by rewrite <- app_assoc. }
  assert (eff_height V2 = eff_height N' + 1 + eff_height D') as HeV2
    by (rewrite HV2; apply eff_height_mkrec; lia).
  assert (get_height cN = eff_height N') as Hgh.
  { unfold get_height. replace (0 <=? rh cN) with true by lia. rewrite <- HeN.
    unfold eff_height. destruct (Z.eqb_spec (rh cN) 0) as [->|]; [done|].
    by replace (0 <? rh cN) with true by lia. }
  set (F := mkrec (eff_height N' + 1 + eff_height D') w (eff_height N') 0 (rs V2)).
  assert (setbaseline V2 (get_height cN) = F) as HF.
  { rewrite Hgh. unfold setbaseline. rewrite HV2. cbn [rh rl rb rsp rs].
    replace (0 <=? eff_height N' + 1 + eff_height D') with true by lia.
    replace (0 <=? w) with true by lia. by replace (0 <=? eff_height N') with true by lia. }
  exists F. split; [|split; [done|split; [done|split; [done|]]]].
  2: { unfold F. cbn [rh rs]. by rewrite <- HeV2, HlV2. }
  unfold f_fraction. change (trim 2 st) with (trim (len [[N]; [D]]) st).
  rewrite (trim_chunks st cpre pre [[N]; [D]]); [| repeat constructor; done | done | done].
  rewrite bind_Ok. change (concat (trim_group <$> [[N]; [D]])) with [N'; D'].
  set (st1 := set_out (pre ++ [N'; D']) st).
  change (collapse 2 st1) with (collapse (len [[N']; [D']]) st1).
  rewrite (collapse_joined st1 (len cpre) cpre pre [[N']; [D']] [N'; D']);
    [| done | lia | done | repeat constructor; done | repeat constructor | done | done].
  rewrite bind_Ok. cbn [length seq fmap list_fmap]. rewrite Z.add_0_r.
  change (len pre + Z.of_nat 1) with (len pre + 1).
  set (st2 := set_chunks _ _).
  unfold require, assertHave.
  change (level st2) with (level st). rewrite (py_get_last _ _ Hlv), !bind_Ok.
  assert (len (chunks st2) - len cpre = 2) as ->.
  { unfold st2. cbn [chunks set_chunks]. rewrite len_app. change (len [len pre; len pre + 1]) with 2. lia. }
  change (2 <=? 2) with true. cbv iota.
  assert (out st2 = pre ++ [N'; D']) as Hout2 by reflexivity.
  rewrite Hout2, py_get_snoc2, bind_Ok.
  replace (pre ++ [N'; D']) with ((pre ++ [N']) ++ [D']) at 1 by (by rewrite <- app_assoc).
  rewrite py_get_snoc, bind_Ok. cbv zeta. fold w. fold cN. fold cD. fold line. fold V1. fold V2.
  rewrite HF.
  assert (fraction_leading_space F st2 = Ok F) as ->.
  { unfold fraction_leading_space. change (level st2) with (level st).
    destruct (level st) as [|l0 ls] eqn:El; [done|].
    rewrite (py_get_last _ _ Hlv), bind_Ok.
    assert (py_get (chunks st2) (len cpre) = Ok (len pre)) as -> by apply py_get_middle.
    rewrite bind_Ok. cbv zeta. rewrite Hout2.
    destruct (decide (pre = [])) as [->|Hne].
    - reflexivity.
    - destruct (exists_last Hne) as (pre' & prev & ->).
      rewrite !len_app. change (len [prev]) with 1. change (len [N'; D']) with 2.
      pose proof (len_nonneg pre').
      replace ((0 <=? len pre' + 1 - 1) && (len pre' + 1 - 1 <? len pre' + 1 + 2)) with true by lia.
      replace (len pre' + 1 - 1) with (len pre') by lia.
      rewrite <- app_assoc. cbn [app]. rewrite py_get_middle, bind_Ok.
      rewrite (Hprev prev) by apply last_snoc. cbn [negb]. by rewrite !andb_false_r. }
  rewrite bind_Ok.
  assert (fraction_trailing_space F st2 = Ok F) as ->.
  { unfold fraction_trailing_space. change (par st2) with (par st). by rewrite Hpar. }
  rewrite bind_Ok. unfold set_out_at. rewrite Hout2, py_set_snoc2, bind_Ok.
  unfold pop_chunk_and_out. rewrite bind_Ok.
  change (chunks (set_out (pre ++ [F; D']) st2)) with (cpre ++ [len pre; len pre + 1]).
  replace (cpre ++ [len pre; len pre + 1]) with ((cpre ++ [len pre]) ++ [len pre + 1])
    by (by rewrite <- app_assoc).
  rewrite py_pop_snoc, bind_Ok.
  change (out (set_out (pre ++ [F; D']) st2)) with (pre ++ [F; D']).
  replace (pre ++ [F; D']) with ((pre ++ [F]) ++ [D']) by (by rewrite <- app_assoc).
  rewrite py_pop_snoc, !bind_Ok.
  reflexivity.
Qed.

Lemma f_fraction_block_witness :
  let st := set_chunks [0; 1]
              (set_out [string2record (py "a+b") false; string2record (py " c ") false]
                 init_state) in
  exists F,
    f_fraction (fun _ _ s => Ok s) st = Ok (set_chunks [0] (set_out [F] st))
    /\ rb F = 1 /\ lines_of (rh F) (rs F) = [py "a+b"; rep DASH 3; py " c "].
Proof.
  intros st.
  destruct (f_fraction_block (fun _ _ s => Ok s) st [] []
              (string2record (py "a+b") false) (string2record (py " c ") false)
              eq_refl eq_refl eq_refl ltac:(done) ltac:(done)
              ltac:(intros prev [=]) eq_refl) as (F & E & Hh & Hl & Hb & Hrows).
  exists F. split; [exact E|]. split; [exact Hb|]. exact Hrows.
Defined.

(** ** The radical builder (math_ops.py) *)

Lemma radical_rows (lines : list pystr) (l h : Z) (top : list pystr) (n : nat) :
  (n <= length lines)%nat ->
  foldl (fun acc i =>
           acc ≫= λ rows : list pystr,
           py_get lines i ≫= λ line : pystr,
           let line_padded := ljust l line in
           if i =? h - 1
           then Ok (rows ++ [U 10189 ++ U 9474 ++ line_padded ++ py " "])
           else Ok (rows ++ [py " " ++ U 9474 ++ line_padded ++ py " "]))
        (Ok top) (Z.of_nat <$> seq 0 n)
  = Ok (top ++ imap (fun i line =>
                       (if Z.of_nat i =? h - 1 then [10189%N; 9474%N] else [SP; 9474%N])
                       ++ ljust l line ++ [SP])
                (take n lines)).
Proof.
  induction n as [|n IH]; intros Hn.
  - cbn [seq fmap list_fmap foldl take imap]. by rewrite take_0, app_nil_r.
  - rewrite seq_S, fmap_app, foldl_app, IH by lia. cbn [fmap list_fmap foldl].
    rewrite bind_Ok. destruct (lookup_lt_is_Some_2 lines n ltac:(lia)) as [x Hx].
    rewrite (py_get_nat lines (Z.of_nat (0 + n)) x); [|lia|by rewrite Nat2Z.id].
    rewrite bind_Ok. cbv zeta. rewrite (take_S_r _ _ _ Hx), imap_app.
    rewrite length_take, Nat.min_l by lia. cbn [imap]. rewrite Nat.add_0_r.
    cbn [plus]. destruct (Z.of_nat n =? h - 1); by rewrite <- app_assoc.
Qed.

(** X24. [f_radical] on a frame whose last chunk holds one record, the
    radicand: the record is trimmed, and the frame is closed (by
    [finish]) with a record one row higher and three columns wider in
    its place, the baseline one row lower; its first row is a blank, the
    corner, as many dashes as the radicand is wide and the closing
    corner; each further row is a row of the radicand filled up to its
    width, with a blank and the bar before it and a blank after it, the
    last row starting with the radical sign instead of the blank.  When
    no row of the radicand is longer than its width, every row of the
    result has the width of the result. *)
Theorem f_radical_block (finish : waitv -> bool -> State -> M State) (st : State)
    (lv : Z) (cpre : list Z) (pre : list record) (R : record) :
  last (level st) = Some lv -> lv <= len cpre ->
  out st = pre ++ [R] ->
  chunks st = cpre ++ [len pre] ->
  0 <= rh R ->
  let R' := trimmed_end (trimmed_beg R) in
  let h := eff_height R' in
  let l := rl R' in
  let rows :=
    (SP :: 9484%N :: rep DASH l ++ [9488%N])
    :: imap (fun i line =>
               (if Z.of_nat i =? h - 1 then [10189%N; 9474%N] else [SP; 9474%N])
               ++ ljust l line ++ [SP])
         (take (Z.to_nat h) (lines_of h (rs R'))) in
  exists S,
    f_radical finish st = finish (WI 1) true (set_out (pre ++ [S]) st)
    /\ rh S = h + 1 /\ rl S = l + 3 /\ rb S = rb R' + 1
    /\ lines_of (rh S) (rs S) = rows
    /\ len rows = h + 1
    /\ (0 <= l -> Forall (fun line => len line <= l) (lines_of h (rs R')) ->
        Forall (fun row => len row = rl S) rows).
Proof.
  intros Hlv Hle Hout Hch HhR R' h l rows.
  assert (0 <= rh R') as HhR'.
  { unfold R', trimmed_end, trimmed_beg. destruct (rh R =? 0) eqn:E; cbn [string2record rh].
    - done.
    - rewrite E. lia. }
  pose proof (eff_height_ge R' HhR') as Hh1. fold h in Hh1.
  pose proof (len_lines_of h (rs R')) as Hlen.
  assert (len rows = h + 1) as Hrows_len.
  { unfold rows, len. cbn [length]. rewrite length_imap, length_take.
    unfold len in Hlen. lia. }
  set (S := mkrec (h + 1) (l + 3) (rb R' + 1) 0 (join_with NL rows)).
  assert (lines_of (h + 1) (join_with NL rows) = rows) as Hlines.
  { apply lines_of_joined; [lia|lia|]. unfold rows. constructor.
    - intros H. apply elem_of_cons in H as [H|H]; [discriminate H|].
      apply elem_of_cons in H as [H|H]; [discriminate H|].
      apply elem_of_app in H as [H|H].
      + apply elem_of_replicate in H as [H _]. discriminate H.
      + apply list_elem_of_singleton in H. discriminate H.
    - apply Forall_forall. intros row Hrow.
      apply elem_of_lookup_imap_1 in Hrow as (i & line & -> & Hline).
      apply lookup_take_Some in Hline as [Hline _].
      pose proof (lines_of_free h (rs R')) as Hfree.
      eapply Forall_lookup_1 in Hfree; [|exact Hline]. cbv beta in Hfree.
      intros H. apply elem_of_app in H as [H|H].
      + destruct (Z.of_nat i =? h - 1);
          repeat (apply elem_of_cons in H as [H|H]; [discriminate H|]);
          by apply elem_of_nil in H.
      + apply elem_of_app in H as [H|H].
        * unfold ljust in H. apply elem_of_app in H as [H|H]; [done|].
          by apply spaces_free in H.
        * apply list_elem_of_singleton in H. discriminate H. }
  exists S. split; [|split; [done|split; [done|split; [done|split; [exact Hlines|split; [done|]]]]]].
  2: { intros Hl0 Hfit. unfold rows. constructor.
       - cbn [rl S]. unfold len. cbn [length]. rewrite length_app.
         unfold rep. rewrite length_replicate. cbn [length]. lia.
       - apply Forall_forall. intros row Hrow.
         apply elem_of_lookup_imap_1 in Hrow as (i & line & -> & Hline).
         apply lookup_take_Some in Hline as [Hline _].
         eapply Forall_lookup_1 in Hfit; [|exact Hline]. cbv beta in Hfit.
         rewrite !len_app, len_ljust. cbn [rl S]. change (len [SP]) with 1.
         pose proof (len_nonneg line).
         destruct (Z.of_nat i =? h - 1);
           [change (len [10189%N; 9474%N]) with 2|change (len [SP; 9474%N]) with 2]; lia. }
  unfold f_radical. change (trim 1 st) with (trim (len [[R]]) st).
  rewrite (trim_chunks st cpre pre [[R]]); [| repeat constructor; done | done | done].
  rewrite bind_Ok. change (concat (trim_group <$> [[R]])) with [R'].
  set (st1 := set_out (pre ++ [R']) st).
  change (collapse 1 st1) with (collapse (len [[R']]) st1).
  rewrite (collapse_joined st1 lv cpre pre [[R']] [R']);
    [| done | lia | done | repeat constructor; done | repeat constructor | done | done].
  rewrite bind_Ok. cbn [length seq fmap list_fmap]. rewrite Z.add_0_r.
  change (set_out (pre ++ [R']) st1) with st1.
  rewrite <- Hch. change (set_chunks (chunks st) st1) with st1.
  unfold require, assertHave.
  change (level st1) with (level st). rewrite (py_get_last _ _ Hlv), !bind_Ok.
  change (chunks st1) with (chunks st).
  assert (len (chunks st) = len cpre + 1) as Hlc by (by rewrite Hch, len_app).
  replace (1 <=? len (chunks st) - lv) with true by lia.
  cbv iota. change (out st1) with (pre ++ [R']). rewrite py_get_snoc, bind_Ok. cbv zeta.
  change (if rh R' =? 0 then 1 else rh R') with h. change (rl R') with l.
  rewrite lines_of_alt by lia. rewrite bind_Ok.
  unfold range. rewrite (radical_rows _ l h) by (unfold len in Hlen; lia).
  rewrite bind_Ok. unfold set_out_at. change (out st1) with (pre ++ [R']).
  assert (py_set (pre ++ [R']) (-1) S = Ok (pre ++ [S])) as HS.
  { unfold py_set, py_pos. change (-1 <? 0) with true. cbv iota. rewrite len_app.
    change (len [R']) with 1. pose proof (len_nonneg pre).
    replace (0 <=? len pre + 1 + -1) with true by lia.
    replace (Z.to_nat (len pre + 1 + -1)) with (length pre) by (unfold len; lia).
    f_equal. rewrite insert_app_r_alt by lia. by rewrite Nat.sub_diag. }
  unfold S in HS. unfold rows in HS.
  change ([py " " ++ U 9484 ++ rep DASH l ++ U 9488]) with [SP :: 9484%N :: rep DASH l ++ [9488%N]].
  change ([SP :: 9484%N :: rep DASH l ++ [9488%N]] ++ ?x) with ((SP :: 9484%N :: rep DASH l ++ [9488%N]) :: x).
  rewrite HS, !bind_Ok. reflexivity.
Qed.

Lemma f_radical_block_witness :
  let st := set_out [string2record (py " x") false] init_state in
  exists S,
    f_radical (fun _ _ s => Ok s) st = Ok (set_out [S] st)
    /\ rh S = 2 /\ rl S = 4 /\ rb S = 1
    /\ lines_of (rh S) (rs S)
       = [[SP; 9484%N; DASH; 9488%N]; [10189%N; 9474%N; 120%N; SP]].
Proof.
  intros st.
  destruct (f_radical_block (fun _ _ s => Ok s) st 0 [] []
              (string2record (py " x") false) eq_refl (Z.le_refl 0) eq_refl eq_refl
              ltac:(done)) as (S & E & Hh & Hl & Hb & Hrows & _).
  exists S. split; [exact E|]. split; [exact Hh|]. split; [exact Hl|]. split; [exact Hb|].
  exact Hrows.
Defined.

(** ** A paragraph of plain text (parser.py) *)

Lemma plain_char_free (s : pystr) (c : char) :
  forallb plain_char s = true -> plain_char c = false -> c ∉ s.
Proof.
  intros H Hc Hin. rewrite forallb_forall in H.
  apply list_elem_of_In in Hin. apply H in Hin. congruence.
Qed.

Lemma single_blanks_space (s : pystr) (c : char) :
  single_blanks s = true -> c ∈ s -> is_space c = true -> c = SP.
Proof.
  induction s as [|x r IH]; intros H Hin Hc; [by apply elem_of_nil in Hin|].
  rewrite single_blanks_cons in H. apply andb_prop in H as [H1 H2].
  apply elem_of_cons in Hin as [->|Hin]; [|by apply IH].
  rewrite Hc in H1. cbn [negb orb] in H1. apply andb_prop in H1 as [H1 _].
  by apply N.eqb_eq in H1.
Qed.

Lemma single_blanks_no_newline (s : pystr) : single_blanks s = true -> NL ∉ s.
Proof. intros H Hin. by pose proof (single_blanks_space s NL H Hin eq_refl). Qed.

Lemma blank_lines_to_par_id (n : nat) (s : pystr) : NL ∉ s -> blank_lines_to_par n s = s.
Proof.
  revert s. induction n as [|n IH]; intros s H; [done|]. destruct s as [|c r]; [done|].
  apply not_elem_of_cons in H as [Hc Hr]. cbn [blank_lines_to_par].
  assert (N.eqb c NL = false) as -> by (apply N.eqb_neq; congruence). by rewrite IH.
Qed.

Lemma squeeze_spaces_id (s : pystr) : single_blanks s = true -> squeeze_spaces s = s.
Proof.
  induction s as [|c r IH]; intros H; [done|].
  rewrite single_blanks_cons in H. apply andb_prop in H as [H1 H2].
  cbn [squeeze_spaces]. destruct (is_space c) eqn:E.
  - cbn [negb orb] in H1. apply andb_prop in H1 as [Hc Hd]. apply N.eqb_eq in Hc. subst c.
    destruct r as [|d r']; [done|]. apply negb_true_iff in Hd. rewrite Hd. by rewrite IH.
  - by rewrite IH.
Qed.

Lemma trim_after_ddollar_id (n : nat) (s : pystr) : 36%N ∉ s -> trim_after_ddollar n s = s.
Proof.
  revert s. induction n as [|n IH]; intros s H; [done|].
  destruct s as [|a [|b [|c r]]]; [done..|].
  apply not_elem_of_cons in H as [Ha Hr]. cbn [trim_after_ddollar].
  assert (N.eqb a 36%N = false) as -> by (apply N.eqb_neq; congruence).
  cbn [andb]. f_equal. by apply IH.
Qed.

Lemma startswith_head (p s : pystr) (c : char) :
  startswith (c :: p) s = true -> c ∈ s.
Proof.
  destruct s as [|x r]; [done|]. cbn [startswith]. intros H.
  apply andb_prop in H as [H _]. apply N.eqb_eq in H. subst. by apply elem_of_cons; left.
Qed.

Lemma startswith_elem (p s : pystr) (c : char) :
  startswith p s = true -> c ∈ p -> c ∈ s.
Proof.
  revert s. induction p as [|x p IH]; intros s H Hin; [by apply elem_of_nil in Hin|].
  destruct s as [|y r]; [done|]. cbn [startswith] in H. apply andb_prop in H as [H1 H2].
  apply N.eqb_eq in H1. subst y. apply elem_of_cons in Hin as [->|Hin].
  - by apply elem_of_cons; left.
  - apply elem_of_cons; right. by apply IH.
Qed.

Lemma drop_final_par_id (s : pystr) : BACKSLASH ∉ s -> drop_final_par s = s.
Proof.
  intros H. unfold drop_final_par. destruct (endswith (py "\par") (rstrip s)) eqn:E; [|done].
  exfalso. unfold endswith in E.
  assert (BACKSLASH ∈ reverse (rstrip s)) as Hin.
  { apply (startswith_elem _ _ BACKSLASH E). change (py "\par") with [BACKSLASH; 112%N; 97%N; 114%N].
    apply elem_of_reverse. by apply elem_of_cons; left. }
  rewrite elem_of_reverse in Hin. by apply (rstrip_free _ _ H).
Qed.

Lemma from_first_free (p s : pystr) (c : char) :
  c ∉ s -> from_first (c :: p) s = None.
Proof.
  induction s as [|x r IH]; intros H; [done|].
  apply not_elem_of_cons in H as [Hx Hr]. cbn [from_first startswith].
  replace (N.eqb c x) with false by (symmetry; by apply N.eqb_neq). cbn [andb].
  by apply IH.
Qed.

Lemma strip_prefix_head (p s : pystr) (c : char) :
  c ∉ s -> strip_prefix (c :: p) s = None.
Proof.
  destruct s as [|x r]; [done|]. intros H. apply not_elem_of_cons in H as [Hx _].
  cbn [strip_prefix]. by replace (N.eqb c x) with false by (symmetry; by apply N.eqb_neq).
Qed.

Lemma span_while_all (f : char -> bool) (s : pystr) :
  forallb f s = true -> span_while f s = (s, []).
Proof.
  intros H. rewrite <- (app_nil_r s) at 1. by apply span_while_app.
Qed.

Lemma plain_char_usual (s : pystr) : forallb plain_char s = true -> forallb usual s = true.
Proof.
  intros H. rewrite forallb_forall in *. intros c Hc. apply H in Hc.
  unfold plain_char in Hc. by apply andb_prop in Hc as [Hc _].
Qed.

Lemma commit_top_level (cfg : Config) (fuel : nat) (rec : record) (st : State) (c : Z) :
  len (level st) = 1 -> last (chunks st) = Some c ->
  curlength st + get_length rec <= linelength cfg ->
  commit cfg (S fuel) rec st
  = Ok (let st1 := set_out (out st ++ [rec])
                     (set_curlength (curlength st + get_length rec) st) in
        if len (out st) =? c then st1
        else set_chunks (chunks st ++ [len (out st)]) st1).
Proof.
  intros Hlev Hc Hfit. cbn [commit]. unfold commit_body. rewrite Hlev.
  change (1 =? 1) with true. cbv iota. cbv zeta.
  replace (linelength cfg <? curlength st + get_length rec) with false by lia.
  repeat (rewrite bind_Ok; cbv beta iota zeta).
  set (st1 := set_out _ _). change (chunks st1) with (chunks st).
  rewrite (py_get_last _ _ Hc), bind_Ok.
  assert (len (out st1) - 1 = len (out st)) as ->.
  { unfold st1. cbn [out set_out set_curlength]. rewrite len_app. change (len [rec]) with 1. lia. }
  unfold trigger. destruct (len (out st) =? c); cbn [negb].
  - change (level st1) with (level st). rewrite Hlev. reflexivity.
  - change (level (set_chunks _ st1)) with (level st). rewrite Hlev. reflexivity.
Qed.

Lemma join_records_content (a b : record) :
  well_formed a -> well_formed b ->
  exists r, join_records a b = Ok r
    /\ rs r = join_with NL (lines_of (rh r) (rs r))
    /\ length (lines_of (rh r) (rs r)) = Z.to_nat (rh r).
Proof.
  intros Wa Wb.
  destruct (join_records_rows_gen a b Wa Wb)
    as (lines1 & l1 & h1 & b1 & lines2 & l2 & h2 & b2 & lines2' & rows
        & _ & _ & _ & E & Hlines & Hlen & _).
  eexists. split; [exact E|]. cbn [rh rs]. by rewrite Hlines.
Qed.

Lemma lines_of_text (s : pystr) : s <> [] -> NL ∉ s -> lines_of 1 s = [s].
Proof.
  intros Hne Hfree. unfold lines_of. destruct s as [|c r]; [done|]. cbn [is_empty_str].
  rewrite split_on_line by done. by apply pad_lines_id.
Qed.

Lemma join_indent_text (s : pystr) :
  s <> [] -> NL ∉ s ->
  exists r, join_records indent_record (string2record s false) = Ok r
    /\ rs r = py "     " ++ s.
Proof.
  intros Hne Hfree. set (T := string2record s false).
  assert (well_formed indent_record) as W1.
  { split; [done|]. split; [done|]. repeat constructor. by change (len (py "     ")) with 5. }
  assert (lines_of (eff_height T) (rs T) = [s]) as HT by (by apply lines_of_text).
  assert (well_formed T) as W2.
  { split; [done|]. split; [apply len_nonneg|]. rewrite HT. repeat constructor.
    change (rl T) with (len s). lia. }
  destruct (join_records_plain indent_record T W1 W2) as (r & E & Hh & _ & _ & Hrow).
  { apply regenerated_full_height. }
  { apply regenerated_full_height. }
  destruct (join_records_content indent_record T W1 W2) as (r' & E' & Hrs & Hlen).
  rewrite E in E'. injection E' as <-. exists r. split; [done|].
  change (joined_height indent_record T) with 1 in Hh. rewrite Hh in Hrs, Hlen, Hrow.
  specialize (Hrow 0 ltac:(lia)).
  destruct (lines_of 1 (rs r)) as [|x [|y rest]]; [done| |done].
  rewrite Hrs. cbn [join_with]. change ([x] !!! Z.to_nat 0) with x in Hrow. rewrite Hrow.
  change (row_at indent_record (Z.max (rb indent_record) (rb T) - rb indent_record) 0)
    with (py "     ").
  assert (row_at T (Z.max (rb indent_record) (rb T) - rb T) 0 = s) as ->.
  { unfold row_at. change (Z.max (rb indent_record) (rb T) - rb T) with 0.
    change ((0 <=? 0) && (0 <? 0 + eff_height T)) with true. cbv iota. by rewrite HT. }
  pose proof (len_pos_of_not_nil s Hne).
  replace (len s =? 0) with false by lia. rewrite andb_false_r. reflexivity.
Qed.

Lemma printrecord_indented (s : pystr) (rec : record) (st : State) :
  rs rec = py "     " ++ s -> s <> [] -> NL ∉ s -> lstrip s = s -> rstrip s = s ->
  printrecord rec st = set_stdout (stdout st ++ [s]) st.
Proof.
  intros Hrs Hne Hfree Hl Hr. unfold printrecord. rewrite Hrs.
  set (t := py "     " ++ s).
  assert (NL ∉ t) as Ht.
  { unfold t. apply not_elem_of_app. split; [|done]. change (py "     ") with (spaces 5).
    by apply spaces_free. }
  assert (rstrip t = t) as Hrt.
  { apply rstrip_fix. unfold t. apply rstrip_fix in Hr.
    destruct (exists_last Hne) as (s' & c & ->). rewrite app_assoc, last_snoc.
    by rewrite last_snoc in Hr. }
  assert (t <> []) as Htne by (unfold t; by destruct s).
  rewrite split_on_line by done. cbv zeta.
  rewrite filter_cons_True by (by rewrite Hrt). rewrite filter_nil.
  cbn [fmap list_fmap foldl]. rewrite Hrt.
  assert (leading t = 5) as ->.
  { unfold leading, t. rewrite (lstrip_app_spaces (py "     ") s) by reflexivity.
    rewrite Hl, len_app. change (len (py "     ")) with 5. lia. }
  change (0 <? 5) with true. cbv iota.
  assert (len t = 5 + len s) as Hlt by (unfold t; by rewrite len_app).
  pose proof (len_nonneg s). replace (5 <=? len t) with true by lia.
  assert (slice_from 5 t = s) as ->.
  { unfold slice_from, clamp. change (5 <? 0) with false. cbv iota.
    replace (Z.to_nat (Z.min 5 (len t))) with 5%nat by lia. reflexivity. }
  reflexivity.
Qed.

Lemma preprocess_plain (s : pystr) :
  forallb plain_char s = true -> single_blanks s = true -> rstrip s = s ->
  preprocess s = Ok s.
Proof.
  intros Hp Hb Hr. unfold preprocess.
  assert (37%N ∉ s) as H37 by (by apply plain_char_free).
  assert (36%N ∉ s) as H36 by (by apply plain_char_free).
  assert (BACKSLASH ∉ s) as Hbs by (by apply plain_char_free).
  unfold has_char. rewrite bool_decide_eq_false_2 by done. cbv zeta.
  rewrite blank_lines_to_par_id by (by apply single_blanks_no_newline).
  rewrite squeeze_spaces_id by done. rewrite Hr.
  rewrite trim_after_ddollar_id by done. by rewrite drop_final_par_id.
Qed.

(** X25. A paragraph of plain text on a fresh interpreter: for a text
    of usual characters without a percent sign, whose only white space
    is single blanks inside the text, and which fits on a line together
    with the paragraph indentation, [paragraph] returns, prints exactly
    one line, and that line is the text itself: the indentation of five
    blanks is put into the buffer, but [printrecord] removes it again as
    leading white space common to all printed lines.  The buffer is
    empty afterwards. *)
Theorem paragraph_plain_text (cfg : Config) (fuel n : nat) (s : pystr) (st : State) :
  fresh st -> opt_noindent cfg = false ->
  s <> [] -> forallb plain_char s = true -> single_blanks s = true ->
  lstrip s = s -> rstrip s = s ->
  5 + len s <= linelength cfg ->
  (1 <= fuel)%nat -> (2 <= n)%nat ->
  exists st',
    paragraph cfg fuel n s st = Ok (true, st')
    /\ stdout st' = [s] /\ out st' = [] /\ curlength st' = 0
    /\ level st' = [0] /\ chunks st' = [0].
Proof.
  intros (Hlev & Hch & Htb & Hout & Hwait & Hcl & Hsec & Hstd) Hno Hne Hp Hb Hl Hr Hfit Hfuel Hn.
  destruct fuel as [|f]; [lia|]. destruct n as [|[|n]]; [lia..|].
  assert (BACKSLASH ∉ s) as Hbs by (by apply plain_char_free).
  assert (NL ∉ s) as Hnl by (by apply single_blanks_no_newline).
  pose proof (plain_char_usual s Hp) as Hu.
  destruct s as [|c0 s0] eqn:Es; [done|]. rewrite <- Es in *.
  assert (is_space c0 = false) as Hc0 by (apply lstrip_fix in Hl; by rewrite Es in Hl).
  assert (usual c0 = true) as Hu0 by (rewrite Es in Hu; cbn in Hu; by apply andb_prop in Hu as [? _]).
  assert (is_empty_str s = false) as Hes by (by rewrite Es).
  assert (forallb is_space s = false) as Hfs by (rewrite Es; cbn; by rewrite Hc0).
  (* the indentation *)
  set (stA := set_secondtime (0 + 1) (set_par s st)).
  set (st1 := set_out [indent_record] (set_curlength 5 (set_par s stA))).
  assert (indent cfg (S f) (set_par s stA) = Ok st1) as Hindent.
  { unfold indent. rewrite Hno. change (par (set_par s stA)) with s.
    assert (drop_noindent_strict s = None) as ->.
    { unfold drop_noindent_strict, after_noindent. rewrite Hl.
      change (py "\noindent") with (BACKSLASH :: py "noindent").
      by rewrite strip_prefix_head. }
    cbn [negb is_some andb].
    rewrite (commit_top_level cfg f indent_record (set_par s stA) 0).
    - change (out (set_par s stA)) with (out st). rewrite Hout. change (len [] =? 0) with true.
      cbv zeta iota. change (curlength (set_par s stA)) with (curlength st). rewrite Hcl.
      reflexivity.
    - change (level (set_par s stA)) with (level st). by rewrite Hlev.
    - change (chunks (set_par s stA)) with (chunks st). by rewrite Hch.
    - change (curlength (set_par s stA)) with (curlength st). rewrite Hcl.
      change (get_length indent_record) with 5. pose proof (len_nonneg s). lia. }
  (* the text *)
  set (T := string2record s false).
  set (st2 := set_chunks [0; 1] (set_out [indent_record; T]
                (set_curlength (5 + len s) (set_par [] st1)))).
  assert (loop_body cfg (S f) (mkLoop 0 0 st1) = Ok (Continue (mkLoop 0 0 st2))) as Hbody.
  { unfold loop_body. cbv zeta. change (lstate (mkLoop 0 0 st1)) with st1.
    change (tokenByToken st1) with (tokenByToken st). rewrite Htb.
    change (py_get [0] (-1)) with (Ok 0). rewrite bind_Ok. change (0 =? 0) with true.
    cbv iota. change (par st1) with s. rewrite Hl. cbn [negb].
    change (par (set_par s st1)) with s.
    assert (next_token false s = Some (s, [])) as ->.
    { rewrite Es. cbn [next_token]. rewrite Hu0. rewrite <- Es. by rewrite span_while_all. }
    cbv iota beta. rewrite Es at 1. rewrite Hu0.
    unfold usual_token, in_math.
    change (wait (set_par [] (set_par s st1))) with (wait st). rewrite Hwait.
    change (1 <? len [WS []]) with false. cbn [andb]. unfold Puts, puts. fold T.
    assert (get_length T = len s) as HgT.
    { unfold get_length, T. cbn [string2record rh rl]. pose proof (len_nonneg s).
      change (0 <=? 0) with true. by replace (0 <=? len s) with true by lia. }
    rewrite (commit_top_level cfg f T (set_par [] (set_par s st1)) 0).
    - rewrite bind_Ok. cbv zeta.
      change (out (set_par [] (set_par s st1))) with [indent_record].
      change (len [indent_record] =? 0) with false. cbv iota.
      change (curlength (set_par [] (set_par s st1))) with 5. rewrite HgT.
      change (chunks (set_par [] (set_par s st1))) with (chunks st). rewrite Hch.
      change (len [indent_record]) with 1.
      change (defcount (mkLoop 0 0 st1)) with 0. change (expanded (mkLoop 0 0 st1)) with 0.
      set (stX := set_chunks _ _). rewrite bind_Ok. cbv iota beta.
      change (tokenByToken (lstate (mkLoop 0 0 stX))) with (tokenByToken st). rewrite Htb.
      change (py_get [0] (-1)) with (Ok 0). rewrite bind_Ok. reflexivity.
    - change (level (set_par [] (set_par s st1))) with (level st). by rewrite Hlev.
    - change (chunks (set_par [] (set_par s st1))) with (chunks st). by rewrite Hch.
    - change (curlength (set_par [] (set_par s st1))) with 5. rewrite HgT. lia. }
  (* the flush *)
  destruct (join_indent_text s Hne Hnl) as (r & Ejoin & Hrs).
  set (st3 := set_chunks [0] (set_out [] (set_curlength 0 (printrecord r st2)))).
  assert (flush cfg (S f) st2 = Ok st3) as Hflush.
  { unfold flush. change (out st2) with [indent_record; T].
    change (0 <? len [indent_record; T]) with true. cbv iota.
    unfold FinishBuffer, finishBuffer. cbn [close_all].
    change (level st2) with (level st). rewrite Hlev. change (1 <? len [0]) with false.
    cbv iota. rewrite bind_Ok.
    apply do_print_top_level.
    - change (level st2) with (level st). rewrite Hlev. done.
    - done.
    - change (out st2) with [indent_record; T]. unfold justify. cbn [negb andb].
      exact Ejoin. }
  exists st3. split.
  - unfold paragraph, parse. cbv zeta. change (par (set_par s st)) with s. rewrite Hes, Hfs.
    change (py "\begin{document}") with (BACKSLASH :: py "begin{document}").
    rewrite from_first_free by done.
    change (secondtime (set_par s st)) with (secondtime st). rewrite Hsec.
    change (negb (0 =? 0)) with false. cbn [andb]. cbv iota.
    change (secondtime (set_par s st)) with (secondtime st). rewrite Hsec.
    change (par (set_par s st)) with s.
    rewrite preprocess_plain by done. rewrite bind_Ok. fold stA.
    change (par stA) with s.
    rewrite Hindent, bind_Ok. cbn [parse_loop].
    change (par (lstate (mkLoop 0 0 st1))) with s. rewrite Hes, Hbody, bind_Ok.
    change (par (lstate (mkLoop 0 0 st2))) with (@nil N). cbn [is_empty_str].
    rewrite !bind_Ok. change (lstate (mkLoop 0 0 st2)) with st2. by rewrite Hflush.
  - assert (printrecord r st2 = set_stdout (stdout st2 ++ [s]) st2) as Hpr
      by (by apply printrecord_indented).
    unfold st3. rewrite Hpr. change (stdout st2) with (stdout st). rewrite Hstd.
    do 3 (split; [reflexivity|]). split; [exact Hlev|reflexivity].
Qed.

Lemma paragraph_plain_text_witness :
  exists st',
    paragraph default_config 1 2 (py "hello world") init_state = Ok (true, st')
    /\ stdout st' = [py "hello world"].
Proof.
  assert (fresh init_state) as Hf by (repeat split).
  destruct (paragraph_plain_text default_config 1 2 (py "hello world") init_state
              Hf eq_refl ltac:(done) eq_refl eq_refl eq_refl eq_refl ltac:(done)
              (le_n 1) (le_n 2)) as (st' & E & Hs & _).
  exists st'. split; [exact E|exact Hs].
Defined.

(** ** Reading a definition (commands.py) *)

Lemma letter_range (c : char) :
  is_letter c = true -> ((65 <= c <= 90) \/ (97 <= c <= 122))%N.
Proof.
  intros H. unfold is_letter in H. apply orb_true_iff in H.
  destruct H as [H|H]; apply andb_true_iff in H as [H1 H2]; apply N.leb_le in H1, H2;
    [left|right]; lia.
Qed.

Lemma digit_range (c : char) : is_digit c = true -> (48 <= c <= 57)%N.
Proof.
  intros H. unfold is_digit in H. apply andb_true_iff in H as [H1 H2].
  apply N.leb_le in H1, H2. lia.
Qed.

Lemma is_param_spec_chars (n : nat) (p : pystr) :
  (length p <= n)%nat -> is_param_spec p = true ->
  Forall (fun c => c = 35%N \/ is_digit c = true) p.
Proof.
  revert p. induction n as [|n IH]; intros p Hn H.
  - destruct p; [constructor|cbn in Hn; lia].
  - destruct p as [|h [|d r]]; [constructor|done|]. cbn [is_param_spec] in H.
    apply andb_prop in H as [H Hr]. apply andb_prop in H as [Hh Hd].
    apply N.eqb_eq in Hh. constructor; [by left|]. constructor; [by right|].
    apply IH; [cbn [length] in Hn; lia|done].
Qed.

Lemma before_brace_plain (w tail : pystr) :
  forall n : nat,
    (123%N ∉ w) -> (BACKSLASH ∉ w) -> (length w < n)%nat ->
    before_brace n (w ++ 123%N :: tail) = Some (w, 123%N :: tail).
Proof.
  induction w as [|c w IH]; intros n H1 H2 Hn.
  - destruct n as [|n]; [lia|]. reflexivity.
  - destruct n as [|n]; [lia|]. cbn [length] in Hn.
    apply not_elem_of_cons in H1 as [Hc1 Hw1]. apply not_elem_of_cons in H2 as [Hc2 Hw2].
    cbn [app before_brace].
    assert (N.eqb c 123%N = false) as -> by (apply N.eqb_neq; congruence).
    assert (N.eqb c BACKSLASH = false) as -> by (apply N.eqb_neq; congruence).
    by rewrite IH by (done || lia).
Qed.

Lemma before_brace_macro (n0 : char) (w tail : pystr) (n : nat) :
  n0 <> NL -> (123%N ∉ w) -> (BACKSLASH ∉ w) -> (length w + 1 < n)%nat ->
  before_brace n (BACKSLASH :: n0 :: w ++ 123%N :: tail)
  = Some (BACKSLASH :: n0 :: w, 123%N :: tail).
Proof.
  intros Hn0 H1 H2 Hn. destruct n as [|n]; [lia|]. cbn [before_brace].
  change (N.eqb BACKSLASH 123%N) with false. change (N.eqb BACKSLASH BACKSLASH) with true.
  cbv iota. replace (N.eqb n0 NL) with false by (symmetry; by apply N.eqb_neq).
  by rewrite before_brace_plain by (done || lia).
Qed.

Lemma has_def_or_fi_free (s : pystr) : BACKSLASH ∉ s -> has_def_or_fi s = false.
Proof.
  induction s as [|c r IH]; intros H; [done|].
  apply not_elem_of_cons in H as [Hc Hr]. cbn [has_def_or_fi].
  rewrite IH by done. rewrite orb_false_r. unfold def_or_fi_here. cbn [strip_prefix].
  by replace (N.eqb BACKSLASH c) with false by (symmetry; by apply N.eqb_neq).
Qed.

Lemma ends_with_macro_free (s : pystr) : BACKSLASH ∉ s -> ends_with_macro s = false.
Proof.
  intros H. unfold ends_with_macro. destruct (reverse s) as [|c [|b r]] eqn:E; [done..|].
  assert (b <> BACKSLASH) as Hb.
  { intros ->. apply H. apply elem_of_reverse. rewrite E. apply elem_of_cons; right.
    by apply elem_of_cons; left. }
  replace (N.eqb b BACKSLASH) with false by (symmetry; by apply N.eqb_neq). cbn [andb orb].
  destruct (span_while is_letter (reverse (rstrip s))) as [a t] eqn:Es.
  destruct a as [|a0 a']; [done|]. destruct t as [|b' t']; [done|].
  apply N.eqb_neq. intros ->. apply (rstrip_free _ _ H).
  apply (proj1 (elem_of_reverse BACKSLASH (rstrip s))).
  pose proof (span_while_spec is_letter (reverse (rstrip s))) as [Happ _].
  rewrite Es in Happ. cbn [fst snd] in Happ. rewrite <- Happ.
  apply elem_of_app; right. by apply elem_of_cons; left.
Qed.

(** X26. [def_exp] on the text of a definition: for a name of letters
    after the backslash, a parameter specification of hash signs with
    one digit each (possibly none), and a body between braces that is
    balanced and holds no backslash, newline or at sign, the macro is
    recorded with the type "def", the body as its replacement text and
    half the length of the specification as its number of arguments,
    and the text after the closing brace is what is left to read. *)
Theorem def_exp_defines (st : State) (name params body rest : pystr) :
  name <> [] -> forallb is_letter name = true ->
  is_param_spec params = true ->
  (BACKSLASH ∉ body) -> balanced_from 0 body = true -> (NL ∉ body) -> (64%N ∉ body) ->
  par st = BACKSLASH :: name ++ params ++ 123%N :: body ++ 125%N :: rest ->
  def_exp st
  = Ok (set_type_table (<[BACKSLASH :: name := py "def"]> (type_table st))
          (set_defs (<[BACKSLASH :: name := body]> (defs st))
             (set_args (<[BACKSLASH :: name := len params / 2]> (args st))
                (set_par rest st)))).
Proof.
  intros Hne Hletters Hspec Hbs Hbal Hnl Hat Hpar.
  pose proof (is_param_spec_chars _ params (le_n _) Hspec) as Hpc.
  assert (Forall (fun c => c <> 123%N /\ c <> BACKSLASH /\ c <> 64%N /\ c <> NL
                           /\ (c <= 127)%N) (name ++ params)) as Hchars.
  { apply Forall_app. split.
    - apply Forall_forall. intros c Hc. rewrite forallb_forall in Hletters.
      apply list_elem_of_In in Hc. apply Hletters in Hc. apply letter_range in Hc.
      unfold BACKSLASH, NL. lia.
    - eapply Forall_impl; [exact Hpc|]. intros c [->|Hd]; [unfold BACKSLASH, NL; lia|].
      apply digit_range in Hd. unfold BACKSLASH, NL. lia. }
  assert (forall x, (x = 123%N \/ x = BACKSLASH \/ x = 64%N \/ x = NL) -> x ∉ name ++ params)
    as Hfree.
  { intros x Hx Hin. rewrite Forall_forall in Hchars. apply Hchars in Hin.
    destruct Hx as [-> | [-> | [-> | ->]]]; tauto. }
  unfold def_exp. rewrite Hpar.
  destruct name as [|n0 name'] eqn:En; [done|]. rewrite <- En in *.
  assert (before_brace (S (length (BACKSLASH :: name ++ params ++ 123%N :: body ++ 125%N :: rest)))
            (BACKSLASH :: name ++ params ++ 123%N :: body ++ 125%N :: rest)
          = Some (BACKSLASH :: name ++ params, 123%N :: body ++ 125%N :: rest)) as ->.
  { rewrite app_assoc. set (w := name ++ params) in *.
    assert (exists w', w = n0 :: w') as (w' & Ew) by (unfold w; rewrite En; by eexists).
    rewrite Ew. cbn [app].
    assert (n0 <> NL) as Hn0.
    { intros ->. apply (Hfree NL); [tauto|]. rewrite Ew. by apply elem_of_cons; left. }
    apply before_brace_macro; [done| | |].
    - intros Hin. apply (Hfree 123%N); [tauto|]. rewrite Ew. by apply elem_of_cons; right.
    - intros Hin. apply (Hfree BACKSLASH); [tauto|]. rewrite Ew. by apply elem_of_cons; right.
    - cbn [length]. rewrite length_app. cbn [length]. lia. }
  assert (get_balanced (set_par (123%N :: body ++ 125%N :: rest) st)
          = Ok (Some body, set_par rest st)) as ->.
  { unfold get_balanced. change (par (set_par ?p st)) with p.
    change (next_token true (123%N :: body ++ 125%N :: rest))
      with (Some ([123%N], body ++ 125%N :: rest)).
    cbv iota beta. rewrite bool_decide_eq_true_2 by done. cbn [negb].
    rewrite (read_group_balanced body rest _ 1 []); [done|done|lia|done|].
    rewrite length_app. cbn [length]. lia. }
  rewrite bind_Ok. cbv iota beta. unfold has_char.
  rewrite bool_decide_eq_false_2 by done.
  rewrite bool_decide_eq_false_2.
  2: { change (BACKSLASH :: name ++ params) with ([BACKSLASH] ++ (name ++ params)).
       rewrite not_elem_of_app. split; [|done]. rewrite not_elem_of_app. split.
       - intros Hin. apply list_elem_of_singleton in Hin. discriminate Hin.
       - apply Hfree. tauto. }
  rewrite has_def_or_fi_free, ends_with_macro_free by done.
  unfold define. change (usual BACKSLASH) with false. cbv iota.
  assert (match params with c :: _ => is_letter c = false | [] => True end) as Hp0.
  { destruct params as [|c p']; [done|]. inversion Hpc as [|? ? Hc _]; subst.
    destruct (is_letter c) eqn:El; [|done]. apply letter_range in El.
    destruct Hc as [->|Hd]; [lia|]. apply digit_range in Hd. lia. }
  rewrite (next_token_macro true name params) by done.
  assert (span_while is_space params = ([], params)) as ->.
  { destruct params as [|c p']; [done|]. cbn [span_while].
    inversion Hpc as [|? ? Hc _]; subst.
    assert (is_space c = false) as ->; [|done].
    destruct Hc as [->|Hd]; [done|]. apply digit_range in Hd.
    unfold is_space.
    repeat match goal with
           | |- context [(?a <=? c)%N] =>
               let E := fresh in destruct (N.leb_spec a c) as [E|E]
           | |- context [(c <=? ?a)%N] =>
               let E := fresh in destruct (N.leb_spec c a) as [E|E]
           | |- context [(c =? ?a)%N] =>
               let E := fresh in destruct (N.eqb_spec c a) as [E|E]
           end; try lia; reflexivity. }
  cbn [fst snd]. rewrite app_nil_r.
  assert (existsb (fun x => (127 <? x)%N || N.eqb x NL) params = false) as ->.
  { apply not_true_is_false. intros Hex. apply existsb_exists in Hex as (x & Hx & Hbad).
    apply list_elem_of_In in Hx. rewrite Forall_forall in Hchars.
    destruct (Hchars x) as (_ & _ & _ & Hxnl & Hx127); [apply elem_of_app; by right|].
    apply orb_true_iff in Hbad as [Hbad|Hbad].
    - apply N.ltb_lt in Hbad. lia.
    - apply N.eqb_eq in Hbad. done. }
  rewrite Hspec. reflexivity.
Qed.

Lemma def_exp_defines_witness :
  exists st',
    def_exp (set_par (py "\foo#1#2{(#1,#2)} x") init_state) = Ok st'
    /\ type_table st' !! py "\foo" = Some (py "def")
    /\ defs st' !! py "\foo" = Some (py "(#1,#2)")
    /\ args st' !! py "\foo" = Some 2
    /\ par st' = py " x".
Proof.
  eexists. split.
  - apply (def_exp_defines _ (py "foo") (py "#1#2") (py "(#1,#2)") (py " x")).
    + done.
    + reflexivity.
    + reflexivity.
    + assert (py "(#1,#2)" = [40%N; 35%N; 49%N; 44%N; 35%N; 50%N; 41%N]) as -> by reflexivity.
      intros H. repeat (apply elem_of_cons in H as [H|H]; [discriminate H|]).
      by apply elem_of_nil in H.
    + reflexivity.
    + assert (py "(#1,#2)" = [40%N; 35%N; 49%N; 44%N; 35%N; 50%N; 41%N]) as -> by reflexivity.
      intros H. repeat (apply elem_of_cons in H as [H|H]; [discriminate H|]).
      by apply elem_of_nil in H.
    + assert (py "(#1,#2)" = [40%N; 35%N; 49%N; 44%N; 35%N; 50%N; 41%N]) as -> by reflexivity.
      intros H. repeat (apply elem_of_cons in H as [H|H]; [discriminate H|]).
      by apply elem_of_nil in H.
    + reflexivity.
  - split; [apply lookup_insert_eq|]. split; [apply lookup_insert_eq|].
    split; [apply lookup_insert_eq|reflexivity].
Defined.

(** ** Delimiters around a content (commands.py) *)

Lemma makehigh_tall_set (s : pystr) (top bottom : char) (h b : Z) :
  (s, top, bottom) ∈ [(py "(", 9581%N, 9584%N); (py ")", 9582%N, 9583%N);
                      (py "[", 9484%N, 9492%N); (py "]", 9488%N, 9496%N)] ->
  3 <= h -> 0 <= b -> b + 2 <= h ->
  let glyphs := top :: replicate (Z.to_nat (h - 2)) 9474%N ++ [bottom] in
  exists recL recR,
    (forall (out : list record) (idx : Z) (r : record),
        py_get out idx = Ok r -> rs r = s ->
        makehigh_inplace out idx h b 0 1 = py_set out idx recL
        /\ makehigh_inplace out idx h b 1 0 = py_set out idx recR)
    /\ (rh recL = h /\ rl recL = 2 /\ rb recL = b
        /\ forall p, 0 <= p < h ->
             lines_of h (rs recL) !!! Z.to_nat p
             = glyphs !!! Z.to_nat p :: (if p =? b then [SP] else []))
    /\ (rh recR = h /\ rl recR = 2 /\ rb recR = b
        /\ forall p, 0 <= p < h ->
             lines_of h (rs recR) !!! Z.to_nat p = [SP; glyphs !!! Z.to_nat p]).
Proof.
  intros Hin Hh Hb0 Hb glyphs.
  destruct (makehigh_column s top bottom h b Hin Hh Hb0 Hb)
    as (col & Ecol & Hch & Hcl & Hcb & Hlines & Hlen & Wc). fold glyphs in Hlines, Hlen.
  assert (eff_height col = h) as Heff.
  { unfold eff_height. rewrite Hch. by replace (h =? 0) with false by lia. }
  assert (forall (out : list record) idx r ls rsp_,
            py_get out idx = Ok r -> rs r = s ->
            makehigh_inplace out idx h b ls rsp_
            = (add_spacing ls rsp_ col ≫= λ rec : record, py_set out idx rec)) as Hunfold.
  { intros out idx r ls rsp_ Hget Hs.
    destruct (delimiter_pieces_paren s top bottom h ls Hin) as (Hp & Hdot & Hl1 & _).
    unfold makehigh_inplace. rewrite Hget, bind_Ok. cbv zeta. rewrite Hs, Hdot.
    replace (0 <? h) with true by lia. replace (h <? 2) with false by lia.
    replace (h =? 2) with false by lia. cbn [orb andb]. rewrite Hp, Hl1.
    change (1 =? 2) with false. cbv iota. rewrite bind_Ok. by rewrite <- Ecol. }
  assert (forall p, 0 <= p < h -> row_at col 0 p = [glyphs !!! Z.to_nat p]) as Hrowc.
  { intros p Hp. unfold row_at. rewrite Heff, Hlines.
    replace ((0 <=? p) && (p <? 0 + h)) with true by lia. replace (p - 0) with p by lia.
    rewrite (list_lookup_total_fmap (fun c : char => [c])); [done|]. unfold len in Hlen. lia. }
  assert (joined_height col (mkrec 0 1 0 1 [SP]) = h) as HJ1.
  { unfold joined_height. rewrite Heff, Hcb. change (eff_height (mkrec 0 1 0 1 [SP])) with 1.
    cbn [rb]. lia. }
  assert (joined_height (mkrec 0 1 0 1 [SP]) col = h) as HJ2.
  { unfold joined_height. rewrite Heff, Hcb. change (eff_height (mkrec 0 1 0 1 [SP])) with 1.
    cbn [rb]. lia. }
  assert (forall H, H = h -> regenerated H (operand_of col) = false) as Hregc.
  { intros H ->. unfold operand_of. rewrite Heff. apply regenerated_full_height. }
  destruct (join_records_plain col (mkrec 0 1 0 1 [SP]) Wc well_formed_blank)
    as (recL & EL & HhL & HwL & HbL & HrowL); [by apply Hregc|apply regenerated_blank|].
  destruct (join_records_plain (mkrec 0 1 0 1 [SP]) col well_formed_blank Wc)
    as (recR & ER & HhR & HwR & HbR & HrowR); [apply regenerated_blank|by apply Hregc|].
  exists recL, recR. split; [|split].
  - intros out idx r Hget Hs. split.
    + rewrite (Hunfold out idx r 0 1 Hget Hs). unfold add_spacing.
      change (negb (0 =? 0)) with false. change (negb (1 =? 0)) with true. cbv iota.
      rewrite bind_Ok. cbv iota. by rewrite blank_record, EL, bind_Ok.
    + rewrite (Hunfold out idx r 1 0 Hget Hs). unfold add_spacing.
      change (negb (1 =? 0)) with true. change (negb (0 =? 0)) with false. cbv iota.
      rewrite blank_record, ER, bind_Ok. cbv iota. by rewrite bind_Ok.
  - rewrite HJ1 in HhL. split; [done|]. split; [rewrite HwL, Hcl; reflexivity|].
    rewrite Hcb in HbL. cbn [rb] in HbL. split; [lia|].
    intros p Hp. rewrite <- HhL at 1. rewrite HrowL by lia.
    rewrite Hcb. cbn [rb rl]. replace (Z.max b 0) with b by lia.
    replace (b - b) with 0 by lia. rewrite Hrowc by done. rewrite Hcl.
    replace (b - 0) with b by lia. rewrite row_at_blank.
    change (ljust 1 [glyphs !!! Z.to_nat p]) with ([glyphs !!! Z.to_nat p] ++ spaces (1 - 1)).
    change (spaces (1 - 1)) with (@nil N). cbn [app].
    destruct (Z.eqb_spec p b) as [->|Hne]; [|done].
    by change (len [SP] =? 0) with false.
  - rewrite HJ2 in HhR. split; [done|]. split; [rewrite HwR, Hcl; reflexivity|].
    rewrite Hcb in HbR. cbn [rb] in HbR. split; [lia|].
    intros p Hp. rewrite <- HhR at 1. rewrite HrowR by lia.
    rewrite Hcb. cbn [rb rl]. replace (Z.max 0 b) with b by lia.
    replace (b - b) with 0 by lia. rewrite Hrowc by done.
    replace (b - 0) with b by lia. rewrite row_at_blank.
    change (len [glyphs !!! Z.to_nat p] =? 0) with false. rewrite andb_false_r.
    by destruct (p =? b).
Qed.

Lemma py_get_from_end {A} (l k : list A) (x : A) :
  py_get (l ++ x :: k) (- 1 - len k) = Ok x.
Proof.
  unfold py_get, py_pos. pose proof (len_nonneg l). pose proof (len_nonneg k).
  assert (len (l ++ x :: k) = len l + 1 + len k) as ->
    by (rewrite len_app; unfold len; cbn [length]; lia).
  replace (- 1 - len k <? 0) with true by lia.
  replace (0 <=? len l + 1 + len k + (- 1 - len k)) with true by lia.
  replace (Z.to_nat (len l + 1 + len k + (- 1 - len k))) with (length l) by (unfold len; lia).
  by rewrite list_lookup_middle.
Qed.

Lemma py_set_from_end {A} (l k : list A) (x y : A) :
  py_set (l ++ x :: k) (- 1 - len k) y = Ok (l ++ y :: k).
Proof.
  unfold py_set, py_pos. pose proof (len_nonneg l). pose proof (len_nonneg k).
  assert (len (l ++ x :: k) = len l + 1 + len k) as ->
    by (rewrite len_app; unfold len; cbn [length]; lia).
  replace (- 1 - len k <? 0) with true by lia.
  replace (0 <=? len l + 1 + len k + (- 1 - len k)) with true by lia.
  replace (Z.to_nat (len l + 1 + len k + (- 1 - len k))) with (length l) by (unfold len; lia).
  f_equal. rewrite insert_app_r_alt by lia. by rewrite Nat.sub_diag.
Qed.

Lemma rs_trimmed (r : record) :
  lstrip (rs r) = rs r -> rstrip (rs r) = rs r -> rs (trimmed_end (trimmed_beg r)) = rs r.
Proof.
  intros Hl Hr. unfold trimmed_end, trimmed_beg. destruct (rh r =? 0) eqn:E.
  - cbn [string2record rh rs]. change (0 =? 0) with true. cbv iota. cbn [rs].
    by rewrite Hl, Hr.
  - by rewrite E.
Qed.

(** The state in which [f_leftright] looks at its three records. *)
Lemma f_leftright_frame (finish : waitv -> bool -> State -> M State) (st : State)
    (lv : Z) (cpre : list Z) (pre : list record) (L mid R : record) :
  last (level st) = Some lv -> lv <= len cpre ->
  out st = pre ++ [L; mid; R] ->
  chunks st = cpre ++ [len pre; len pre + 1; len pre + 2] ->
  let R' := trimmed_end (trimmed_beg R) in
  let st1 := set_out (pre ++ [L; mid; R']) st in
  let h := eff_height mid in
  let b := rb mid in
  f_leftright finish st
  = ((if bool_decide (rs L = py "[") && bool_decide (rs R' = py "]") && (h <? 3) then
        let content_str := rs mid in
        let l := rl mid in
        let sp := rsp mid in
        let lines :=
          if h <=? 1 then
            [spaces l; (if is_empty_str content_str then spaces l else ljust l content_str);
             spaces l]
          else
            let old_lines :=
              pad_lines 2 (if is_empty_str content_str then [[]; []]
                           else split_on NL content_str) in
            [ljust l (old_lines !!! 0%nat); ljust l (old_lines !!! 1%nat); spaces l] in
        set_out_at (-2) (mkrec 3 l 1 sp (join_with NL lines)) st1 ≫= λ st : State,
        Ok (st, 3, 1)
      else Ok (st1, h, b)) ≫= λ '(st, h, b),
     makehigh_inplace (out st) (-3) h b 0 1 ≫= λ o : list record,
     makehigh_inplace o (-1) h b 1 0 ≫= λ o : list record,
     finish (WI 3) false (set_out o st)).
Proof.
  intros Hlv Hle Hout Hch R' st1 h b. unfold f_leftright.
  assert (out st = (pre ++ [L; mid]) ++ concat [[R]]) as Hout'
    by (rewrite Hout, <- app_assoc; reflexivity).
  assert (chunks st = (cpre ++ [len pre; len pre + 1])
                      ++ group_starts (len (pre ++ [L; mid])) [[R]]) as Hch'.
  { rewrite Hch, <- app_assoc. cbn [group_starts app]. rewrite len_app.
    change (len [L; mid]) with 2. reflexivity. }
  change (trim 1 st) with (trim (len [[R]]) st).
  rewrite (trim_chunks st (cpre ++ [len pre; len pre + 1]) (pre ++ [L; mid]) [[R]]);
    [| repeat constructor; done | exact Hout' | exact Hch'].
  rewrite bind_Ok. change (concat (trim_group <$> [[R]])) with [R'].
  assert (set_out ((pre ++ [L; mid]) ++ [R']) st = st1) as ->
    by (unfold st1; by rewrite <- app_assoc).
  change (collapse 1 st1) with (collapse (len [[R']]) st1).
  rewrite (collapse_joined st1 lv (cpre ++ [len pre; len pre + 1]) (pre ++ [L; mid])
             [[R']] [R']);
    [| done | rewrite len_app; pose proof (len_nonneg [len pre; len pre + 1]); lia
     | done | repeat constructor; done | repeat constructor
     | unfold st1; cbn [out set_out]; by rewrite <- app_assoc | exact Hch'].
  rewrite bind_Ok. cbn [length seq fmap list_fmap]. rewrite Z.add_0_r.
  assert (set_chunks ((cpre ++ [len pre; len pre + 1]) ++ [len (pre ++ [L; mid])])
            (set_out ((pre ++ [L; mid]) ++ [R']) st1) = st1) as ->.
  { rewrite <- (app_assoc pre). cbn [app]. rewrite len_app. change (len [L; mid]) with 2.
    rewrite <- app_assoc. cbn [app]. rewrite <- Hch. reflexivity. }
  unfold assertHave. change (level st1) with (level st).
  rewrite (py_get_last _ _ Hlv), !bind_Ok. change (chunks st1) with (chunks st).
  assert (len (chunks st) = len cpre + 3) as Hlc by (by rewrite Hch, len_app).
  replace (3 <=? len (chunks st) - lv) with true by lia. cbn [negb]. cbv iota.
  change (out st1) with (pre ++ [L; mid; R']).
  assert (py_get (pre ++ [L; mid; R']) (-2) = Ok mid) as ->.
  { replace (pre ++ [L; mid; R']) with ((pre ++ [L]) ++ mid :: [R'])
      by (by rewrite <- app_assoc).
    apply (py_get_from_end (pre ++ [L]) [R'] mid). }
  rewrite bind_Ok.
  assert (py_get (pre ++ [L; mid; R']) (-3) = Ok L) as ->
    by apply (py_get_from_end pre [mid; R'] L).
  rewrite bind_Ok.
  assert (py_get (pre ++ [L; mid; R']) (-1) = Ok R') as ->.
  { replace (pre ++ [L; mid; R']) with ((pre ++ [L; mid]) ++ R' :: [])
      by (by rewrite <- app_assoc).
    apply (py_get_from_end (pre ++ [L; mid]) [] R'). }
  rewrite bind_Ok. reflexivity.
Qed.

(** X27. [f_leftright] on a frame of three chunks of one record each,
    a parenthesis or square bracket, the content and a closing one, for
    a content of height at least 3 whose baseline is above its last
    row: the content is kept, both delimiters are replaced by columns
    of the height and baseline of the content, top cap, vertical bars
    and bottom cap, two columns wide with the blank next to the content
    (for the opening delimiter on the baseline row only), and the frame
    is closed by [finish(3)]. *)
Theorem f_leftright_tall (finish : waitv -> bool -> State -> M State) (st : State)
    (lv : Z) (cpre : list Z) (pre : list record) (L mid R : record)
    (topL botL topR botR : char) :
  last (level st) = Some lv -> lv <= len cpre ->
  out st = pre ++ [L; mid; R] ->
  chunks st = cpre ++ [len pre; len pre + 1; len pre + 2] ->
  (rs L, topL, botL) ∈ [(py "(", 9581%N, 9584%N); (py "[", 9484%N, 9492%N)] ->
  (rs R, topR, botR) ∈ [(py ")", 9582%N, 9583%N); (py "]", 9488%N, 9496%N)] ->
  3 <= rh mid -> 0 <= rb mid -> rb mid + 2 <= rh mid ->
  let h := rh mid in
  let glyphs (top bottom : char) := top :: replicate (Z.to_nat (h - 2)) 9474%N ++ [bottom] in
  exists L' R',
    f_leftright finish st
    = finish (WI 3) false (set_out (pre ++ [L'; mid; R']) st)
    /\ rh L' = h /\ rl L' = 2 /\ rb L' = rb mid
    /\ rh R' = h /\ rl R' = 2 /\ rb R' = rb mid
    /\ forall p, 0 <= p < h ->
         lines_of h (rs L') !!! Z.to_nat p
         = glyphs topL botL !!! Z.to_nat p :: (if p =? rb mid then [SP] else [])
         /\ lines_of h (rs R') !!! Z.to_nat p = [SP; glyphs topR botR !!! Z.to_nat p].
Proof.
  intros Hlv Hle Hout Hch HL HR Hh Hb0 Hb h glyphs.
  assert (eff_height mid = h) as Heff
    by (unfold eff_height; by replace (rh mid =? 0) with false by lia).
  assert (lstrip (rs R) = rs R /\ rstrip (rs R) = rs R) as [HRl HRr].
  { apply elem_of_cons in HR as [HR|HR]; [|apply list_elem_of_singleton in HR];
      injection HR as -> _ _; by split. }
  pose proof (rs_trimmed R HRl HRr) as HrsR.
  destruct (makehigh_tall_set (rs L) topL botL h (rb mid)) as (recL & recL0 & HsetL & HgL & _);
    [| lia | lia | lia |].
  { apply elem_of_cons in HL as [HL|HL]; [|apply list_elem_of_singleton in HL]; rewrite HL.
    - apply elem_of_cons; by left.
    - do 2 (apply elem_of_cons; right). apply elem_of_cons; by left. }
  destruct (makehigh_tall_set (rs R) topR botR h (rb mid)) as (recR0 & recR & HsetR & _ & HgR);
    [| lia | lia | lia |].
  { apply elem_of_cons in HR as [HR|HR]; [|apply list_elem_of_singleton in HR]; rewrite HR.
    - apply elem_of_cons; right. apply elem_of_cons; by left.
    - do 3 (apply elem_of_cons; right). apply elem_of_cons; by left. }
  exists recL, recR. split.
  - rewrite (f_leftright_frame finish st lv cpre pre L mid R Hlv Hle Hout Hch). cbv zeta.
    rewrite Heff. replace (h <? 3) with false by (unfold h; lia). rewrite andb_false_r.
    rewrite bind_Ok. cbv beta iota.
    set (R0 := trimmed_end (trimmed_beg R)) in *.
    change (out (set_out (pre ++ [L; mid; R0]) st)) with (pre ++ [L; mid; R0]).
    destruct (HsetL (pre ++ [L; mid; R0]) (-3) L) as [-> _];
      [apply (py_get_from_end pre [mid; R0] L)|done|].
    change (-3) with (- 1 - len [mid; R0]).
    rewrite (py_set_from_end pre [mid; R0] L recL), bind_Ok.
    replace (pre ++ [recL; mid; R0]) with ((pre ++ [recL; mid]) ++ R0 :: [])
      by (by rewrite <- app_assoc).
    destruct (HsetR ((pre ++ [recL; mid]) ++ [R0]) (-1) R0) as [_ ->];
      [apply (py_get_from_end (pre ++ [recL; mid]) [] R0)|done|].
    change (-1) with (- 1 - len (@nil record)).
    rewrite (py_set_from_end (pre ++ [recL; mid]) [] R0 recR), bind_Ok.
    rewrite <- app_assoc. reflexivity.
  - destruct HgL as (? & ? & ? & HrowL). destruct HgR as (? & ? & ? & HrowR).
    do 6 (split; [done|]). intros p Hp. split; [by apply HrowL|by apply HrowR].
Qed.

Lemma f_leftright_tall_witness :
  let st := set_chunks [0; 1; 2]
              (set_out [string2record (py "(") false; fraction_record;
                        string2record (py ")") false] init_state) in
  exists L' R',
    f_leftright (fun _ _ s => Ok s) st = Ok (set_out [L'; fraction_record; R'] st)
    /\ lines_of 3 (rs L') !!! 1%nat = [9474%N; SP]
    /\ lines_of 3 (rs R') !!! 0%nat = [SP; 9582%N].
Proof.
  intros st.
  assert ((rs (string2record (py "(") false), 9581%N, 9584%N)
          ∈ [(py "(", 9581%N, 9584%N); (py "[", 9484%N, 9492%N)]) as HL
    by (apply elem_of_cons; by left).
  assert ((rs (string2record (py ")") false), 9582%N, 9583%N)
          ∈ [(py ")", 9582%N, 9583%N); (py "]", 9488%N, 9496%N)]) as HR
    by (apply elem_of_cons; by left).
  destruct (f_leftright_tall (fun _ _ s => Ok s) st 0 [] []
              (string2record (py "(") false) fraction_record (string2record (py ")") false)
              9581%N 9584%N 9582%N 9583%N eq_refl (Z.le_refl 0) eq_refl eq_refl HL HR
              ltac:(done) ltac:(done) ltac:(done))
    as (L' & R' & E & _ & _ & _ & _ & _ & _ & Hrows).
  exists L', R'. split; [exact E|].
  split; [exact (proj1 (Hrows 1 ltac:(done)))|exact (proj2 (Hrows 0 ltac:(done)))].
Defined.

Lemma lines_of_three (a b c : pystr) :
  (NL ∉ a) -> (NL ∉ b) -> (NL ∉ c) -> lines_of 3 (join_with NL [a; b; c]) = [a; b; c].
Proof.
  intros Ha Hb Hc. apply lines_of_joined; [lia|done|]. by repeat constructor.
Qed.

(** X28. [f_leftright] on square brackets around a content of one row:
    the content is first made three rows high, a row of blanks above and
    below it and the baseline on its own row, and the brackets are then
    drawn three rows high around it: corner, bar, corner. *)
Theorem f_leftright_square_one_row (finish : waitv -> bool -> State -> M State)
    (st : State) (lv : Z) (cpre : list Z) (pre : list record) (L mid R : record) :
  last (level st) = Some lv -> lv <= len cpre ->
  out st = pre ++ [L; mid; R] ->
  chunks st = cpre ++ [len pre; len pre + 1; len pre + 2] ->
  rs L = py "[" -> rs R = py "]" ->
  0 <= rh mid <= 1 -> rs mid <> [] -> (NL ∉ rs mid) ->
  let l := rl mid in
  exists L' mid' R',
    f_leftright finish st
    = finish (WI 3) false (set_out (pre ++ [L'; mid'; R']) st)
    /\ rh mid' = 3 /\ rl mid' = l /\ rb mid' = 1 /\ rsp mid' = rsp mid
    /\ lines_of 3 (rs mid') = [spaces l; ljust l (rs mid); spaces l]
    /\ rh L' = 3 /\ rb L' = 1 /\ rh R' = 3 /\ rb R' = 1
    /\ (lines_of 3 (rs L') !!! 0%nat = [9484%N]
        /\ lines_of 3 (rs L') !!! 1%nat = [9474%N; SP]
        /\ lines_of 3 (rs L') !!! 2%nat = [9492%N])
    /\ (lines_of 3 (rs R') !!! 0%nat = [SP; 9488%N]
        /\ lines_of 3 (rs R') !!! 1%nat = [SP; 9474%N]
        /\ lines_of 3 (rs R') !!! 2%nat = [SP; 9496%N]).
Proof.
  intros Hlv Hle Hout Hch HL HR Hh Hne Hnl l.
  assert (eff_height mid = 1) as Heff.
  { unfold eff_height. destruct (Z.eqb_spec (rh mid) 0); lia. }
  assert (rs (trimmed_end (trimmed_beg R)) = py "]") as HrsR.
  { rewrite rs_trimmed; rewrite HR; done. }
  destruct (makehigh_tall_set (py "[") 9484%N 9492%N 3 1) as (recL & recL0 & HsetL & HgL & _);
    [do 2 (apply elem_of_cons; right); apply elem_of_cons; by left | lia | lia | lia |].
  destruct (makehigh_tall_set (py "]") 9488%N 9496%N 3 1) as (recR0 & recR & HsetR & _ & HgR);
    [do 3 (apply elem_of_cons; right); apply elem_of_cons; by left | lia | lia | lia |].
  set (mid' := mkrec 3 l 1 (rsp mid) (join_with NL [spaces l; ljust l (rs mid); spaces l])).
  exists recL, mid', recR. split.
  - rewrite (f_leftright_frame finish st lv cpre pre L mid R Hlv Hle Hout Hch). cbv zeta.
    rewrite Heff, HL, HrsR. rewrite !bool_decide_eq_true_2 by done.
    change (1 <? 3) with true. change (1 <=? 1) with true. cbn [andb]. cbv iota.
    assert (is_empty_str (rs mid) = false) as -> by (by destruct (rs mid)).
    change (mkrec 3 (rl mid) 1 (rsp mid)
              (join_with NL [spaces (rl mid); ljust (rl mid) (rs mid); spaces (rl mid)]))
      with mid'.
    set (R0 := trimmed_end (trimmed_beg R)) in *.
    unfold set_out_at. change (out (set_out (pre ++ [L; mid; R0]) st)) with (pre ++ [L; mid; R0]).
    assert (py_set (pre ++ [L; mid; R0]) (-2) mid' = Ok (pre ++ [L; mid'; R0])) as ->.
    { replace (pre ++ [L; mid; R0]) with ((pre ++ [L]) ++ mid :: [R0])
        by (by rewrite <- app_assoc).
      change (-2) with (- 1 - len [R0]).
      rewrite (py_set_from_end (pre ++ [L]) [R0] mid mid'). by rewrite <- app_assoc. }
    rewrite !bind_Ok. cbv beta iota.
    change (out (set_out (pre ++ [L; mid'; R0]) (set_out (pre ++ [L; mid; R0]) st)))
      with (pre ++ [L; mid'; R0]).
    destruct (HsetL (pre ++ [L; mid'; R0]) (-3) L) as [-> _];
      [apply (py_get_from_end pre [mid'; R0] L)|done|].
    change (-3) with (- 1 - len [mid'; R0]).
    rewrite (py_set_from_end pre [mid'; R0] L recL), bind_Ok.
    replace (pre ++ [recL; mid'; R0]) with ((pre ++ [recL; mid']) ++ R0 :: [])
      by (by rewrite <- app_assoc).
    destruct (HsetR ((pre ++ [recL; mid']) ++ [R0]) (-1) R0) as [_ ->];
      [apply (py_get_from_end (pre ++ [recL; mid']) [] R0)|done|].
    change (-1) with (- 1 - len (@nil record)).
    rewrite (py_set_from_end (pre ++ [recL; mid']) [] R0 recR), bind_Ok.
    rewrite <- app_assoc. reflexivity.
  - do 4 (split; [reflexivity|]). split.
    { unfold mid'. cbn [rs]. apply lines_of_three.
      - by apply spaces_free.
      - unfold ljust. apply not_elem_of_app. split; [done|]. by apply spaces_free.
      - by apply spaces_free. }
    destruct HgL as (HhL & _ & HbL & HrowL). destruct HgR as (HhR & _ & HbR & HrowR).
    do 4 (split; [done|]). split.
    + split; [exact (HrowL 0 ltac:(lia))|]. split; [exact (HrowL 1 ltac:(lia))|].
      exact (HrowL 2 ltac:(lia)).
    + split; [exact (HrowR 0 ltac:(lia))|]. split; [exact (HrowR 1 ltac:(lia))|].
      exact (HrowR 2 ltac:(lia)).
Qed.

Lemma f_leftright_square_one_row_witness :
  let st := set_chunks [0; 1; 2]
              (set_out [string2record (py "[") false; string2record (py "x") false;
                        string2record (py "]") false] init_state) in
  exists L' mid' R',
    f_leftright (fun _ _ s => Ok s) st = Ok (set_out [L'; mid'; R'] st)
    /\ lines_of 3 (rs mid') = [py " "; py "x"; py " "]
    /\ lines_of 3 (rs L') !!! 0%nat = [9484%N]
    /\ lines_of 3 (rs R') !!! 2%nat = [SP; 9496%N].
Proof.
  intros st.
  assert (NL ∉ rs (string2record (py "x") false)) as Hnl.
  { intros H. apply list_elem_of_singleton in H. discriminate H. }
  destruct (f_leftright_square_one_row (fun _ _ s => Ok s) st 0 [] []
              (string2record (py "[") false) (string2record (py "x") false)
              (string2record (py "]") false) eq_refl (Z.le_refl 0) eq_refl eq_refl
              eq_refl eq_refl ltac:(done) ltac:(done) Hnl)
    as (L' & mid' & R' & E & _ & _ & _ & _ & Hm & _ & _ & _ & _ & (HL0 & _) & (_ & _ & HR2)).
  exists L', mid', R'. split; [exact E|]. split; [exact Hm|]. split; [exact HL0|exact HR2].
Defined.
